(** * ExcelTransform: a shallow embedding of the customs-sheet transformer

    The repository holds two near-identical Python scripts,
    [ExcelTransform.py] and [ExcleTransform.py].  Both locate a header row in
    the sheet "面单", cut out the data block below it, derive a few text
    columns and write a nine-column sheet.  This file embeds the helper
    functions (identical in both scripts), then each script's main flow in a
    module of its own, and proves the properties of the transformation. *)

From Stdlib Require Import String Ascii.
From Stdlib Require Import List Bool Arith NArith ZArith Lia DecimalPos DecimalN.
Import ListNotations.

Set Implicit Arguments.

(* ================================================================= *)
(** ** Python strings *)

(** A Python [str] is a sequence of Unicode code points. *)
Definition pystr := list N.

(** String literals are written as UTF-8 text and decoded to code points. *)
Fixpoint string_bytes (s : string) : list N :=
  match s with
  | EmptyString => []
  | String c s' => N_of_ascii c :: string_bytes s'
  end.

Definition cont (b : N) : N := N.land b 63.

Fixpoint utf8_decode (bs : list N) : pystr :=
  match bs with
  | [] => []
  | b :: rest =>
    if (b <? 128)%N then b :: utf8_decode rest
    else if (b <? 224)%N then
      match rest with
      | b1 :: r => (N.shiftl (N.land b 31) 6 + cont b1)%N :: utf8_decode r
      | _ => []
      end
    else if (b <? 240)%N then
      match rest with
      | b1 :: b2 :: r =>
        (N.shiftl (N.land b 15) 12 + N.shiftl (cont b1) 6 + cont b2)%N
          :: utf8_decode r
      | _ => []
      end
    else
      match rest with
      | b1 :: b2 :: b3 :: r =>
        (N.shiftl (N.land b 7) 18 + N.shiftl (cont b1) 12
         + N.shiftl (cont b2) 6 + cont b3)%N :: utf8_decode r
      | _ => []
      end
  end.

Definition u (s : string) : pystr := utf8_decode (string_bytes s).

Fixpoint pystr_eqb (a b : pystr) : bool :=
  match a, b with
  | [], [] => true
  | x :: a', y :: b' => (x =? y)%N && pystr_eqb a' b'
  | _, _ => false
  end.

(** [==] on two lists of [str]. *)
Fixpoint strs_eqb (a b : list pystr) : bool :=
  match a, b with
  | [], [] => true
  | x :: a', y :: b' => pystr_eqb x y && strs_eqb a' b'
  | _, _ => false
  end.

(** [str.isspace] on one code point: the white-space set that [str.strip]
    removes and that [\s] matches in a [str] pattern. *)
Definition isspace (c : N) : bool :=
  ((9 <=? c) && (c <=? 13) || (28 <=? c) && (c <=? 32)
   || (c =? 133) || (c =? 160) || (c =? 5760)
   || (8192 <=? c) && (c <=? 8202)
   || (c =? 8232) || (c =? 8233) || (c =? 8239) || (c =? 8287)
   || (c =? 12288))%N.

Fixpoint lstrip (s : pystr) : pystr :=
  match s with
  | [] => []
  | c :: s' => if isspace c then lstrip s' else s
  end.

Definition rstrip (s : pystr) : pystr := rev (lstrip (rev s)).

(** [s.strip()] *)
Definition strip (s : pystr) : pystr := rstrip (lstrip s).

(** [s.lower()], one code point at a time.  Upper-case ASCII letters map to
    lower case; U+0130 and U+212A are the two code points outside ASCII whose
    lower-case form begins with an ASCII letter ([i] and [k]).  Every other
    code point outside ASCII lowers to text outside ASCII, which is left in
    place here: the script only tests the result against an ASCII prefix. *)
Definition lower_cp (c : N) : pystr :=
  if ((65 <=? c) && (c <=? 90))%N then [(c + 32)%N]
  else if (c =? 304)%N then [105; 775]%N
  else if (c =? 8490)%N then [107]%N
  else [c].

Definition lower (s : pystr) : pystr := flat_map lower_cp s.

(** [s.startswith(p)] *)
Fixpoint startswith (s p : pystr) : bool :=
  match p, s with
  | [], _ => true
  | y :: p', x :: s' => (x =? y)%N && startswith s' p'
  | _ :: _, [] => false
  end.

(** Decimal text of a natural number, as [str] prints an [int]. *)
Fixpoint uint_str (d : Decimal.uint) : pystr :=
  match d with
  | Decimal.Nil => []
  | Decimal.D0 d' => 48%N :: uint_str d'
  | Decimal.D1 d' => 49%N :: uint_str d'
  | Decimal.D2 d' => 50%N :: uint_str d'
  | Decimal.D3 d' => 51%N :: uint_str d'
  | Decimal.D4 d' => 52%N :: uint_str d'
  | Decimal.D5 d' => 53%N :: uint_str d'
  | Decimal.D6 d' => 54%N :: uint_str d'
  | Decimal.D7 d' => 55%N :: uint_str d'
  | Decimal.D8 d' => 56%N :: uint_str d'
  | Decimal.D9 d' => 57%N :: uint_str d'
  end.

Definition N_str (n : N) : pystr := uint_str (N.to_uint n).

Definition Z_str (z : Z) : pystr :=
  match z with
  | Zneg p => 45%N :: N_str (Npos p)
  | _ => N_str (Z.to_N z)
  end.

(* ================================================================= *)
(** ** Cells, frames and exceptions *)

(** A cell of a sheet read with [dtype=object].  [NaN] is the missing value
    ([pd.isna] holds of it and of nothing else here); [Str] is a text cell;
    [Int] an integer cell; [Obj] any other non-missing scalar (a float, a
    bool, a date), carried by the text that [str] gives for it. *)
Inductive cell : Type :=
| NaN
| Str (s : pystr)
| Int (z : Z)
| Obj (text : pystr).

Definition isna (v : cell) : bool :=
  match v with NaN => true | _ => false end.

(** [str(v)] *)
Definition py_str (v : cell) : pystr :=
  match v with
  | NaN => u "nan"
  | Str s => s
  | Int z => Z_str z
  | Obj t => t
  end.

(** [v == label] for a [str] label: only an equal text cell compares equal. *)
Definition cell_eq_str (v : cell) (label : pystr) : bool :=
  match v with
  | Str s => pystr_eqb s label
  | _ => false
  end.

(** A [DataFrame] read with [header=None]: [ncols] columns, rows of cells.
    Row and column labels are the positions. *)
Record DataFrame : Type := mkDF { ncols : nat; rows : list (list cell) }.

(** Every row of a frame has one cell per column. *)
Definition rectangular (df : DataFrame) : Prop :=
  Forall (fun r => length r = ncols df) (rows df).

(** The exceptions the scripts can meet.  [KeyError_header] is the one
    [find_header_row] raises itself, with the expected headers formatted into
    its message; the others come out of the list built-in and of pandas. *)
Inductive exn : Type :=
| KeyError_header (expected : list pystr)
| ValueError_nan
| ValueError_index (x : pystr)
| KeyError_columns (missing : list pystr)
| IndexError_iloc (col : nat)
| AttributeError_str (label : pystr)
| IOError (msg : pystr).

Inductive result (A : Type) : Type :=
| Ok (a : A)
| Raise (e : exn).
Arguments Ok {A} a.
Arguments Raise {A} e.

Definition bind {A B} (r : result A) (k : A -> result B) : result B :=
  match r with
  | Ok a => k a
  | Raise e => Raise e
  end.

Notation "x <- c ;; k" := (bind c (fun x => k))
  (at level 61, c at next level, right associativity).

(* ================================================================= *)
(** ** Header location *)

Definition IN_HEADERS_EXPECT : list pystr :=
  Eval vm_compute in
  map u ["项号"; "商品编码"; "商品名称"; "用途规格型号等"; "数量及单位";
         "境内货源地"; "最终目的国"; "原产国"; "单价"; "总价"; "币制";
         "品牌类型"; "出口享惠情况"]%string.

Definition OUT_HEADERS : list pystr :=
  Eval vm_compute in
  map u ["项号"; "商品编号"; "商品名称及规格型号"; "数量及单位";
         "单价/总价/币制"; "原产国(地区)"; "最终目的国(地区)"; "境内货源地";
         "征免"]%string.

Definition unnamed : pystr := Eval vm_compute in u "unnamed".

Definition normalize_cell (v : cell) : pystr :=
  let s := if isna v then [] else strip (py_str v) in
  match s with
  | [] => []
  | _ => if startswith (lower s) unnamed then [] else s
  end.

Definition truthy (s : pystr) : bool :=
  match s with [] => false | _ => true end.

Fixpoint normalize_row (values : list cell) : list pystr :=
  match values with
  | [] => []
  | v :: vs =>
    if truthy (normalize_cell v) then normalize_cell v :: normalize_row vs
    else normalize_row vs
  end.

(** The loop of [find_header_row] over the rows from index [i] on. *)
Fixpoint find_header_from (i : nat) (rs : list (list cell))
         (expected_headers : list pystr) : result nat :=
  match rs with
  | [] => Raise (KeyError_header expected_headers)
  | r :: rs' =>
    if strs_eqb (normalize_row r) expected_headers then Ok i
    else find_header_from (S i) rs' expected_headers
  end.

Definition find_header_row (df : DataFrame) (expected_headers : list pystr)
  : result nat :=
  find_header_from 0 (rows df) expected_headers.

(* ================================================================= *)
(** ** Text normalisation of a column *)

(** A column of raw cells, and a column of text. *)
Definition Series := list cell.
Definition StrSeries := list pystr.

(** One value through [to_str]: [fillna('')], [astype(str)], [str.strip()]. *)
Definition to_str1 (v : cell) : pystr :=
  strip (if isna v then [] else py_str v).

Definition to_str (s : Series) : StrSeries := map to_str1 s.

(** [a + b] on two aligned text columns, and [a + ' '] with a scalar. *)
Fixpoint sadd (a b : StrSeries) : StrSeries :=
  match a, b with
  | x :: a', y :: b' => (x ++ y) :: sadd a' b'
  | _, _ => []
  end.

Definition sadd_scalar (a : StrSeries) (k : pystr) : StrSeries :=
  map (fun x => x ++ k) a.

(* ================================================================= *)
(** ** Regular expressions *)

(** The fragment of [re] syntax that [_num_re] is written in. *)
Inductive re : Type :=
| Empty
| Eps
| Cls (p : N -> bool)
| Cat (a b : re)
| Alt (a b : re)
| Star (a : re).

Definition Opt (r : re) : re := Alt r Eps.
Definition Plus (r : re) : re := Cat r (Star r).

(** The language of a pattern. *)
Inductive lang : re -> pystr -> Prop :=
| lang_eps : lang Eps []
| lang_cls p c : p c = true -> lang (Cls p) [c]
| lang_cat a b s t : lang a s -> lang b t -> lang (Cat a b) (s ++ t)
| lang_alt_l a b s : lang a s -> lang (Alt a b) s
| lang_alt_r a b s : lang b s -> lang (Alt a b) s
| lang_star_nil a : lang (Star a) []
| lang_star_cons a s t : lang a s -> lang (Star a) t -> lang (Star a) (s ++ t).

Fixpoint nullable (r : re) : bool :=
  match r with
  | Empty => false
  | Eps => true
  | Cls _ => false
  | Cat a b => nullable a && nullable b
  | Alt a b => nullable a || nullable b
  | Star _ => true
  end.

Fixpoint deriv (c : N) (r : re) : re :=
  match r with
  | Empty => Empty
  | Eps => Empty
  | Cls p => if p c then Eps else Empty
  | Cat a b =>
    if nullable a then Alt (Cat (deriv c a) b) (deriv c b)
    else Cat (deriv c a) b
  | Alt a b => Alt (deriv c a) (deriv c b)
  | Star a => Cat (deriv c a) (Star a)
  end.

(** The whole of [s] is in the language of [r]. *)
Fixpoint fullmatch (r : re) (s : pystr) : bool :=
  match s with
  | [] => nullable r
  | c :: s' => fullmatch (deriv c r) s'
  end.

(** [re.compile('^' r '$').match(s)] gives a match: the pattern is anchored
    at the start, and [$] holds at the end of the text or just before a
    newline that ends the text. *)
Definition anchored_match (r : re) (s : pystr) : bool :=
  fullmatch r s
  || match rev s with
     | c :: t => (c =? 10)%N && fullmatch r (rev t)
     | [] => false
     end.

(* ================================================================= *)
(** ** Binary floating point: [float(x)] and [f"{v:.2f}"] *)

(** A binary64 value: [(-1)^neg * m * 2^e], or an infinity. *)
Inductive pyfloat : Type :=
| Finite (neg : bool) (m : N) (e : Z)
| Inf (neg : bool).

(** The integer nearest to [n / d], ties to the even one. *)
Definition round_half_even (n d : N) : N :=
  let q := (n / d)%N in
  let r := (n mod d)%N in
  match (2 * r ?= d)%N with
  | Lt => q
  | Gt => (q + 1)%N
  | Eq => if N.even q then q else (q + 1)%N
  end.

(** [(a, b)] with [a / b = (n / d) / 2^e]. *)
Definition scale (n d : N) (e : Z) : N * N :=
  if (0 <=? e)%Z then (n, (d * 2 ^ Z.to_N e)%N)
  else ((n * 2 ^ Z.to_N (- e))%N, d).

(** [floor (log2 (n / d))] for positive [n] and [d]. *)
Definition floor_log2 (n d : N) : Z :=
  let l := (Z.of_N (N.log2 n) - Z.of_N (N.log2 d))%Z in
  let (a, b) := scale n d l in
  if (b <=? a)%N then l else (l - 1)%Z.

(** The binary64 nearest to [n / d] (round to nearest, ties to even): 53
    bits of precision, least exponent [-1074], overflow to infinity from
    [2^1024] on. *)
Definition nearest_double (neg : bool) (n d : N) : pyfloat :=
  if (n =? 0)%N then Finite neg 0 0
  else
    let e := Z.max (floor_log2 n d - 52) (-1074) in
    let (a, b) := scale n d e in
    let m := round_half_even a b in
    if ((0 <=? e)%Z && (2 ^ 1024 <=? m * 2 ^ Z.to_N e)%N)%bool then Inf neg
    else Finite neg m e.

Definition sign_str (neg : bool) : pystr := if neg then [45%N] else [].

(** [f"{v:.2f}"]: the exact value rounded to hundredths, ties to even. *)
Definition format_2f (v : pyfloat) : pystr :=
  match v with
  | Inf neg => sign_str neg ++ [105; 110; 102]%N
  | Finite neg m e =>
    let (a, b) := scale (m * 100) 1 (- e) in
    let h := round_half_even a b in
    sign_str neg ++ N_str (h / 100)
      ++ [46; 48 + (h mod 100) / 10; 48 + h mod 10]%N
  end.

(** [span p s]: the longest prefix of [s] within [p], and the rest. *)
Fixpoint span (p : N -> bool) (s : pystr) : pystr * pystr :=
  match s with
  | [] => ([], [])
  | c :: s' =>
    if p c then let (a, b) := span p s' in (c :: a, b) else ([], s)
  end.

Section Money.

(** The decimal digits outside ASCII (Unicode category Nd) and their values:
    a table of the interpreter's Unicode database, which both [\d] and
    [float] consult. *)
Variable unicode_decimal : N -> option N.

Definition decimal (c : N) : option N :=
  if (c <? 128)%N then
    if ((48 <=? c) && (c <=? 57))%N then Some (c - 48)%N else None
  else unicode_decimal c.

Definition isdecimal (c : N) : bool :=
  match decimal c with Some _ => true | None => false end.

(** The value of a run of digits read after [acc]. *)
Fixpoint digits_val (acc : N) (s : pystr) : N :=
  match s with
  | [] => acc
  | c :: s' =>
    digits_val (10 * acc + match decimal c with Some d => d | None => 0 end) s'
  end.

(** The sign of a literal and what follows it. *)
Definition split_sign (s : pystr) : bool * pystr :=
  match s with
  | c :: t =>
    if (c =? 43)%N then (false, t)
    else if (c =? 45)%N then (true, t)
    else (false, s)
  | [] => (false, s)
  end.

(** A decimal literal without exponent: sign, numerator, fraction length. *)
Definition parse_decimal (s : pystr) : option (bool * N * nat) :=
  let (neg, body) := split_sign s in
  let (ip, r) := span isdecimal body in
  match r with
  | [] =>
    if truthy ip then Some (neg, digits_val 0 ip, 0) else None
  | c :: fp =>
    if (c =? 46)%N && forallb isdecimal fp && (truthy ip || truthy fp)
    then Some (neg, digits_val 0 (ip ++ fp), length fp)
    else None
  end.

(** [float(x)] on decimal literals without exponent, the only texts [fmt]
    passes to it; [None] stands for the [ValueError] of a text that is not
    such a literal.  Surrounding white space is ignored, as [float] does. *)
Definition py_float (x : pystr) : option pyfloat :=
  match parse_decimal (strip x) with
  | Some (neg, n, k) => Some (nearest_double neg n (10 ^ N.of_nat k))
  | None => None
  end.

(** [_num_re]: the pattern between its anchors [^] and [$] is, spelled with
    blanks between its parts, [ [+-]? (?: \d+ (?: \. \d* )? | \. \d+ ) ]. *)
Definition sign_cls : re := Cls (fun c => (c =? 43) || (c =? 45))%N.
Definition dot : re := Cls (fun c => (c =? 46)%N).
Definition digit : re := Cls isdecimal.

Definition _num_re : re :=
  Cat (Opt sign_cls)
      (Alt (Cat (Plus digit) (Opt (Cat dot (Star digit))))
           (Cat dot (Plus digit))).

(** The inner [fmt] of [clean_money_keep2]. *)
Definition fmt (x : pystr) : pystr :=
  if anchored_match _num_re x then
    match py_float x with
    | Some v => format_2f v
    | None => x
    end
  else x.

(** [.str.replace(r'[,$\s]', '', regex=True)] on one text. *)
Definition replace_money_chars (x : pystr) : pystr :=
  filter (fun c => negb ((c =? 44) || (c =? 36) || isspace c)%N) x.

(** [.str.replace('$', '', regex=False)] on one text. *)
Definition replace_dollar (x : pystr) : pystr :=
  filter (fun c => negb (c =? 36)%N) x.

(** The text that reaches [fmt]. *)
Definition money_text (v : cell) : pystr :=
  replace_dollar (replace_money_chars (to_str1 v)).

Definition clean_money_keep2 (s : Series) : StrSeries :=
  map fmt (map replace_dollar (map replace_money_chars (to_str s))).

(** The specification's reading of the numeric pattern: after an optional
    sign, only digits and decimal points, at most one point, at least one
    digit. *)
Definition spec_numeric (s : pystr) : bool :=
  let body := snd (split_sign s) in
  forallb (fun c => isdecimal c || (c =? 46)%N) body
  && (length (filter (fun c => (c =? 46)%N) body) <=? 1)
  && existsb isdecimal body.

(** The same texts, read from the left: digits, then nothing or a point and
    digits, with a digit on one side of the point at least. *)
Definition numeric_form (body : pystr) : bool :=
  let (ip, r) := span isdecimal body in
  match r with
  | [] => truthy ip
  | c :: fp => (c =? 46)%N && forallb isdecimal fp && (truthy ip || truthy fp)
  end.

End Money.

Definition ascii_digit (c : N) : bool := ((48 <=? c) && (c <=? 57))%N.

(** A fixed two-decimal-place decimal text: an optional minus sign, one
    digit or more, a point, two digits. *)
Definition is_two_decimal (s : pystr) : bool :=
  let body :=
    match s with
    | c :: t => if (c =? 45)%N then t else s
    | [] => s
    end in
  let (ip, r) := span ascii_digit body in
  truthy ip
  && match r with
     | [p; d1; d2] => (p =? 46)%N && ascii_digit d1 && ascii_digit d2
     | _ => false
     end.

(* ================================================================= *)
(** ** Frames: slicing, labels, columns *)

(** One bound of a Python slice over a sequence of length [len]. *)
Definition slice_bound (len : nat) (i : Z) : nat :=
  if (i <? 0)%Z then Z.to_nat (Z.max 0 (i + Z.of_nat len))
  else Z.to_nat (Z.min i (Z.of_nat len)).

(** [l[a:b]] *)
Definition py_slice {A} (l : list A) (a b : Z) : list A :=
  let lo := slice_bound (length l) a in
  let hi := slice_bound (length l) b in
  firstn (hi - lo) (skipn lo l).

(** [df.dropna(how='all').index]: the positions, from [i] on, of the rows
    that have a cell that is not missing. *)
Fixpoint dropna_index (i : nat) (rs : list (list cell)) : list nat :=
  match rs with
  | [] => []
  | r :: rs' =>
    if forallb isna r then dropna_index (S i) rs'
    else i :: dropna_index (S i) rs'
  end.

(** [int(index.max())]; the maximum of an empty index is a NaN, which [int]
    refuses. *)
Definition index_max (idx : list nat) : result Z :=
  match idx with
  | [] => Raise ValueError_nan
  | x :: t => Ok (Z.of_nat (fold_left Nat.max t x))
  end.

(** [values.index(x)] for a [str] [x]. *)
Fixpoint list_index_from (i : nat) (x : pystr) (values : list cell)
  : result nat :=
  match values with
  | [] => Raise (ValueError_index x)
  | v :: vs =>
    if cell_eq_str v x then Ok i else list_index_from (S i) x vs
  end.

Definition list_index (x : pystr) (values : list cell) : result nat :=
  list_index_from 0 x values.

(** [df.iloc[a:b, c]] *)
Definition iloc_col (df : DataFrame) (a b : Z) (c : nat) : result Series :=
  if c <? ncols df
  then Ok (map (fun r => nth c r NaN) (py_slice (rows df) a b))
  else Raise (IndexError_iloc c).

(** A frame whose columns carry labels ([in_data], [base_df]). *)
Record LFrame : Type := mkLF { columns : list cell; data : list (list cell) }.

(** The positions, counted from [i], of the columns labelled [label]. *)
Fixpoint positions (i : nat) (label : pystr) (cols : list cell) : list nat :=
  match cols with
  | [] => []
  | c :: cs =>
    if cell_eq_str c label then i :: positions (S i) label cs
    else positions (S i) label cs
  end.

Definition take (r : list cell) (ps : list nat) : list cell :=
  map (fun p => nth p r NaN) ps.

Definition absent (f : LFrame) (label : pystr) : bool :=
  match positions 0 label (columns f) with [] => true | _ => false end.

(** [f[labels]]: every column that carries one of the labels, in the order of
    [labels]; a [KeyError] when a label names no column. *)
Definition getitem_list (f : LFrame) (labels : list pystr) : result LFrame :=
  match filter (absent f) labels with
  | [] =>
    let ps := flat_map (fun l => positions 0 l (columns f)) labels in
    Ok (mkLF (take (columns f) ps) (map (fun r => take r ps) (data f)))
  | missing => Raise (KeyError_columns missing)
  end.

(** [f[label]] handed to [to_str].  A label that names one column gives that
    column.  A label that names several gives a frame, on which the [.str] of
    [to_str] raises [AttributeError]; the scripts pass every [f[label]] to
    [to_str] at once, so the exception is raised here. *)
Definition getitem (f : LFrame) (label : pystr) : result Series :=
  match positions 0 label (columns f) with
  | [] => Raise (KeyError_columns [label])
  | [p] => Ok (map (fun r => nth p r NaN) (data f))
  | _ => Raise (AttributeError_str label)
  end.

(** [s.replace({k: v})] on a text column: whole values equal to a key. *)
Definition series_replace (d : list (pystr * pystr)) (s : StrSeries)
  : StrSeries :=
  map (fun x =>
         match find (fun kv => pystr_eqb x (fst kv)) d with
         | Some kv => snd kv
         | None => x
         end) s.

(** The values of the dict given to [pd.DataFrame]: a column or a scalar. *)
Inductive dict_value : Type :=
| Column (s : StrSeries)
| Scalar (v : pystr).

(** An output frame: its columns in order, each with its label. *)
Definition OutFrame := list (pystr * StrSeries).

(** The length of the index that [pd.DataFrame] takes from the columns. *)
Fixpoint dict_index_len (d : list (pystr * dict_value)) : nat :=
  match d with
  | [] => 0
  | (_, Column s) :: _ => length s
  | (_, Scalar _) :: d' => dict_index_len d'
  end.

(** [pd.DataFrame(d)]: scalars are repeated along the index. *)
Definition frame_of_dict (d : list (pystr * dict_value)) : OutFrame :=
  let n := dict_index_len d in
  map (fun kv =>
         (fst kv, match snd kv with Column s => s | Scalar v => repeat v n end))
      d.

Fixpoint out_lookup (f : OutFrame) (label : pystr) : option StrSeries :=
  match f with
  | [] => None
  | (k, s) :: f' => if pystr_eqb k label then Some s else out_lookup f' label
  end.

(** [out[labels]] on an output frame with distinct labels. *)
Fixpoint out_select (f : OutFrame) (labels : list pystr) : result OutFrame :=
  match labels with
  | [] => Ok []
  | l :: ls =>
    match out_lookup f l with
    | None => Raise (KeyError_columns [l])
    | Some s => rest <- out_select f ls ;; Ok ((l, s) :: rest)
    end
  end.

(** [len(out)]: the number of records. *)
Definition out_len (f : OutFrame) : nat :=
  match f with
  | [] => 0
  | (_, s) :: _ => length s
  end.

(** The field [label] of record [i] of an output frame. *)
Definition field (f : OutFrame) (label : pystr) (i : nat) : option pystr :=
  match out_lookup f label with
  | Some s => nth_error s i
  | None => None
  end.

(* ================================================================= *)
(** ** Extraction and field formatting (the same lines in both scripts) *)

Definition base_cols : list pystr :=
  Eval vm_compute in
  map u ["项号"; "商品编码"; "商品名称"; "用途规格型号等"; "境内货源地";
         "最终目的国"; "原产国"; "单价"; "总价"; "币制"]%string.

Definition h_item : pystr := Eval vm_compute in u "项号".
Definition h_code : pystr := Eval vm_compute in u "商品编码".
Definition h_name : pystr := Eval vm_compute in u "商品名称".
Definition h_spec : pystr := Eval vm_compute in u "用途规格型号等".
Definition h_qty : pystr := Eval vm_compute in u "数量及单位".
Definition h_source : pystr := Eval vm_compute in u "境内货源地".
Definition h_dest : pystr := Eval vm_compute in u "最终目的国".
Definition h_origin : pystr := Eval vm_compute in u "原产国".
Definition h_unit_price : pystr := Eval vm_compute in u "单价".
Definition h_total_price : pystr := Eval vm_compute in u "总价".
Definition h_currency : pystr := Eval vm_compute in u "币制".

Definition o_code : pystr := Eval vm_compute in u "商品编号".
Definition o_name_model : pystr := Eval vm_compute in u "商品名称及规格型号".
Definition o_price : pystr := Eval vm_compute in u "单价/总价/币制".
Definition o_origin : pystr := Eval vm_compute in u "原产国(地区)".
Definition o_dest : pystr := Eval vm_compute in u "最终目的国(地区)".
Definition o_exempt : pystr := Eval vm_compute in u "征免".

Definition USD : pystr := Eval vm_compute in u "USD".
Definition meiyuan : pystr := Eval vm_compute in u "美元".
Definition zhaozhang : pystr := Eval vm_compute in u "照章".
Definition space : pystr := [32%N].
Definition slash : pystr := Eval vm_compute in u " / ".

(** [.replace({'USD': '美元'})] *)
Definition relabel_currency (s : StrSeries) : StrSeries :=
  series_replace [(USD, meiyuan)] s.

(** What the scripts hold once the columns are extracted and formatted, just
    before [price_block] is assembled. *)
Record Extracted : Type := mkExtracted {
  row_in_header : nat;
  last_non_empty : Z;
  qty_col : nat;
  in_data : LFrame;
  base_df : LFrame;
  name_model : StrSeries;
  qty_unit : StrSeries;
  unit_price : StrSeries;
  total_price : StrSeries;
  currency : StrSeries
}.

Section Extraction.

Variable unicode_decimal : N -> option N.

(** From [find_header_row] down to [currency]. *)
Definition extract (in_all : DataFrame) : result Extracted :=
  row_in_header <- find_header_row in_all IN_HEADERS_EXPECT ;;
  last_non_empty <- index_max (dropna_index 0 (rows in_all)) ;;
  let end_idx := (last_non_empty - 1)%Z in
  let header_row_vals := nth row_in_header (rows in_all) [] in
  let lo := (Z.of_nat row_in_header + 1)%Z in
  let hi := (end_idx + 1)%Z in
  let in_data := mkLF header_row_vals (py_slice (rows in_all) lo hi) in
  qty_col <- list_index h_qty header_row_vals ;;
  let unit_col := qty_col + 1 in
  base_df <- getitem_list in_data base_cols ;;
  c_name <- getitem base_df h_name ;;
  c_spec <- getitem in_data h_spec ;;
  let name_model := sadd (sadd_scalar (to_str c_name) space) (to_str c_spec) in
  c_qty <- iloc_col in_all lo hi qty_col ;;
  let qty_series := to_str c_qty in
  c_unit <- iloc_col in_all lo hi unit_col ;;
  let unit_series := to_str c_unit in
  let qty_unit := sadd qty_series unit_series in
  c_up <- getitem base_df h_unit_price ;;
  let unit_price := clean_money_keep2 unicode_decimal c_up in
  c_tp <- getitem base_df h_total_price ;;
  let total_price := clean_money_keep2 unicode_decimal c_tp in
  c_cur <- getitem base_df h_currency ;;
  let currency := relabel_currency (to_str c_cur) in
  Ok (mkExtracted row_in_header last_non_empty qty_col in_data base_df
                  name_model qty_unit unit_price total_price currency).

(** [pd.DataFrame({...})[OUT_HEADERS]], given the assembled [price_block]. *)
Definition build_out (x : Extracted) (price_block : StrSeries)
  : result OutFrame :=
  c_item <- getitem (base_df x) h_item ;;
  c_code <- getitem (base_df x) h_code ;;
  c_origin <- getitem (base_df x) h_origin ;;
  c_dest <- getitem (base_df x) h_dest ;;
  c_source <- getitem (base_df x) h_source ;;
  out_select
    (frame_of_dict
       [(h_item, Column (to_str c_item));
        (o_code, Column (to_str c_code));
        (o_name_model, Column (name_model x));
        (h_qty, Column (qty_unit x));
        (o_price, Column price_block);
        (o_origin, Column (to_str c_origin));
        (o_dest, Column (to_str c_dest));
        (h_source, Column (to_str c_source));
        (o_exempt, Scalar zhaozhang)])
    OUT_HEADERS.

End Extraction.

(* ================================================================= *)
(** ** Files *)

(** A directory entry: the directory, the entry's name, its stem as
    [pathlib] gives it, and whether it is a directory. *)
Record Path : Type := mkPath {
  parent : pystr;
  name : pystr;
  stem : pystr;
  is_dir : bool
}.

(** Where an output goes: directory and file name. *)
Definition Dest : Type := (pystr * pystr)%type.

(** The files written so far, latest first. *)
Definition Written : Type := list (Dest * OutFrame).

Definition transformed_suffix : pystr :=
  Eval vm_compute in u "_transformed.xlsx".
Definition lock_prefix : pystr := Eval vm_compute in u "~$".

(** [s.endswith(p)] *)
Definition endswith (s p : pystr) : bool := startswith (rev s) (rev p).

(** The test that makes both loops [continue]. *)
Definition skipped (f : Path) : bool :=
  is_dir f || endswith (name f) transformed_suffix
  || startswith (name f) lock_prefix.

(** [f.with_name(f.stem + '_transformed.xlsx')] *)
Definition save_path (f : Path) : Dest :=
  (parent f, stem f ++ transformed_suffix).

Definition ok_line (f : Path) (out : OutFrame) : pystr :=
  u "✓ " ++ name f ++ u " -> " ++ snd (save_path f)
    ++ u " (" ++ N_str (N.of_nat (out_len out)) ++ u " 行)".

Definition failure_line (exn_str : exn -> pystr) (f : Path) (e : exn)
  : pystr :=
  u "✗ " ++ name f ++ u " 失败: " ++ exn_str e.

(** ["\n".join(lines)] *)
Fixpoint join_lines (lines : list pystr) : pystr :=
  match lines with
  | [] => []
  | [l] => l
  | l :: ls => l ++ 10%N :: join_lines ls
  end.

(** What lies outside the scripts: the Unicode digit table, the text [str]
    gives for an exception, what reading the sheet "面单" of a file yields,
    and whether writing an output fails. *)
Record World : Type := mkWorld {
  unicode_decimal : N -> option N;
  exn_str : exn -> pystr;
  read_excel_any : Path -> result DataFrame;
  write_error : Dest -> OutFrame -> option exn
}.

(** The state of a scan: the status lines so far and the files written. *)
Definition ScanState : Type := (list pystr * Written)%type.

(* ================================================================= *)
(** ** [ExcelTransform.py] *)

Module ExcelTransform.
Section Script.

Variable W : World.

(** [unit_price + ' ' + total_price + ' ' + currency] *)
Definition price_block (x : Extracted) : StrSeries :=
  sadd (sadd_scalar (sadd (sadd_scalar (unit_price x) space) (total_price x))
                    space)
       (currency x).

(** [process_file] between reading the sheet and writing the output. *)
Definition transform (in_all : DataFrame) : result OutFrame :=
  x <- extract (unicode_decimal W) in_all ;;
  build_out x (price_block x).

Definition process_file (f : Path) (w : Written) : result pystr * Written :=
  match (in_all <- read_excel_any W f ;; transform in_all) with
  | Raise e => (Raise e, w)
  | Ok out_df =>
    match write_error W (save_path f) out_df with
    | Some e => (Raise e, w)
    | None => (Ok (ok_line f out_df), (save_path f, out_df) :: w)
    end
  end.

(** The body of the inner [for] loop of [main]. *)
Definition visit (st : ScanState) (f : Path) : ScanState :=
  if skipped f then st
  else
    match process_file f (snd st) with
    | (Ok msg, w) => (fst st ++ [msg], w)
    | (Raise e, w) => (fst st ++ [failure_line (exn_str W) f e], w)
    end.

(** The body of the outer [for] loop: a directory and what its [glob]
    yields. *)
Definition scan_dir (st : list pystr * ScanState) (base : pystr * list Path)
  : list pystr * ScanState :=
  (fst st ++ [fst base], fold_left visit (snd base) (snd st)).

(** The arguments of the four [print] calls that give the usage. *)
Definition usage : list pystr :=
  [10%N :: u "用法示例：";
   u "  1) 先 cd 到含有 Excel 的目录，再运行可执行文件";
   u "  2) 或：Excel 与可执行文件放一起运行";
   u "  3) 或：传入目录/文件参数 -> ExcelTransform "
     ++ 34%N :: u "/path/to/folder-or-file" ++ [34%N]].

(** [main]: what is printed, one text for each [print], and the files
    written. *)
Definition main (SEARCH_DIRS : list (pystr * list Path))
  : list pystr * Written :=
  let '(scanned, (results, w)) :=
    fold_left scan_dir SEARCH_DIRS ([], ([], [])) in
  match results with
  | [] =>
    (u "未在以下目录找到可处理的 Excel：" :: map (fun d => u " - " ++ d) scanned
       ++ usage, w)
  | _ => ([join_lines results], w)
  end.

End Script.
End ExcelTransform.

(* ================================================================= *)
(** ** [ExcleTransform.py] *)

Module ExcleTransform.
Section Script.

Variable W : World.

(** [unit_price + ' / ' + total_price + ' ' + currency] *)
Definition price_block (x : Extracted) : StrSeries :=
  sadd (sadd_scalar (sadd (sadd_scalar (unit_price x) slash) (total_price x))
                    space)
       (currency x).

(** The [try] block of the loop between reading and writing. *)
Definition transform (in_all : DataFrame) : result OutFrame :=
  x <- extract (unicode_decimal W) in_all ;;
  build_out x (price_block x).

(** The body of the [for] loop over the script's own directory. *)
Definition visit (st : ScanState) (f : Path) : ScanState :=
  if skipped f then st
  else
    match (in_all <- read_excel_any W f ;; transform in_all) with
    | Raise e => (fst st ++ [failure_line (exn_str W) f e], snd st)
    | Ok out_df =>
      match write_error W (save_path f) out_df with
      | Some e => (fst st ++ [failure_line (exn_str W) f e], snd st)
      | None =>
        (fst st ++ [ok_line f out_df], (save_path f, out_df) :: snd st)
      end
    end.

(** The script: the line printed and the files written. *)
Definition main (BASE_DIR : list Path) : list pystr * Written :=
  let (results, w) := fold_left visit BASE_DIR ([], []) in
  ([join_lines results], w).

End Script.
End ExcleTransform.

(* ================================================================= *)
(** ** The specification's reading of header matching *)

Definition ascii_fold (c : N) : N :=
  if ((65 <=? c) && (c <=? 90))%N then (c + 32)%N else c.

(** A text that begins with "unnamed", in any case. *)
Definition spec_placeholder (s : pystr) : bool :=
  startswith (map ascii_fold s) unnamed.

(** Trim; a blank, a missing or a placeholder value is empty. *)
Definition spec_normalize_cell (v : cell) : pystr :=
  match v with
  | NaN => []
  | _ =>
    let s := strip (py_str v) in
    if forallb isspace (py_str v) || spec_placeholder s then [] else s
  end.

(** The ordered values of a row that are not empty. *)
Definition spec_header_values (r : list cell) : list pystr :=
  filter truthy (map spec_normalize_cell r).

(** A cell that holds only white space, is missing, or holds a placeholder. *)
Definition spec_filler (v : cell) : bool :=
  match v with
  | NaN => true
  | Str s => forallb isspace s || spec_placeholder (strip s)
  | _ => false
  end.

(** [with_fillers base r]: the row [r] is [base] with filler cells put in
    anywhere. *)
Inductive with_fillers : list cell -> list cell -> Prop :=
| wf_nil : with_fillers [] []
| wf_keep v b r : with_fillers b r -> with_fillers (v :: b) (v :: r)
| wf_fill v b r :
    spec_filler v = true -> with_fillers b r -> with_fillers b (v :: r).

(** Row [i] is the first row of [rs] whose values are [expected]. *)
Definition first_match (rs : list (list cell)) (expected : list pystr)
           (i : nat) : Prop :=
  (exists r, nth_error rs i = Some r /\ spec_header_values r = expected)
  /\ forall j r, j < i -> nth_error rs j = Some r ->
                 spec_header_values r <> expected.

(* ================================================================= *)
(** ** The specification's reading of the data block and of the records *)

(** A row is non-blank when one of its cells is not missing. *)
Definition non_blank (r : list cell) : bool :=
  existsb (fun v => negb (isna v)) r.

(** [last] is the index of the last non-blank row of [rs]. *)
Definition last_non_blank (rs : list (list cell)) (last : nat) : Prop :=
  (exists r, nth_error rs last = Some r /\ non_blank r = true)
  /\ forall j r, last < j -> nth_error rs j = Some r -> non_blank r = false.

(** The rows with index from [h + 1] through [last - 1]; there are
    [last - h - 1] of them, none when that is not positive. *)
Definition spec_data_block (rs : list (list cell)) (h last : nat)
  : list (list cell) :=
  map (fun i => nth i rs []) (seq (h + 1) (last - h - 1)).

(** A label is clean when normalizing a cell that holds it gives it back. *)
Definition clean (l : pystr) : Prop :=
  normalize_cell (Str l) = l /\ truthy l = true.

(** The position of the column named [l] in the header row [hr]. *)
Definition colpos (hr : list cell) (l : pystr) : nat :=
  hd 0 (positions 0 l hr).

(** The header row holds, as they are written, the names of the columns the
    scripts look up. *)
Definition labels_present (hr : list cell) : bool :=
  forallb (fun l => existsb (fun c => cell_eq_str c l) hr)
          (h_qty :: base_cols).

(** The normalized text of the cell of row [r] in the column named [l]. *)
Definition cell_text (hr : list cell) (l : pystr) (r : list cell) : pystr :=
  to_str1 (nth (colpos hr l) r NaN).

(** "USD" becomes "美元"; any other text stays. *)
Definition spec_relabel (s : pystr) : pystr :=
  if pystr_eqb s USD then meiyuan else s.

Section Records.

Variable ud : N -> option N.
Variable sep : pystr.
Variable hr : list cell.

Definition spec_name_model (r : list cell) : pystr :=
  cell_text hr h_name r ++ space ++ cell_text hr h_spec r.

Definition spec_qty_unit (r : list cell) : pystr :=
  to_str1 (nth (colpos hr h_qty) r NaN)
  ++ to_str1 (nth (colpos hr h_qty + 1) r NaN).

Definition spec_money (l : pystr) (r : list cell) : pystr :=
  fmt ud (money_text (nth (colpos hr l) r NaN)).

Definition spec_currency (r : list cell) : pystr :=
  spec_relabel (cell_text hr h_currency r).

Definition spec_price (r : list cell) : pystr :=
  spec_money h_unit_price r ++ sep ++ spec_money h_total_price r
  ++ space ++ spec_currency r.

(** The output records of a data block, field by field. *)
Definition spec_out (block : list (list cell)) : OutFrame :=
  [(h_item, map (cell_text hr h_item) block);
   (o_code, map (cell_text hr h_code) block);
   (o_name_model, map spec_name_model block);
   (h_qty, map spec_qty_unit block);
   (o_price, map spec_price block);
   (o_origin, map (cell_text hr h_origin) block);
   (o_dest, map (cell_text hr h_dest) block);
   (h_source, map (cell_text hr h_source) block);
   (o_exempt, repeat zhaozhang (length block))].

End Records.

(** What [extract] holds for a header row [hr] at index [h], a last non-blank
    row [last], the quantity column [q] and a data block [block]. *)
Definition extracted_spec (ud : N -> option N) (hr : list cell)
           (h last q : nat) (block : list (list cell)) : Extracted :=
  mkExtracted h (Z.of_nat last) q (mkLF hr block)
    (mkLF (map Str base_cols)
          (map (fun r => take r (map (colpos hr) base_cols)) block))
    (map (spec_name_model hr) block)
    (map (spec_qty_unit hr) block)
    (map (spec_money ud hr h_unit_price) block)
    (map (spec_money ud hr h_total_price) block)
    (map (spec_currency hr) block).

(** The outcome of a script on a sheet whose header row [hr] is at [h] and
    whose last non-blank row is at [last], for the separator [sep]. *)
Definition outcome (ud : N -> option N) (sep : pystr) (df : DataFrame)
           (hr : list cell) (h last : nat) : result OutFrame :=
  let block := spec_data_block (rows df) h last in
  match list_index h_qty hr with
  | Raise e => Raise e
  | Ok q =>
    match filter (absent (mkLF hr block)) base_cols with
    | [] =>
      if q <? ncols df then
        if q + 1 <? ncols df
        then Ok (spec_out ud sep hr block)
        else Raise (IndexError_iloc (q + 1))
      else Raise (IndexError_iloc q)
    | missing => Raise (KeyError_columns missing)
    end
  end.

(** The files of a listing that a loop does not skip. *)
Definition candidates (entries : list Path) : list Path :=
  filter (fun f => negb (skipped f)) entries.

(** The status line of one file, for a script's [transform]. *)
Definition spec_status (W : World) (transform : DataFrame -> result OutFrame)
           (f : Path) : pystr :=
  match (in_all <- read_excel_any W f ;; transform in_all) with
  | Raise e => failure_line (exn_str W) f e
  | Ok out =>
    match write_error W (save_path f) out with
    | Some e => failure_line (exn_str W) f e
    | None => ok_line f out
    end
  end.

(* ================================================================= *)
(** ** Sample inputs *)

(** An interpreter whose only decimal digits are the ASCII ones. *)
Definition ascii_only : N -> option N := fun _ => None.

(** A text cell of 309 nines. *)
Definition nines309 : cell := Str (repeat 57%N 309).

(** A world with nothing to read and no write failure. *)
Definition sample_world : World :=
  mkWorld ascii_only (fun _ => []) (fun _ => Raise (IOError []))
          (fun _ _ => None).

(** A header row of fourteen cells: the expected headers, with the missing
    cell of a merged header to the right of 数量及单位. *)
Definition sample_header : list cell :=
  map Str (firstn 5 IN_HEADERS_EXPECT) ++ [NaN]
      ++ map Str (skipn 5 IN_HEADERS_EXPECT).

Definition sample_row (k : Z) : list cell :=
  [Int k; Str (u "8471300000"); Str (u " laptop "); Str (u "16G"); Int 3;
   Str (u "台"); Str (u "深圳"); Str (u "美国"); Str (u "中国");
   Str (u "1,234.5"); Str (u "$10"); Str (u "USD"); NaN; NaN].

Definition blank_row : list cell := repeat NaN 14.

(** The header at index 5, data at 6 to 10, a summary row at 11. *)
Definition sample_sheet : DataFrame :=
  mkDF 14
    [blank_row; Str (u "出口货物报关单") :: repeat NaN 13; blank_row;
     blank_row; blank_row; sample_header;
     sample_row 1; sample_row 2; sample_row 3; sample_row 4; sample_row 5;
     Str (u "合计") :: repeat NaN 13; blank_row].

Definition sample_out : OutFrame :=
  Eval vm_compute in
  match ExcelTransform.transform sample_world sample_sheet with
  | Ok out => out
  | Raise _ => []
  end.

(** The same header with a blank before 项号, and with a blank after
    数量及单位. *)
Definition padded_item_header : list cell :=
  Str (u " 项号") :: tl sample_header.

Definition padded_qty_header : list cell :=
  map Str (firstn 4 IN_HEADERS_EXPECT) ++ [Str (u "数量及单位 "); NaN]
      ++ map Str (skipn 5 IN_HEADERS_EXPECT).

Definition padded_item_sheet : DataFrame :=
  mkDF 14 [padded_item_header; sample_row 1; Str (u "合计") :: repeat NaN 13].

Definition padded_qty_sheet : DataFrame :=
  mkDF 14 [padded_qty_header; sample_row 1; Str (u "合计") :: repeat NaN 13].

(* ================================================================= *)
(** ** [candidate_dirs] of [ExcelTransform.py] *)

(** What [candidate_dirs] asks of the interpreter and of the file system.  A
    path is carried by the text [str] gives for it. *)
Record Host : Type := mkHost {
  argv : list pystr;
  resolve : pystr -> pystr;
  path_is_dir : pystr -> bool;
  path_parent : pystr -> pystr;
  path_exists : pystr -> bool;
  cwd : pystr;
  frozen : bool;
  executable : pystr;
  file : pystr
}.

(** [s in seen] *)
Definition in_seen (s : pystr) (seen : list pystr) : bool :=
  existsb (pystr_eqb s) seen.

Section CandidateDirs.

Variable H : Host.

(** The three [dirs.append]: the argument if there is one, the working
    directory, the directory of the program. *)
Definition dirs_listed : list pystr :=
  let from_arg :=
    match argv H with
    | _ :: a :: _ =>
      let p := resolve H a in
      [if path_is_dir H p then p else path_parent H p]
    | _ => []
    end in
  let app_dir :=
    if frozen H then resolve H (path_parent H (executable H))
    else resolve H (path_parent H (file H)) in
  from_arg ++ [resolve H (cwd H)] ++ [app_dir].

(** The body of the loop that removes repeats and paths that do not exist;
    the state is [(uniq, seen)]. *)
Definition keep_dir (st : list pystr * list pystr) (d : pystr)
  : list pystr * list pystr :=
  if path_exists H d then
    if in_seen d (snd st) then st
    else (fst st ++ [d], d :: snd st)
  else st.

Definition candidate_dirs : list pystr :=
  fst (fold_left keep_dir dirs_listed ([], [])).

End CandidateDirs.

(** The first occurrences of the elements of a list, in order. *)
Fixpoint spec_uniq (l : list pystr) : list pystr :=
  match l with
  | [] => []
  | d :: l' => d :: filter (fun x => negb (pystr_eqb x d)) (spec_uniq l')
  end.

(** What the loop of [candidate_dirs] adds to [uniq] when it runs over [l]
    having seen [seen]. *)
Fixpoint kept (H : Host) (l seen : list pystr) : list pystr :=
  match l with
  | [] => []
  | d :: l' =>
    if path_exists H d && negb (in_seen d seen)
    then d :: kept H l' (d :: seen)
    else kept H l' seen
  end.

(** A text that neither begins nor ends with white space. *)
Definition trimmed (s : pystr) : Prop :=
  match s with [] => True | c :: _ => isspace c = false end
  /\ match rev s with [] => True | c :: _ => isspace c = false end.

(** The base columns that no header cell holds as written. *)
Definition missing_cols (hr : list cell) : list pystr :=
  filter (fun l => negb (existsb (fun c => cell_eq_str c l) hr)) base_cols.

(** The output columns that copy an input column: output name, input name. *)
Definition copied_columns : list (pystr * pystr) :=
  [(h_item, h_item); (o_code, h_code); (o_origin, h_origin);
   (o_dest, h_dest); (h_source, h_source)].

(** A sheet of thirteen columns whose header row is the expected headers and
    nothing else. *)
Definition plain_row (k : Z) : list cell :=
  [Int k; Str (u "8471300000"); Str (u "laptop"); Str (u "16G"); Int 3;
   Str (u "深圳"); Str (u "美国"); Str (u "中国"); Str (u "1,234.5");
   Str (u "$10"); Str (u "USD"); NaN; NaN].

Definition plain_sheet : DataFrame :=
  mkDF 13 [map Str IN_HEADERS_EXPECT; plain_row 1; plain_row 2;
           Str (u "合计") :: repeat NaN 12].

Definition plain_out : OutFrame :=
  Eval vm_compute in
  match ExcelTransform.transform sample_world plain_sheet with
  | Ok out => out
  | Raise _ => []
  end.

(** The text of [h] hundredths with the sign [neg]: the integer part, a
    point, two digits. *)
Definition two_decimal_text (neg : bool) (h : N) : pystr :=
  sign_str neg ++ N_str (h / 100)
    ++ [46; 48 + (h mod 100) / 10; 48 + h mod 10]%N.

(** A code point that money normalization leaves in place. *)
Definition kept_char (c : N) : Prop :=
  c <> 44%N /\ c <> 36%N /\ isspace c = false.

(** What one file of a listing leaves on disk, for a script's
    [transform]. *)
Definition spec_written (W : World)
           (transform : DataFrame -> result OutFrame) (f : Path) : Written :=
  match (in_all <- read_excel_any W f ;; transform in_all) with
  | Raise _ => []
  | Ok out =>
    match write_error W (save_path f) out with
    | Some _ => []
    | None => [(save_path f, out)]
    end
  end.

(** The entry of a listing that an output becomes. *)
Definition as_entry (d : Dest) (st : pystr) (dir : bool) : Path :=
  mkPath (fst d) (snd d) st dir.

(** A world in which every file holds the sample sheet and every write
    succeeds, and a directory with one workbook, one earlier output and one
    lock file. *)
Definition reading_world : World :=
  mkWorld ascii_only (fun _ => []) (fun _ => Ok sample_sheet)
          (fun _ _ => None).

Definition sample_listing : list Path :=
  [mkPath (u "d") (u "a.xlsx") (u "a") false;
   mkPath (u "d") (u "a_transformed.xlsx") (u "a_transformed") false;
   mkPath (u "d") (u "~$a.xlsx") (u "~$a") false].

(** A sheet with a blank row inside the data block. *)
Definition gappy_sheet : DataFrame :=
  mkDF 14 [sample_header; sample_row 1; blank_row; sample_row 2;
           Str (u "合计") :: repeat NaN 13].

Definition gappy_out : OutFrame :=
  Eval vm_compute in
  match ExcelTransform.transform sample_world gappy_sheet with
  | Ok out => out
  | Raise _ => []
  end.

(** Twice the least value that [float] turns into an infinity,
    [2^1024 - 2^970]: half-way between the largest binary64 and [2^1024]. *)
Definition overflow_twice : N := (2 ^ 1025 - 2 ^ 971)%N.

(** [n / d] is below that value. *)
Definition in_range (n d : N) : bool := (2 * n <? d * overflow_twice)%N.

(* ================================================================= *)
(** * Properties *)

(* ================================================================= *)
(** ** Texts *)

Lemma pystr_eqb_eq (a b : pystr) : pystr_eqb a b = true <-> a = b.
Proof.
  revert b; induction a as [|x a IH]; intros [|y b]; simpl;
    try (split; [discriminate | discriminate]); try tauto.
  rewrite andb_true_iff, N.eqb_eq, IH. split.
  - intros [-> ->]; reflexivity.
  - intros E; injection E; auto.
Qed.

Lemma pystr_eqb_refl (a : pystr) : pystr_eqb a a = true.
Proof. apply pystr_eqb_eq; reflexivity. Qed.

Lemma strs_eqb_eq (a b : list pystr) : strs_eqb a b = true <-> a = b.
Proof.
  revert b; induction a as [|x a IH]; intros [|y b]; simpl;
    try (split; [discriminate | discriminate]); try tauto.
  rewrite andb_true_iff, pystr_eqb_eq, IH. split.
  - intros [-> ->]; reflexivity.
  - intros E; injection E; auto.
Qed.

Lemma lstrip_nil_iff (s : pystr) : lstrip s = [] <-> forallb isspace s = true.
Proof.
  induction s as [|c s IH]; simpl; [tauto|].
  destruct (isspace c); simpl; [exact IH|]. split; discriminate.
Qed.

Lemma forallb_rev {A} (p : A -> bool) (l : list A) :
  forallb p (rev l) = forallb p l.
Proof.
  induction l as [|x l IH]; simpl; [reflexivity|].
  rewrite forallb_app, IH; simpl. rewrite andb_true_r, andb_comm; reflexivity.
Qed.

Lemma lstrip_head (s : pystr) :
  lstrip s = [] \/ exists c t, lstrip s = c :: t /\ isspace c = false.
Proof.
  induction s as [|c s IH]; simpl; [left; reflexivity|].
  destruct (isspace c) eqn:E; [exact IH|]. right; exists c, s; auto.
Qed.

Lemma strip_nil_iff (s : pystr) : strip s = [] <-> forallb isspace s = true.
Proof.
  unfold strip, rstrip. split.
  - intros H. apply (f_equal (@rev N)) in H. rewrite rev_involutive in H.
    simpl in H. apply lstrip_nil_iff in H. rewrite forallb_rev in H.
    apply lstrip_nil_iff.
    destruct (lstrip_head s) as [E | (c & t & E & Hc)]; [exact E|].
    rewrite E in H. simpl in H. rewrite Hc in H. discriminate.
  - intros H. apply lstrip_nil_iff in H. rewrite H. reflexivity.
Qed.

Lemma startswith_cons (x y : N) (s p : pystr) :
  startswith (x :: s) (y :: p) = ((x =? y)%N && startswith s p)%bool.
Proof. reflexivity. Qed.

(** On a prefix of ASCII letters other than [i] and [k], lowering the text
    and folding its ASCII letters agree. *)
Lemma startswith_lower_fold (p s : pystr) :
  Forall (fun y => (y < 128)%N /\ y <> 105%N /\ y <> 107%N) p ->
  startswith (lower s) p = startswith (map ascii_fold s) p.
Proof.
  intros Hp; revert s; induction Hp as [|y p (Hy & Hi & Hk) _ IH];
    intros s.
  - destruct (lower s), (map ascii_fold s); reflexivity.
  - destruct s as [|c s]; [reflexivity|].
    change (lower (c :: s)) with (lower_cp c ++ lower s).
    change (map ascii_fold (c :: s)) with (ascii_fold c :: map ascii_fold s).
    rewrite startswith_cons. unfold lower_cp, ascii_fold at 1.
    destruct ((65 <=? c) && (c <=? 90))%N eqn:Eu.
    + change ([(c + 32)%N] ++ lower s) with ((c + 32)%N :: lower s).
      rewrite startswith_cons, IH; reflexivity.
    + destruct (c =? 304)%N eqn:E1.
      * apply N.eqb_eq in E1; subst c.
        change ([105%N; 775%N] ++ lower s) with (105%N :: 775%N :: lower s).
        rewrite startswith_cons.
        replace (105 =? y)%N with false by (symmetry; apply N.eqb_neq; lia).
        replace (304 =? y)%N with false by (symmetry; apply N.eqb_neq; lia).
        reflexivity.
      * destruct (c =? 8490)%N eqn:E2.
        -- apply N.eqb_eq in E2; subst c.
           change ([107%N] ++ lower s) with (107%N :: lower s).
           rewrite startswith_cons.
           replace (107 =? y)%N with false by (symmetry; apply N.eqb_neq; lia).
           replace (8490 =? y)%N with false by (symmetry; apply N.eqb_neq; lia).
           reflexivity.
        -- change ([c] ++ lower s) with (c :: lower s).
           rewrite startswith_cons, IH; reflexivity.
Qed.

Lemma unnamed_letters :
  Forall (fun y => (y < 128)%N /\ y <> 105%N /\ y <> 107%N) unnamed.
Proof. unfold unnamed. repeat constructor; try lia; discriminate. Qed.

Lemma normalize_cell_spec (v : cell) :
  normalize_cell v = spec_normalize_cell v.
Proof.
  unfold normalize_cell, spec_normalize_cell, spec_placeholder.
  destruct v as [|s|z|t]; simpl isna; cbv iota; try reflexivity.
  all: match goal with |- context [strip ?x] =>
         destruct (forallb isspace x) eqn:B;
         [ apply strip_nil_iff in B; rewrite B; reflexivity
         | destruct (strip x) as [|c r] eqn:E;
           [ apply strip_nil_iff in E; congruence
           | simpl orb;
             rewrite (@startswith_lower_fold unnamed (c :: r) unnamed_letters);
             reflexivity ] ]
       end.
Qed.

Lemma normalize_row_filter (values : list cell) :
  normalize_row values = filter truthy (map normalize_cell values).
Proof.
  induction values as [|v vs IH]; simpl; [reflexivity|].
  destruct (truthy (normalize_cell v)); rewrite IH; reflexivity.
Qed.

Lemma normalize_row_spec (values : list cell) :
  normalize_row values = spec_header_values values.
Proof.
  rewrite normalize_row_filter. unfold spec_header_values.
  f_equal. apply map_ext. exact normalize_cell_spec.
Qed.

Lemma filler_normalizes (v : cell) :
  spec_filler v = true -> normalize_cell v = [].
Proof.
  rewrite normalize_cell_spec.
  destruct v as [|s|z|t]; simpl; try discriminate; try reflexivity.
  intros H. apply orb_true_iff in H as [H|H]; rewrite H; simpl;
    [reflexivity | rewrite orb_true_r; reflexivity].
Qed.

Lemma with_fillers_normalize (b r : list cell) :
  with_fillers b r -> normalize_row r = normalize_row b.
Proof.
  induction 1 as [|v b r _ IH|v b r Hv _ IH]; simpl.
  - reflexivity.
  - rewrite IH; reflexivity.
  - rewrite (filler_normalizes _ Hv); simpl. exact IH.
Qed.

(* ================================================================= *)
(** ** The header locator *)

Lemma find_header_from_ok (rs : list (list cell)) (expected : list pystr) :
  forall k i,
    find_header_from k rs expected = Ok i <->
    exists j, i = k + j /\
      (exists r, nth_error rs j = Some r /\ normalize_row r = expected) /\
      forall j' r, j' < j -> nth_error rs j' = Some r ->
                   normalize_row r <> expected.
Proof.
  induction rs as [|r rs IH]; intros k i; simpl.
  - split; [discriminate|].
    intros (j & _ & (r & Hr & _) & _). destruct j; discriminate.
  - destruct (strs_eqb (normalize_row r) expected) eqn:E.
    + apply strs_eqb_eq in E. split.
      * intros H; injection H as <-. exists 0. split; [lia|]. split.
        -- exists r; auto.
        -- intros j' r' Hj; lia.
      * intros (j & -> & _ & Hmin). destruct j as [|j].
        -- f_equal; lia.
        -- exfalso. apply (Hmin 0 r); [lia | reflexivity | exact E].
    + assert (Hne : normalize_row r <> expected).
      { intros H. apply strs_eqb_eq in H. congruence. }
      rewrite IH. split.
      * intros (j & -> & (r' & Hr' & Hm) & Hmin). exists (S j).
        split; [lia|]. split; [exists r'; auto|].
        intros [|j'] r'' Hlt Hn; simpl in Hn.
        -- injection Hn as <-. exact Hne.
        -- apply (Hmin j' r''); [lia | exact Hn].
      * intros (j & -> & (r' & Hr' & Hm) & Hmin). destruct j as [|j].
        -- simpl in Hr'. injection Hr' as <-. contradiction.
        -- exists j. split; [lia|]. split; [exists r'; auto|].
           intros j' r'' Hlt Hn. apply (Hmin (S j') r''); [lia | exact Hn].
Qed.

Lemma find_header_from_raise (rs : list (list cell)) (expected : list pystr) :
  forall k e,
    find_header_from k rs expected = Raise e <->
    e = KeyError_header expected /\
    forall r, In r rs -> normalize_row r <> expected.
Proof.
  induction rs as [|r rs IH]; intros k e; simpl.
  - split.
    + intros H; injection H as <-. split; [reflexivity | intros r []].
    + intros [-> _]; reflexivity.
  - destruct (strs_eqb (normalize_row r) expected) eqn:E.
    + apply strs_eqb_eq in E. split; [discriminate|].
      intros [_ H]. exfalso. apply (H r); auto.
    + assert (Hne : normalize_row r <> expected).
      { intros H. apply strs_eqb_eq in H. congruence. }
      rewrite IH. split; intros [-> H]; split; auto.
      intros r' [<-|Hin]; auto.
Qed.

Lemma expected_row_normalizes :
  normalize_row (map Str IN_HEADERS_EXPECT) = IN_HEADERS_EXPECT.
Proof. vm_compute. reflexivity. Qed.

(** C1.  [find_header_row] returns the index of the first row whose
    normalized, non-empty values are the expected sequence, where a cell is
    normalized by trimming and a blank, missing or "unnamed"-prefixed value
    (in any case) is dropped; it raises the [KeyError] that carries the
    expected headers exactly when no row matches; and a row that is the 13
    expected headers with filler cells put in anywhere matches. *)
Theorem find_header_row_first_match
        (df : DataFrame) (expected_headers : list pystr) :
  (forall i, find_header_row df expected_headers = Ok i <->
             first_match (rows df) expected_headers i)
  /\ (forall e, find_header_row df expected_headers = Raise e <->
                e = KeyError_header expected_headers /\
                forall r, In r (rows df) ->
                          spec_header_values r <> expected_headers)
  /\ (forall r, with_fillers (map Str IN_HEADERS_EXPECT) r ->
                spec_header_values r = IN_HEADERS_EXPECT).
Proof.
  unfold find_header_row, first_match. split; [|split].
  - intros i. rewrite find_header_from_ok. split.
    + intros (j & -> & (r & Hr & Hm) & Hmin). simpl. split.
      * exists r. rewrite <- normalize_row_spec; auto.
      * intros j' r' Hj Hn. rewrite <- normalize_row_spec. eauto.
    + intros [(r & Hr & Hm) Hmin]. exists i. split; [reflexivity|]. split.
      * exists r. rewrite normalize_row_spec; auto.
      * intros j r' Hj Hn. rewrite normalize_row_spec. eauto.
  - intros e. rewrite find_header_from_raise. split; intros [-> H];
      (split; [reflexivity|]); intros r Hin;
      [rewrite <- normalize_row_spec | rewrite normalize_row_spec]; auto.
  - intros r H. rewrite <- normalize_row_spec.
    rewrite (with_fillers_normalize H). exact expected_row_normalizes.
Qed.

(* ================================================================= *)
(** ** Labels of the header row *)

Lemma cell_eq_str_true (c : cell) (l : pystr) :
  cell_eq_str c l = true <-> c = Str l.
Proof.
  destruct c as [|s|z|t]; simpl; try (split; discriminate).
  rewrite pystr_eqb_eq. split; [intros ->; reflexivity | congruence].
Qed.

Lemma normalize_row_app (a b : list cell) :
  normalize_row (a ++ b) = normalize_row a ++ normalize_row b.
Proof.
  induction a as [|v a IH]; simpl; [reflexivity|].
  destruct (truthy (normalize_cell v)); rewrite IH; reflexivity.
Qed.

Lemma normalize_row_length (r : list cell) :
  length (normalize_row r) <= length r.
Proof.
  induction r as [|v r IH]; simpl; [lia|].
  destruct (truthy (normalize_cell v)); simpl; lia.
Qed.

Lemma expected_clean : Forall clean IN_HEADERS_EXPECT.
Proof. unfold IN_HEADERS_EXPECT. repeat constructor. Qed.

Lemma expected_nodup : NoDup IN_HEADERS_EXPECT.
Proof.
  unfold IN_HEADERS_EXPECT.
  repeat (constructor; [simpl; intuition discriminate|]). constructor.
Qed.

Lemma nodup_count (l : pystr) (xs : list pystr) :
  NoDup xs -> length (filter (fun x => pystr_eqb x l) xs) <= 1.
Proof.
  induction 1 as [|x xs Hx _ IH]; simpl; [lia|].
  destruct (pystr_eqb x l) eqn:E; [|exact IH].
  apply pystr_eqb_eq in E; subst x. simpl.
  assert (filter (fun x => pystr_eqb x l) xs = []) as ->; [|simpl; lia].
  clear IH. induction xs as [|y xs IH]; simpl; [reflexivity|].
  destruct (pystr_eqb y l) eqn:E.
  - apply pystr_eqb_eq in E; subst y. exfalso; apply Hx; left; reflexivity.
  - apply IH. intros H; apply Hx; right; exact H.
Qed.

Lemma positions_count (l : pystr) (row : list cell) :
  clean l -> forall k,
  length (positions k l row)
  <= length (filter (fun x => pystr_eqb x l) (normalize_row row)).
Proof.
  intros [Hn Ht]; induction row as [|c row IH]; intros k; simpl; [lia|].
  destruct (cell_eq_str c l) eqn:E.
  - apply cell_eq_str_true in E; subst c. rewrite Hn, Ht. simpl.
    rewrite pystr_eqb_refl. simpl. specialize (IH (S k)). lia.
  - specialize (IH (S k)).
    destruct (truthy (normalize_cell c)); simpl; [|exact IH].
    destruct (pystr_eqb (normalize_cell c) l); simpl; lia.
Qed.

Lemma positions_nth (l : pystr) (row : list cell) :
  forall k p, In p (positions k l row) ->
              k <= p /\ nth_error row (p - k) = Some (Str l).
Proof.
  induction row as [|c row IH]; intros k p; simpl; [intros []|].
  destruct (cell_eq_str c l) eqn:E.
  - intros [<-|H].
    + rewrite Nat.sub_diag. simpl. apply cell_eq_str_true in E; subst c. auto.
    + apply IH in H as [Hk Hn]. split; [lia|].
      replace (p - k) with (S (p - S k)) by lia. exact Hn.
  - intros H. apply IH in H as [Hk Hn]. split; [lia|].
    replace (p - k) with (S (p - S k)) by lia. exact Hn.
Qed.

Lemma positions_in (l : pystr) (row : list cell) :
  forall k, In (Str l) row -> positions k l row <> [].
Proof.
  induction row as [|c row IH]; intros k; simpl; [intros []|].
  intros [->|H].
  - simpl. rewrite pystr_eqb_refl. discriminate.
  - destruct (cell_eq_str c l); [discriminate | apply IH; exact H].
Qed.

(** In a row that normalizes to the expected headers, a clean label that
    some cell holds is held by one cell only. *)
Lemma positions_single (hr : list cell) (l : pystr) :
  normalize_row hr = IN_HEADERS_EXPECT -> clean l ->
  positions 0 l hr <> [] ->
  positions 0 l hr = [colpos hr l]
  /\ colpos hr l < length hr /\ nth (colpos hr l) hr NaN = Str l.
Proof.
  intros Hn Hc Hne.
  pose proof (positions_count hr Hc 0) as Hle. rewrite Hn in Hle.
  pose proof (nodup_count l expected_nodup) as H1.
  unfold colpos.
  destruct (positions 0 l hr) as [|p [|p' t]] eqn:E; simpl in *;
    [congruence | | lia].
  split; [reflexivity|].
  assert (Hin : In p (positions 0 l hr)) by (rewrite E; left; reflexivity).
  apply positions_nth in Hin as [_ Hp]. rewrite Nat.sub_0_r in Hp.
  split.
  - apply nth_error_Some. congruence.
  - apply nth_error_nth. exact Hp.
Qed.

(* ================================================================= *)
(** ** [list.index] *)

Lemma list_index_from_ok (x : pystr) (row : list cell) :
  forall k q,
    list_index_from k x row = Ok q ->
    exists pre post, row = pre ++ Str x :: post /\ q = k + length pre.
Proof.
  induction row as [|c row IH]; intros k q; simpl; [discriminate|].
  destruct (cell_eq_str c x) eqn:E.
  - intros H; injection H as <-. apply cell_eq_str_true in E; subst c.
    exists [], row. split; [reflexivity | simpl; lia].
  - intros H. apply IH in H as (pre & post & -> & ->).
    exists (c :: pre), post. split; [reflexivity | simpl; lia].
Qed.

Lemma list_index_from_raise (x : pystr) (row : list cell) :
  forall k e,
    list_index_from k x row = Raise e ->
    e = ValueError_index x /\ ~ In (Str x) row.
Proof.
  induction row as [|c row IH]; intros k e; simpl.
  - intros H; injection H as <-. auto.
  - destruct (cell_eq_str c x) eqn:E; [discriminate|].
    intros H. apply IH in H as [-> Hn]. split; [reflexivity|].
    intros [->|Hin]; [|auto]. simpl in E. rewrite pystr_eqb_refl in E.
    discriminate.
Qed.

Lemma list_index_from_positions (x : pystr) (row : list cell) :
  forall k, list_index_from k x row
            = match positions k x row with
              | [] => Raise (ValueError_index x)
              | p :: _ => Ok p
              end.
Proof.
  induction row as [|c row IH]; intros k; simpl; [reflexivity|].
  destruct (cell_eq_str c x); [reflexivity | apply IH].
Qed.

Lemma app_split_unique {A} (x : A) (a b a' b' : list A) :
  a ++ x :: b = a' ++ x :: b' -> ~ In x a' -> ~ In x b' -> b = b'.
Proof.
  revert a'; induction a as [|z a IH]; intros [|z' a'] E Ha Hb; simpl in E.
  - congruence.
  - exfalso; apply Ha; left. congruence.
  - exfalso; apply Hb. assert (E2 : a ++ x :: b = b') by congruence.
    rewrite <- E2. apply in_or_app. right; left; reflexivity.
  - apply (IH a'); [congruence | | exact Hb].
    intros H; apply Ha; right; exact H.
Qed.

(** The cells right of the first cell that holds 数量及单位 normalize to the
    eight headers that follow it. *)
Lemma right_of_qty (hr : list cell) (q : nat) :
  normalize_row hr = IN_HEADERS_EXPECT ->
  list_index h_qty hr = Ok q ->
  normalize_row (skipn (q + 1) hr) = skipn 5 IN_HEADERS_EXPECT
  /\ q + 1 + 8 <= length hr.
Proof.
  intros Hn Hq. apply list_index_from_ok in Hq as (pre & post & -> & ->).
  simpl. rewrite normalize_row_app in Hn.
  change (normalize_row (Str h_qty :: post))
    with (h_qty :: normalize_row post) in Hn.
  assert (E : normalize_row post = skipn 5 IN_HEADERS_EXPECT).
  { apply (@app_split_unique _ h_qty (normalize_row pre) _
                             (firstn 4 IN_HEADERS_EXPECT)).
    - exact Hn.
    - simpl; intuition discriminate.
    - simpl; intuition discriminate. }
  replace (length pre + 1) with (length pre + 1 + 0) by lia.
  replace (skipn (length pre + 1 + 0) (pre ++ Str h_qty :: post)) with post.
  - split; [exact E|]. pose proof (normalize_row_length post) as Hl.
    rewrite E in Hl. simpl in Hl. rewrite length_app. simpl. lia.
  - rewrite Nat.add_0_r. rewrite skipn_app.
    rewrite skipn_all2 by lia.
    replace (length pre + 1 - length pre) with 1 by lia. reflexivity.
Qed.

Lemma positions_of_cell (l : pystr) (hr : list cell) :
  forall k p, nth_error hr p = Some (Str l) -> In (k + p) (positions k l hr).
Proof.
  induction hr as [|c hr IH]; intros k p Hp; [destruct p; discriminate|].
  simpl. destruct p as [|p]; simpl in Hp.
  - injection Hp as ->. simpl. rewrite pystr_eqb_refl. left. lia.
  - specialize (IH (S k) p Hp). replace (k + S p) with (S k + p) by lia.
    destruct (cell_eq_str c l); [right|]; exact IH.
Qed.

(* ================================================================= *)
(** ** The last non-blank row and the slice below the header *)

Lemma forallb_isna (r : list cell) : forallb isna r = negb (non_blank r).
Proof.
  unfold non_blank. induction r as [|v r IH]; simpl; [reflexivity|].
  rewrite IH. destruct (isna v); reflexivity.
Qed.

Lemma dropna_index_in (rs : list (list cell)) :
  forall k i,
    In i (dropna_index k rs) <->
    exists j r, i = k + j /\ nth_error rs j = Some r /\ non_blank r = true.
Proof.
  induction rs as [|r rs IH]; intros k i; simpl.
  - split; [intros [] | intros (j & r & _ & H & _); destruct j; discriminate].
  - rewrite forallb_isna. destruct (non_blank r) eqn:E; simpl.
    + rewrite IH. split.
      * intros [<-|(j & r' & -> & Hn & Hb)].
        -- exists 0, r. split; [lia | auto].
        -- exists (S j), r'. split; [lia | auto].
      * intros (j & r' & -> & Hn & Hb). destruct j as [|j].
        -- left; lia.
        -- right. exists j, r'. split; [lia | auto].
    + rewrite IH. split.
      * intros (j & r' & -> & Hn & Hb). exists (S j), r'. split; [lia | auto].
      * intros (j & r' & -> & Hn & Hb). destruct j as [|j].
        -- simpl in Hn. injection Hn as <-. congruence.
        -- exists j, r'. split; [lia | auto].
Qed.

Lemma fold_max_spec (t : list nat) :
  forall x, let m := fold_left Nat.max t x in
            In m (x :: t) /\ forall y, In y (x :: t) -> y <= m.
Proof.
  induction t as [|a t IH]; intros x; simpl.
  - split; [left; reflexivity | intros y [<-|[]]; lia].
  - destruct (IH (Nat.max x a)) as [Hin Hmax]. split.
    + destruct Hin as [Hin|Hin]; [|right; right; exact Hin].
      destruct (Nat.max_spec x a) as [[_ E]|[_ E]]; rewrite E in *; auto.
    + intros y [<-|[<-|Hy]].
      * specialize (Hmax (Nat.max x a) (or_introl eq_refl)). lia.
      * specialize (Hmax (Nat.max x a) (or_introl eq_refl)). lia.
      * apply Hmax. right; exact Hy.
Qed.

Lemma index_max_ok (rs : list (list cell)) (z : Z) :
  index_max (dropna_index 0 rs) = Ok z ->
  exists last, z = Z.of_nat last /\ last_non_blank rs last.
Proof.
  unfold index_max. destruct (dropna_index 0 rs) as [|x t] eqn:E;
    [discriminate|].
  intros H; injection H as <-. exists (fold_left Nat.max t x).
  split; [reflexivity|].
  destruct (fold_max_spec t x) as [Hin Hmax]. rewrite <- E in Hin, Hmax.
  apply dropna_index_in in Hin as (j & r & Hj & Hn & Hb). simpl in Hj.
  split.
  - exists r. rewrite Hj. auto.
  - intros j' r' Hlt Hn'. destruct (non_blank r') eqn:Hb'; [|reflexivity].
    exfalso. assert (Hin' : In j' (dropna_index 0 rs)).
    { apply dropna_index_in. exists j', r'. auto. }
    apply Hmax in Hin'. lia.
Qed.

Lemma index_max_some (rs : list (list cell)) (h : nat) (r : list cell) :
  nth_error rs h = Some r -> non_blank r = true ->
  exists last, index_max (dropna_index 0 rs) = Ok (Z.of_nat last)
               /\ last_non_blank rs last /\ h <= last < length rs.
Proof.
  intros Hn Hb.
  assert (Hin : In h (dropna_index 0 rs)).
  { apply dropna_index_in. exists h, r. auto. }
  destruct (index_max (dropna_index 0 rs)) as [z|e] eqn:E.
  - destruct (index_max_ok _ E) as (last & -> & Hl). exists last.
    split; [reflexivity|]. split; [exact Hl|].
    destruct Hl as [(r' & Hr' & Hb') Hmax]. split.
    + destruct (le_lt_dec h last) as [|Hlt]; [assumption|].
      rewrite (Hmax h r Hlt Hn) in Hb. discriminate.
    + apply nth_error_Some. congruence.
  - unfold index_max in E. destruct (dropna_index 0 rs); [destruct Hin|].
    discriminate.
Qed.

Lemma last_non_blank_unique (rs : list (list cell)) (a b : nat) :
  last_non_blank rs a -> last_non_blank rs b -> a = b.
Proof.
  intros [(ra & Ha & Hba) Hma] [(rb & Hb & Hbb) Hmb].
  destruct (lt_eq_lt_dec a b) as [[Hlt|]|Hlt]; [|assumption|].
  - rewrite (Hma b rb Hlt Hb) in Hbb. discriminate.
  - rewrite (Hmb a ra Hlt Ha) in Hba. discriminate.
Qed.

Lemma firstn_skipn_seq {A} (d : A) (l : list A) :
  forall n a, a + n <= length l ->
              firstn n (skipn a l) = map (fun i => nth i l d) (seq a n).
Proof.
  induction n as [|n IH]; intros a Hle; [reflexivity|].
  simpl seq. simpl map. rewrite <- IH by lia.
  assert (Ha : a < length l) by lia.
  clear IH Hle. revert a Ha. induction l as [|x l IHl]; intros a Ha;
    simpl in Ha; [lia|].
  destruct a as [|a]; [reflexivity|].
  simpl. apply IHl. lia.
Qed.

Lemma slice_below_header (rs : list (list cell)) (h last : nat) :
  h <= last < length rs ->
  py_slice rs (Z.of_nat h + 1) (Z.of_nat last - 1 + 1)
  = spec_data_block rs h last.
Proof.
  intros Hl. unfold py_slice, slice_bound, spec_data_block.
  destruct (Z.ltb_spec (Z.of_nat h + 1) 0); [lia|].
  destruct (Z.ltb_spec (Z.of_nat last - 1 + 1) 0); [lia|].
  replace (Z.to_nat (Z.min (Z.of_nat h + 1) (Z.of_nat (length rs))))
    with (h + 1) by lia.
  replace (Z.to_nat (Z.min (Z.of_nat last - 1 + 1) (Z.of_nat (length rs))))
    with last by lia.
  replace (last - (h + 1)) with (last - h - 1) by lia.
  apply firstn_skipn_seq. lia.
Qed.

Lemma spec_data_block_length (rs : list (list cell)) (h last : nat) :
  length (spec_data_block rs h last) = last - h - 1.
Proof. unfold spec_data_block. rewrite length_map, length_seq. reflexivity. Qed.

Lemma spec_data_block_nth (rs : list (list cell)) (h last i : nat) :
  last < length rs -> i < last - h - 1 ->
  nth_error (spec_data_block rs h last) i = nth_error rs (h + 1 + i).
Proof.
  intros Hl Hi. unfold spec_data_block.
  rewrite nth_error_map, nth_error_nth' with (d := 0)
    by (rewrite length_seq; exact Hi).
  rewrite seq_nth by exact Hi. simpl.
  symmetry. apply nth_error_nth'. lia.
Qed.

(* ================================================================= *)
(** ** The header row of a sheet *)

Lemma blank_normalizes (r : list cell) :
  non_blank r = false -> normalize_row r = [].
Proof.
  unfold non_blank. induction r as [|v r IH]; simpl; [reflexivity|].
  intros H. apply orb_false_iff in H as [Hv Hr].
  destruct v; try discriminate. simpl. auto.
Qed.

Lemma header_found (df : DataFrame) (h : nat) :
  find_header_row df IN_HEADERS_EXPECT = Ok h ->
  exists hr, nth_error (rows df) h = Some hr
             /\ nth h (rows df) [] = hr
             /\ normalize_row hr = IN_HEADERS_EXPECT
             /\ non_blank hr = true.
Proof.
  intros H. apply find_header_from_ok in H.
  destruct H as (j & -> & (hr & Hr & Hm) & _). simpl. exists hr.
  split; [exact Hr|]. split; [apply nth_error_nth; exact Hr|].
  split; [exact Hm|].
  destruct (non_blank hr) eqn:E; [reflexivity|].
  rewrite (blank_normalizes _ E) in Hm. discriminate.
Qed.

(* ================================================================= *)
(** ** Columns by label *)

Lemma base_cols_clean : Forall clean base_cols.
Proof. unfold base_cols. repeat constructor. Qed.

Lemma h_qty_clean : clean h_qty.
Proof. split; reflexivity. Qed.

Lemma filter_nil {A} (f : A -> bool) (l : list A) :
  filter f l = [] -> forall x, In x l -> f x = false.
Proof.
  induction l as [|a l IH]; simpl; [intros _ x []|].
  destruct (f a) eqn:E; [discriminate|].
  intros H x [<-|Hx]; auto.
Qed.

Lemma filter_nil_intro {A} (f : A -> bool) (l : list A) :
  (forall x, In x l -> f x = false) -> filter f l = [].
Proof.
  induction l as [|a l IH]; simpl; [reflexivity|]. intros H.
  rewrite (H a (or_introl eq_refl)). apply IH. intros x Hx; apply H; auto.
Qed.

Lemma flat_positions (hr : list cell) (ls : list pystr) :
  (forall l, In l ls -> positions 0 l hr = [colpos hr l]) ->
  flat_map (fun l => positions 0 l hr) ls = map (colpos hr) ls.
Proof.
  induction ls as [|l ls IH]; simpl; [reflexivity|]. intros H.
  rewrite (H l (or_introl eq_refl)), IH; [reflexivity|].
  intros l' Hl'; apply H; auto.
Qed.

Lemma take_labels (hr : list cell) (ls : list pystr) :
  (forall l, In l ls -> nth (colpos hr l) hr NaN = Str l) ->
  take hr (map (colpos hr) ls) = map Str ls.
Proof.
  unfold take. induction ls as [|l ls IH]; simpl; [reflexivity|]. intros H.
  rewrite (H l (or_introl eq_refl)), IH; [reflexivity|].
  intros l' Hl'; apply H; auto.
Qed.

Lemma positions_base (j : nat) (l : pystr) :
  nth_error base_cols j = Some l -> positions 0 l (map Str base_cols) = [j].
Proof.
  do 10 (destruct j as [|j];
         [intros H; injection H as <-; vm_compute; reflexivity|]).
  destruct j; discriminate.
Qed.

Lemma nth_take (r : list cell) (ps : list nat) (j p : nat) :
  nth_error ps j = Some p -> nth j (take r ps) NaN = nth p r NaN.
Proof.
  intros H. unfold take. apply nth_error_nth.
  rewrite nth_error_map, H. reflexivity.
Qed.

Lemma getitem_base (hr : list cell) (block : list (list cell))
      (j : nat) (l : pystr) :
  nth_error base_cols j = Some l ->
  getitem (mkLF (map Str base_cols)
                (map (fun r => take r (map (colpos hr) base_cols)) block)) l
  = Ok (map (fun r => nth (colpos hr l) r NaN) block).
Proof.
  intros H. unfold getitem. cbn [columns data].
  rewrite (positions_base _ H). rewrite map_map. f_equal.
  apply map_ext. intros r. apply nth_take.
  rewrite nth_error_map, H. reflexivity.
Qed.

Lemma getitem_single (hr : list cell) (block : list (list cell)) (l : pystr) :
  positions 0 l hr = [colpos hr l] ->
  getitem (mkLF hr block) l
  = Ok (map (fun r => nth (colpos hr l) r NaN) block).
Proof. intros H. unfold getitem. cbn [columns data]. rewrite H. reflexivity. Qed.

(* ================================================================= *)
(** ** Text columns *)

Lemma to_str_map {A} (f : A -> cell) (l : list A) :
  to_str (map f l) = map (fun r => to_str1 (f r)) l.
Proof. unfold to_str. apply map_map. Qed.

Lemma sadd_map {A} (f g : A -> pystr) (l : list A) :
  sadd (map f l) (map g l) = map (fun r => f r ++ g r) l.
Proof. induction l as [|x l IH]; simpl; [|rewrite IH]; reflexivity. Qed.

Lemma sadd_scalar_map {A} (f : A -> pystr) (k : pystr) (l : list A) :
  sadd_scalar (map f l) k = map (fun r => f r ++ k) l.
Proof. unfold sadd_scalar. apply map_map. Qed.

Lemma clean_money_map {A} (ud : N -> option N) (f : A -> cell) (l : list A) :
  clean_money_keep2 ud (map f l) = map (fun r => fmt ud (money_text (f r))) l.
Proof.
  unfold clean_money_keep2, money_text, to_str. rewrite !map_map. reflexivity.
Qed.

Lemma relabel_one (s : pystr) :
  match find (fun kv => pystr_eqb s (fst kv)) [(USD, meiyuan)] with
  | Some kv => snd kv
  | None => s
  end = spec_relabel s.
Proof. unfold spec_relabel. simpl. destruct (pystr_eqb s USD); reflexivity. Qed.

Lemma relabel_map {A} (f : A -> pystr) (l : list A) :
  relabel_currency (map f l) = map (fun r => spec_relabel (f r)) l.
Proof.
  unfold relabel_currency, series_replace. rewrite map_map.
  apply map_ext. intros r. apply relabel_one.
Qed.

(* ================================================================= *)
(** ** What [extract] computes *)

Lemma list_index_colpos (hr : list cell) (q : nat) :
  list_index h_qty hr = Ok q ->
  q = colpos hr h_qty /\ positions 0 h_qty hr <> [].
Proof.
  unfold list_index, colpos. rewrite list_index_from_positions.
  destruct (positions 0 h_qty hr); [discriminate|].
  intros H; injection H as <-. split; [reflexivity | discriminate].
Qed.

(** In a row that matches the expected headers, [list.index] finds the one
    cell that holds 数量及单位. *)
Lemma qty_column_named (hr : list cell) (q : nat) :
  normalize_row hr = IN_HEADERS_EXPECT ->
  list_index h_qty hr = Ok q ->
  nth_error hr q = Some (Str h_qty)
  /\ forall j, nth_error hr j = Some (Str h_qty) -> j = q.
Proof.
  intros Hn Hq. apply list_index_colpos in Hq as [-> Hne].
  destruct (@positions_single hr h_qty Hn h_qty_clean Hne) as (Hp & Hlt & Hc).
  split.
  - rewrite <- Hc. apply nth_error_nth'. exact Hlt.
  - intros j Hj. pose proof (@positions_of_cell h_qty hr 0 j Hj) as Hin.
    rewrite Hp in Hin. destruct Hin as [Hin|[]]. simpl in Hin. lia.
Qed.

Lemma extract_eq (ud : N -> option N) (df : DataFrame) (h : nat) :
  find_header_row df IN_HEADERS_EXPECT = Ok h ->
  exists hr last,
    nth_error (rows df) h = Some hr
    /\ normalize_row hr = IN_HEADERS_EXPECT
    /\ last_non_blank (rows df) last
    /\ h <= last < length (rows df)
    /\ extract ud df =
       let block := spec_data_block (rows df) h last in
       match list_index h_qty hr with
       | Raise e => Raise e
       | Ok q =>
         match filter (absent (mkLF hr block)) base_cols with
         | [] =>
           if q <? ncols df then
             if q + 1 <? ncols df
             then Ok (extracted_spec ud hr h last q block)
             else Raise (IndexError_iloc (q + 1))
           else Raise (IndexError_iloc q)
         | missing => Raise (KeyError_columns missing)
         end
       end.
Proof.
  intros Hh. destruct (@header_found df h Hh) as (hr & Hr & Hnth & Hn & Hb).
  destruct (@index_max_some (rows df) h hr Hr Hb) as (last & Hmax & Hlast & Hrange).
  exists hr, last. repeat (split; [assumption|]).
  unfold extract. rewrite Hh. cbn [bind]. rewrite Hmax. cbn [bind].
  rewrite Hnth. rewrite (@slice_below_header (rows df) h last Hrange).
  set (block := spec_data_block (rows df) h last).
  cbv zeta.
  destruct (list_index h_qty hr) as [q|e] eqn:Hq; cbn [bind]; [|reflexivity].
  apply list_index_colpos in Hq as [Hq Hqp].
  unfold getitem_list.
  destruct (filter (absent (mkLF hr block)) base_cols) as [|m ms] eqn:F;
    [|reflexivity].
  assert (Hs : forall l, In l base_cols ->
                         positions 0 l hr = [colpos hr l]
                         /\ nth (colpos hr l) hr NaN = Str l).
  { intros l Hl.
    assert (Hc : clean l)
      by (apply (proj1 (Forall_forall _ _) base_cols_clean); exact Hl).
    pose proof (@filter_nil _ _ _ F l Hl) as Ha. unfold absent in Ha.
    cbn [columns] in Ha.
    destruct (@positions_single hr l Hn Hc) as (H1 & _ & H3);
      [destruct (positions 0 l hr); [discriminate Ha | discriminate]|].
    auto. }
  cbn [columns data].
  rewrite (@flat_positions hr base_cols (fun l Hl => proj1 (Hs l Hl))).
  rewrite (@take_labels hr base_cols (fun l Hl => proj2 (Hs l Hl))).
  cbn [bind].
  rewrite (@getitem_base hr block 2 h_name eq_refl). cbn [bind].
  rewrite (@getitem_single hr block h_spec
             (proj1 (Hs h_spec ltac:(simpl; tauto)))). cbn [bind].
  unfold iloc_col. rewrite (@slice_below_header (rows df) h last Hrange). fold block.
  destruct (q <? ncols df); cbn [bind]; [|reflexivity].
  destruct (q + 1 <? ncols df); cbn [bind]; [|reflexivity].
  rewrite (@getitem_base hr block 7 h_unit_price eq_refl). cbn [bind].
  rewrite (@getitem_base hr block 8 h_total_price eq_refl). cbn [bind].
  rewrite (@getitem_base hr block 9 h_currency eq_refl). cbn [bind].
  rewrite !clean_money_map, !to_str_map, relabel_map, sadd_scalar_map,
    !sadd_map.
  unfold extracted_spec. f_equal. f_equal.
  - apply map_ext. intros r. unfold spec_name_model, cell_text.
    rewrite <- app_assoc. reflexivity.
  - apply map_ext. intros r. unfold spec_qty_unit. rewrite Hq. reflexivity.
Qed.

(* ================================================================= *)
(** ** What the two scripts compute *)

Lemma build_out_spec (ud : N -> option N) (hr : list cell) (h last q : nat)
      (block : list (list cell)) (pb : StrSeries) :
  build_out (extracted_spec ud hr h last q block) pb
  = Ok [(h_item, map (cell_text hr h_item) block);
        (o_code, map (cell_text hr h_code) block);
        (o_name_model, map (spec_name_model hr) block);
        (h_qty, map (spec_qty_unit hr) block);
        (o_price, pb);
        (o_origin, map (cell_text hr h_origin) block);
        (o_dest, map (cell_text hr h_dest) block);
        (h_source, map (cell_text hr h_source) block);
        (o_exempt, repeat zhaozhang (length block))].
Proof.
  unfold build_out, extracted_spec. cbn [base_df name_model qty_unit].
  rewrite (@getitem_base hr block 0 h_item eq_refl). cbn [bind].
  rewrite (@getitem_base hr block 1 h_code eq_refl). cbn [bind].
  rewrite (@getitem_base hr block 6 h_origin eq_refl). cbn [bind].
  rewrite (@getitem_base hr block 5 h_dest eq_refl). cbn [bind].
  rewrite (@getitem_base hr block 4 h_source eq_refl). cbn [bind].
  rewrite !to_str_map.
  unfold frame_of_dict. cbn [dict_index_len map fst snd].
  rewrite length_map. reflexivity.
Qed.

Lemma price_block_space (ud : N -> option N) (hr : list cell)
      (h last q : nat) (block : list (list cell)) :
  ExcelTransform.price_block (extracted_spec ud hr h last q block)
  = map (spec_price ud space hr) block.
Proof.
  unfold ExcelTransform.price_block, extracted_spec.
  cbn [unit_price total_price currency].
  rewrite sadd_scalar_map, sadd_map, sadd_scalar_map, sadd_map.
  apply map_ext. intros r. unfold spec_price. rewrite <- !app_assoc.
  reflexivity.
Qed.

Lemma price_block_slash (ud : N -> option N) (hr : list cell)
      (h last q : nat) (block : list (list cell)) :
  ExcleTransform.price_block (extracted_spec ud hr h last q block)
  = map (spec_price ud slash hr) block.
Proof.
  unfold ExcleTransform.price_block, extracted_spec.
  cbn [unit_price total_price currency].
  rewrite sadd_scalar_map, sadd_map, sadd_scalar_map, sadd_map.
  apply map_ext. intros r. unfold spec_price. rewrite <- !app_assoc.
  reflexivity.
Qed.

Lemma transform_gen (ud : N -> option N) (sep : pystr)
      (pbf : Extracted -> StrSeries) :
  (forall hr h last q block,
      pbf (extracted_spec ud hr h last q block)
      = map (spec_price ud sep hr) block) ->
  forall df h,
    find_header_row df IN_HEADERS_EXPECT = Ok h ->
    exists hr last,
      nth_error (rows df) h = Some hr
      /\ normalize_row hr = IN_HEADERS_EXPECT
      /\ last_non_blank (rows df) last
      /\ h <= last < length (rows df)
      /\ (x <- extract ud df ;; build_out x (pbf x))
         = outcome ud sep df hr h last.
Proof.
  intros Hpb df h Hh.
  destruct (@extract_eq ud df h Hh) as (hr & last & H1 & H2 & H3 & H4 & E).
  exists hr, last. repeat (split; [assumption|]).
  rewrite E. unfold outcome. cbv zeta.
  destruct (list_index h_qty hr) as [q|e]; [|reflexivity].
  destruct (filter _ base_cols); [|reflexivity].
  destruct (q <? ncols df); [|reflexivity].
  destruct (q + 1 <? ncols df); [|reflexivity].
  cbn [bind]. rewrite Hpb. apply build_out_spec.
Qed.

Lemma no_header_raises (ud : N -> option N) (pbf : Extracted -> StrSeries)
      (df : DataFrame) (e : exn) :
  find_header_row df IN_HEADERS_EXPECT = Raise e ->
  (x <- extract ud df ;; build_out x (pbf x)) = Raise e.
Proof. intros H. unfold extract. rewrite H. reflexivity. Qed.

(** The header row holds the labels as written: the look-ups succeed. *)
Lemma labels_present_lookup (hr : list cell) (block : list (list cell)) :
  labels_present hr = true ->
  (exists q, list_index h_qty hr = Ok q)
  /\ filter (absent (mkLF hr block)) base_cols = [].
Proof.
  unfold labels_present. rewrite forallb_forall. intros H.
  assert (Hin : forall l, In l (h_qty :: base_cols) -> In (Str l) hr).
  { intros l Hl. specialize (H l Hl). apply existsb_exists in H.
    destruct H as (c & Hc & Ec). apply cell_eq_str_true in Ec. subst c.
    exact Hc. }
  split.
  - destruct (list_index h_qty hr) as [q|e] eqn:E; [exists q; reflexivity|].
    apply list_index_from_raise in E as [_ E]. exfalso; apply E.
    apply Hin. left; reflexivity.
  - apply filter_nil_intro. intros l Hl. unfold absent. cbn [columns].
    pose proof (@positions_in l hr 0 (Hin l (or_intror Hl))) as Hp.
    destruct (positions 0 l hr); [congruence | reflexivity].
Qed.

Lemma lookup_labels_present (hr : list cell) (block : list (list cell))
      (q : nat) :
  list_index h_qty hr = Ok q ->
  filter (absent (mkLF hr block)) base_cols = [] ->
  labels_present hr = true.
Proof.
  intros Hq F. unfold labels_present. apply forallb_forall.
  assert (Hpos : forall l, positions 0 l hr <> [] ->
                           existsb (fun c => cell_eq_str c l) hr = true).
  { intros l Hp. destruct (positions 0 l hr) as [|p t] eqn:E; [congruence|].
    assert (Hin : In p (positions 0 l hr)) by (rewrite E; left; reflexivity).
    apply positions_nth in Hin as [_ Hn]. apply nth_error_In in Hn.
    apply existsb_exists. exists (Str l). split; [exact Hn|].
    apply cell_eq_str_true; reflexivity. }
  intros l [<-|Hl]; apply Hpos.
  - apply list_index_colpos in Hq. tauto.
  - pose proof (@filter_nil _ _ _ F l Hl) as Ha. unfold absent in Ha.
    cbn [columns] in Ha. destruct (positions 0 l hr); [discriminate Ha|].
    discriminate.
Qed.

(** On a rectangular sheet whose header row holds the labels as written, the
    outcome is the records of the data block. *)
Lemma outcome_ok (ud : N -> option N) (sep : pystr) (df : DataFrame)
      (hr : list cell) (h last : nat) :
  rectangular df -> nth_error (rows df) h = Some hr ->
  normalize_row hr = IN_HEADERS_EXPECT ->
  labels_present hr = true ->
  outcome ud sep df hr h last
  = Ok (spec_out ud sep hr (spec_data_block (rows df) h last)).
Proof.
  intros Hrect Hr Hn Hl. unfold outcome. cbv zeta.
  destruct (labels_present_lookup hr (spec_data_block (rows df) h last) Hl)
    as [(q & Hq) F].
  rewrite Hq, F.
  assert (Hw : length hr = ncols df).
  { apply (proj1 (Forall_forall _ _) Hrect). apply nth_error_In with h.
    exact Hr. }
  destruct (@right_of_qty hr q Hn Hq) as [_ Hlen].
  destruct (Nat.ltb_spec q (ncols df)); [|lia].
  destruct (Nat.ltb_spec (q + 1) (ncols df)); [|lia].
  reflexivity.
Qed.

(** A successful outcome is the records of the data block, and the look-ups
    that led to it succeeded. *)
Lemma outcome_inv (ud : N -> option N) (sep : pystr) (df : DataFrame)
      (hr : list cell) (h last : nat) (out : OutFrame) :
  outcome ud sep df hr h last = Ok out ->
  out = spec_out ud sep hr (spec_data_block (rows df) h last)
  /\ labels_present hr = true
  /\ exists q, list_index h_qty hr = Ok q /\ q + 1 < ncols df.
Proof.
  unfold outcome. cbv zeta.
  destruct (list_index h_qty hr) as [q|e] eqn:Hq; [|discriminate].
  destruct (filter _ base_cols) eqn:F; [|discriminate].
  destruct (q <? ncols df); [|discriminate].
  destruct (Nat.ltb_spec (q + 1) (ncols df)) as [Hlt|_]; [|discriminate].
  intros Hout; injection Hout as <-. split; [reflexivity|]. split.
  - eapply lookup_labels_present; eassumption.
  - exists q. auto.
Qed.

(* ================================================================= *)
(** ** The matcher decides the language of a pattern *)

Lemma lang_nil_nullable (r : re) (s : pystr) :
  lang r s -> s = [] -> nullable r = true.
Proof.
  induction 1 as [|p c Hc|a b s t _ IHa _ IHb|a b s _ IH|a b s _ IH
                  |a|a s t _ _ _ _]; intros E; simpl; try reflexivity.
  - discriminate.
  - apply app_eq_nil in E as [-> ->]. rewrite IHa, IHb; reflexivity.
  - rewrite IH by assumption. reflexivity.
  - rewrite IH by assumption. apply orb_true_r.
Qed.

Lemma nullable_lang (r : re) : nullable r = true -> lang r [].
Proof.
  induction r as [| |p|a IHa b IHb|a IHa b IHb|a IH]; simpl; intros H;
    try discriminate.
  - constructor.
  - apply andb_true_iff in H as [Ha Hb].
    change (@nil N) with (@nil N ++ []). constructor; auto.
  - apply orb_true_iff in H as [H|H];
      [apply lang_alt_l | apply lang_alt_r]; auto.
  - constructor.
Qed.

Lemma deriv_sound (c : N) (r : re) :
  forall s, lang (deriv c r) s -> lang r (c :: s).
Proof.
  induction r as [| |p|a IHa b IHb|a IHa b IHb|a IH]; simpl; intros s H.
  - inversion H.
  - inversion H.
  - destruct (p c) eqn:E; inversion H; subst. constructor; exact E.
  - destruct (nullable a) eqn:Na.
    + inversion H as [| |? ? ? ? ? ?|? ? ? H1|? ? ? H1| |]; subst.
      * inversion H1 as [| |? ? s1 s2 Ha Hb| | | |]; subst.
        change (c :: s1 ++ s2) with ((c :: s1) ++ s2).
        constructor; auto.
      * change (c :: s) with ([] ++ c :: s).
        constructor; [apply nullable_lang; exact Na | auto].
    + inversion H as [| |? ? s1 s2 Ha Hb| | | |]; subst.
      change (c :: s1 ++ s2) with ((c :: s1) ++ s2). constructor; auto.
  - inversion H; subst; [apply lang_alt_l | apply lang_alt_r]; auto.
  - inversion H as [| |? ? s1 s2 Ha Hb| | | |]; subst.
    change (c :: s1 ++ s2) with ((c :: s1) ++ s2). constructor; auto.
Qed.

Lemma deriv_complete (r : re) (t : pystr) :
  lang r t -> forall c s, t = c :: s -> lang (deriv c r) s.
Proof.
  induction 1 as [|p c0 Hc|a b s1 t1 Ha IHa Hb IHb|a b s1 _ IH|a b s1 _ IH
                  |a|a s1 t1 Ha IHa Hs IHs]; intros c s E; simpl.
  - discriminate.
  - injection E as -> <-. rewrite Hc. constructor.
  - destruct s1 as [|c1 s1]; simpl in E.
    + rewrite (lang_nil_nullable Ha eq_refl). apply lang_alt_r. auto.
    + injection E as -> <-.
      assert (H : lang (Cat (deriv c a) b) (s1 ++ t1))
        by (constructor; auto).
      destruct (nullable a); [apply lang_alt_l|]; exact H.
  - apply lang_alt_l; auto.
  - apply lang_alt_r; auto.
  - discriminate.
  - destruct s1 as [|c1 s1]; simpl in E.
    + exact (IHs c s E).
    + injection E as -> <-. constructor; auto.
Qed.

Lemma fullmatch_lang (s : pystr) :
  forall r, fullmatch r s = true <-> lang r s.
Proof.
  induction s as [|c s IH]; intros r; simpl.
  - split; [apply nullable_lang | intros H; exact (lang_nil_nullable H eq_refl)].
  - rewrite IH. split; [apply deriv_sound|].
    intros H. exact (deriv_complete H eq_refl).
Qed.

(* ================================================================= *)
(** ** The language of the parts of [_num_re] *)

Lemma lang_eps_iff (s : pystr) : lang Eps s <-> s = [].
Proof. split; [inversion 1; reflexivity | intros ->; constructor]. Qed.

Lemma lang_cls_iff (p : N -> bool) (s : pystr) :
  lang (Cls p) s <-> exists c, s = [c] /\ p c = true.
Proof.
  split.
  - inversion 1; subst. eauto.
  - intros (c & -> & H). constructor; exact H.
Qed.

Lemma lang_cat_iff (a b : re) (s : pystr) :
  lang (Cat a b) s <-> exists s1 s2, s = s1 ++ s2 /\ lang a s1 /\ lang b s2.
Proof.
  split.
  - inversion 1; subst. eauto.
  - intros (s1 & s2 & -> & H1 & H2). constructor; auto.
Qed.

Lemma lang_alt_iff (a b : re) (s : pystr) :
  lang (Alt a b) s <-> lang a s \/ lang b s.
Proof.
  split.
  - inversion 1; subst; auto.
  - intros [H|H]; [apply lang_alt_l | apply lang_alt_r]; exact H.
Qed.

Lemma lang_star_cls (p : N -> bool) (s : pystr) :
  lang (Star (Cls p)) s <-> forallb p s = true.
Proof.
  split.
  - intros H. remember (Star (Cls p)) as r eqn:Er.
    induction H as [| | | | | |a s1 t1 Ha _ Hs IHs]; try discriminate.
    + reflexivity.
    + injection Er as ->. apply lang_cls_iff in Ha as (c & -> & Hc).
      simpl. rewrite Hc. apply IHs. reflexivity.
  - induction s as [|c s IH]; simpl; intros H; [constructor|].
    apply andb_true_iff in H as [Hc Hs].
    change (c :: s) with ([c] ++ s). constructor; [constructor|]; auto.
Qed.

Lemma lang_plus_cls (p : N -> bool) (s : pystr) :
  lang (Plus (Cls p)) s <-> truthy s = true /\ forallb p s = true.
Proof.
  unfold Plus. rewrite lang_cat_iff. split.
  - intros (s1 & s2 & -> & H1 & H2). apply lang_cls_iff in H1 as (c & -> & Hc).
    apply lang_star_cls in H2. simpl. rewrite Hc, H2. auto.
  - intros [Ht Hf]. destruct s as [|c s]; [discriminate|]. simpl in Hf.
    apply andb_true_iff in Hf as [Hc Hs]. exists [c], s.
    split; [reflexivity|]. split; [constructor; exact Hc|].
    apply lang_star_cls; exact Hs.
Qed.

Lemma lang_opt_iff (r : re) (s : pystr) :
  lang (Opt r) s <-> lang r s \/ s = [].
Proof. unfold Opt. rewrite lang_alt_iff, lang_eps_iff. reflexivity. Qed.

Lemma span_spec (p : N -> bool) (s : pystr) :
  forall a b, span p s = (a, b) ->
    s = a ++ b /\ forallb p a = true
    /\ match b with [] => True | c :: _ => p c = false end.
Proof.
  induction s as [|c s IH]; simpl; intros a b E.
  - injection E as <- <-. auto.
  - destruct (p c) eqn:Pc.
    + destruct (span p s) as [a' b'] eqn:Es. injection E as <- <-.
      destruct (IH a' b' eq_refl) as (-> & Ha & Hb). simpl. rewrite Pc. auto.
    + injection E as <- <-. simpl. rewrite Pc. auto.
Qed.

Lemma span_app (p : N -> bool) (a b : pystr) :
  forallb p a = true ->
  match b with [] => True | c :: _ => p c = false end ->
  span p (a ++ b) = (a, b).
Proof.
  intros Ha Hb. induction a as [|c a IH]; simpl.
  - destruct b as [|c b]; [reflexivity|]. simpl. rewrite Hb. reflexivity.
  - simpl in Ha. apply andb_true_iff in Ha as [Hc Ha]. rewrite Hc, IH by exact Ha.
    reflexivity.
Qed.

(* ================================================================= *)
(** ** The numeric pattern *)

Section NumericPattern.

Variable ud : N -> option N.

Lemma isdecimal_ascii (c : N) :
  (c < 48)%N -> isdecimal ud c = false.
Proof.
  intros H. unfold isdecimal, decimal.
  destruct (N.ltb_spec c 128); [|lia].
  destruct (N.leb_spec 48 c); [lia|]. reflexivity.
Qed.

Lemma lang_body_form (s : pystr) :
  lang (Alt (Cat (Plus (digit ud)) (Opt (Cat dot (Star (digit ud)))))
            (Cat dot (Plus (digit ud)))) s
  <-> numeric_form ud s = true.
Proof.
  unfold numeric_form, digit, dot. rewrite lang_alt_iff, !lang_cat_iff. split.
  - intros [(a & b & -> & Ha & Hb)|(a & b & -> & Ha & Hb)].
    + apply lang_plus_cls in Ha as [Ht Ha]. apply lang_opt_iff in Hb.
      destruct Hb as [Hb| ->].
      * apply lang_cat_iff in Hb as (d & f & -> & Hd & Hf).
        apply lang_cls_iff in Hd as (c & -> & Hc). apply N.eqb_eq in Hc.
        subst c. apply lang_star_cls in Hf.
        rewrite (span_app _ a ([46%N] ++ f) Ha)
          by (apply isdecimal_ascii; reflexivity).
        simpl. rewrite Hf, Ht. reflexivity.
      * rewrite (span_app _ a [] Ha I). exact Ht.
    + apply lang_cls_iff in Ha as (c & -> & Hc). apply N.eqb_eq in Hc.
      subst c. apply lang_plus_cls in Hb as [Ht Hb].
      change (span (isdecimal ud) ([46%N] ++ b))
        with (if isdecimal ud 46 then
                let (a, b0) := span (isdecimal ud) b in (46%N :: a, b0)
              else ([], 46%N :: b)).
      rewrite (isdecimal_ascii (c := 46)) by reflexivity.
      rewrite N.eqb_refl, Hb, Ht. reflexivity.
  - destruct (span (isdecimal ud) s) as [ip r] eqn:E.
    destruct (span_spec _ _ E) as (-> & Hip & Hr).
    destruct r as [|c fp].
    + intros Ht. left. exists ip, []. split; [reflexivity|].
      split; [apply lang_plus_cls; auto | apply lang_opt_iff; auto].
    + intros H. apply andb_true_iff in H as [H Ht].
      apply andb_true_iff in H as [Hc Hfp]. apply N.eqb_eq in Hc. subst c.
      destruct (truthy ip) eqn:Tip.
      * left. exists ip, (46%N :: fp). split; [reflexivity|].
        split; [apply lang_plus_cls; auto|]. apply lang_opt_iff. left.
        apply lang_cat_iff. exists [46%N], fp. split; [reflexivity|].
        split; [constructor; reflexivity | apply lang_star_cls; exact Hfp].
      * right. destruct ip; [|discriminate]. exists [46%N], fp.
        split; [reflexivity|]. split; [constructor; reflexivity|].
        apply lang_plus_cls. auto.
Qed.

Lemma numeric_form_head (c : N) (t : pystr) :
  (c < 46)%N -> numeric_form ud (c :: t) = false.
Proof.
  intros H. unfold numeric_form.
  change (span (isdecimal ud) (c :: t))
    with (if isdecimal ud c then
            let (a, b0) := span (isdecimal ud) t in (c :: a, b0)
          else ([], c :: t)).
  rewrite isdecimal_ascii by lia.
  replace (c =? 46)%N with false by (symmetry; apply N.eqb_neq; lia).
  reflexivity.
Qed.

Lemma lang_num_re (s : pystr) :
  lang (_num_re ud) s <-> numeric_form ud (snd (split_sign s)) = true.
Proof.
  unfold _num_re. rewrite lang_cat_iff. split.
  - intros (sg & body & -> & Hsg & Hb). apply lang_body_form in Hb.
    apply lang_opt_iff in Hsg as [Hsg| ->].
    + apply lang_cls_iff in Hsg as (c & -> & Hc). simpl.
      apply orb_true_iff in Hc as [Hc|Hc]; apply N.eqb_eq in Hc; subst c;
        exact Hb.
    + simpl. destruct body as [|c t]; [exact Hb|]. simpl.
      destruct (c =? 43)%N eqn:E1;
        [apply N.eqb_eq in E1; subst c;
         rewrite numeric_form_head in Hb by reflexivity; discriminate|].
      destruct (c =? 45)%N eqn:E2;
        [apply N.eqb_eq in E2; subst c;
         rewrite numeric_form_head in Hb by reflexivity; discriminate|].
      exact Hb.
  - intros H. destruct s as [|c t].
    + exists [], []. split; [reflexivity|].
      split; [apply lang_opt_iff; auto | apply lang_body_form; exact H].
    + simpl in H. destruct (c =? 43)%N eqn:E1.
      * exists [c], t. split; [reflexivity|]. split.
        -- apply lang_opt_iff. left. constructor. rewrite E1. reflexivity.
        -- apply lang_body_form; exact H.
      * destruct (c =? 45)%N eqn:E2.
        -- exists [c], t. split; [reflexivity|]. split.
           ++ apply lang_opt_iff. left. constructor. rewrite E2.
              apply orb_true_r.
           ++ apply lang_body_form; exact H.
        -- exists [], (c :: t). split; [reflexivity|].
           split; [apply lang_opt_iff; auto | apply lang_body_form; exact H].
Qed.

(** Digits and points with no point among them are digits. *)
Lemma digits_no_point (fp : pystr) :
  forallb (fun c => isdecimal ud c || (c =? 46)%N) fp
  && (length (filter (fun c => (c =? 46)%N) fp) =? 0)
  = forallb (isdecimal ud) fp.
Proof.
  induction fp as [|c fp IH]; simpl; [reflexivity|].
  destruct (c =? 46)%N eqn:E.
  - apply N.eqb_eq in E; subst c.
    rewrite (isdecimal_ascii (c := 46)) by reflexivity. simpl.
    apply andb_false_r.
  - rewrite orb_false_r. destruct (isdecimal ud c); simpl; [exact IH|].
    reflexivity.
Qed.

Lemma digits_facts (ip : pystr) :
  forallb (isdecimal ud) ip = true ->
  forallb (fun c => isdecimal ud c || (c =? 46)%N) ip = true
  /\ filter (fun c => (c =? 46)%N) ip = []
  /\ existsb (isdecimal ud) ip = truthy ip.
Proof.
  induction ip as [|c ip IH]; simpl; [auto|]. intros H.
  apply andb_true_iff in H as [Hc H]. destruct (IH H) as (H1 & H2 & H3).
  rewrite Hc, H1. simpl. split; [reflexivity|]. split; [|reflexivity].
  destruct (c =? 46)%N eqn:E; [|exact H2].
  apply N.eqb_eq in E; subst c.
  rewrite (isdecimal_ascii (c := 46)) in Hc by reflexivity. discriminate.
Qed.

(** The two readings of the pattern agree. *)
Lemma spec_numeric_form (s : pystr) :
  spec_numeric ud s = numeric_form ud (snd (split_sign s)).
Proof.
  unfold spec_numeric, numeric_form. set (body := snd (split_sign s)).
  destruct (span (isdecimal ud) body) as [ip r] eqn:E.
  destruct (span_spec _ _ E) as (-> & Hip & Hr).
  destruct (digits_facts _ Hip) as (H1 & H2 & H3).
  rewrite forallb_app, filter_app, existsb_app, H1, H2, H3. simpl.
  destruct r as [|c fp]; simpl.
  - apply orb_false_r.
  - rewrite Hr. simpl. destruct (c =? 46)%N eqn:Ec; [|reflexivity].
    simpl.
    replace (length (filter (fun c0 : N => (c0 =? 46)%N) fp) <=? 0)
      with (length (filter (fun c0 : N => (c0 =? 46)%N) fp) =? 0)
      by (destruct (length (filter (fun c0 : N => (c0 =? 46)%N) fp));
          reflexivity).
    rewrite <- digits_no_point.
    destruct (forallb (fun c0 : N => isdecimal ud c0 || (c0 =? 46)%N) fp)
      eqn:F1; [|reflexivity].
    destruct (length (filter (fun c0 : N => (c0 =? 46)%N) fp) =? 0) eqn:F2;
      [|reflexivity].
    simpl.
    assert (Hfp : forallb (isdecimal ud) fp = true)
      by (rewrite <- digits_no_point, F1, F2; reflexivity).
    destruct (digits_facts _ Hfp) as (_ & _ & ->). reflexivity.
Qed.

Lemma fullmatch_num_re (s : pystr) :
  fullmatch (_num_re ud) s = spec_numeric ud s.
Proof.
  apply eq_true_iff_eq. rewrite fullmatch_lang, lang_num_re, spec_numeric_form.
  reflexivity.
Qed.

End NumericPattern.

(* ================================================================= *)
(** ** The text that reaches [fmt] *)

Lemma money_text_chars (v : cell) :
  Forall (fun c => c <> 44%N /\ c <> 36%N /\ isspace c = false)
         (money_text v).
Proof.
  apply Forall_forall. intros c H. unfold money_text, replace_dollar in H.
  apply filter_In in H as [H _]. unfold replace_money_chars in H.
  apply filter_In in H as [_ H]. apply negb_true_iff in H.
  apply orb_false_iff in H as [H Hs]. apply orb_false_iff in H as [Hc Hd].
  apply N.eqb_neq in Hc, Hd. auto.
Qed.

Lemma filter_id {A} (f : A -> bool) (l : list A) :
  (forall x, In x l -> f x = true) -> filter f l = l.
Proof.
  induction l as [|a l IH]; simpl; [reflexivity|]. intros H.
  rewrite (H a (or_introl eq_refl)), IH; [reflexivity|].
  intros x Hx; apply H; right; exact Hx.
Qed.

(** The second [replace] finds no dollar sign left. *)
Lemma money_text_filter (v : cell) :
  money_text v = replace_money_chars (to_str1 v).
Proof.
  unfold money_text, replace_dollar. apply filter_id. intros c H.
  unfold replace_money_chars in H. apply filter_In in H as [_ H].
  apply negb_true_iff in H. apply orb_false_iff in H as [H _].
  apply orb_false_iff in H as [_ H]. rewrite H. reflexivity.
Qed.

Lemma lstrip_id (t : pystr) :
  match t with [] => True | c :: _ => isspace c = false end -> lstrip t = t.
Proof. destruct t as [|c t]; simpl; [reflexivity | intros ->; reflexivity]. Qed.

Lemma strip_id (t : pystr) :
  (forall c, In c t -> isspace c = false) -> strip t = t.
Proof.
  intros H. unfold strip, rstrip.
  rewrite (lstrip_id t) by (destruct t; [exact I | apply H; left; reflexivity]).
  rewrite lstrip_id; [apply rev_involutive|].
  destruct (rev t) as [|c r] eqn:E; [exact I|]. apply H. apply in_rev.
  rewrite E. left; reflexivity.
Qed.

Lemma anchored_match_id (r : re) (t : pystr) :
  (forall c, In c t -> isspace c = false) ->
  anchored_match r t = fullmatch r t.
Proof.
  intros H. unfold anchored_match.
  destruct (rev t) as [|c t'] eqn:E; [apply orb_false_r|].
  destruct (c =? 10)%N eqn:Ec; [|apply orb_false_r].
  apply N.eqb_eq in Ec; subst c.
  assert (Hs : isspace 10 = false)
    by (apply H; apply in_rev; rewrite E; left; reflexivity).
  discriminate Hs.
Qed.

(* ================================================================= *)
(** ** [float] accepts what the pattern accepts *)

Lemma parse_decimal_form (ud : N -> option N) (t : pystr) :
  numeric_form ud (snd (split_sign t)) = true ->
  exists n k, parse_decimal ud t = Some (fst (split_sign t), n, k).
Proof.
  unfold parse_decimal, numeric_form.
  destruct (split_sign t) as [neg body]. simpl.
  destruct (span (isdecimal ud) body) as [ip r].
  destruct r as [|c fp]; intros H; rewrite H; eauto.
Qed.

Lemma parse_decimal_none (ud : N -> option N) (t : pystr) :
  numeric_form ud (snd (split_sign t)) = false -> parse_decimal ud t = None.
Proof.
  unfold parse_decimal, numeric_form.
  destruct (split_sign t) as [neg body]. simpl.
  destruct (span (isdecimal ud) body) as [ip r].
  destruct r as [|c fp]; intros H; rewrite H; reflexivity.
Qed.

(* ================================================================= *)
(** ** The shape of [f"{v:.2f}"] *)

Lemma uint_str_digits (d : Decimal.uint) :
  forallb ascii_digit (uint_str d) = true.
Proof. induction d; simpl; auto. Qed.

Lemma N_str_digits (n : N) :
  forallb ascii_digit (N_str n) = true /\ truthy (N_str n) = true.
Proof.
  split; [apply uint_str_digits|]. unfold N_str. destruct n as [|p]; simpl.
  - reflexivity.
  - pose proof (Unsigned.to_uint_nonnil p) as H.
    destruct (Pos.to_uint p); simpl; congruence.
Qed.

Lemma two_decimal_shape (neg : bool) (q d1 d2 : N) :
  ascii_digit d1 = true -> ascii_digit d2 = true ->
  is_two_decimal (sign_str neg ++ N_str q ++ [46%N; d1; d2]) = true.
Proof.
  intros H1 H2. destruct (N_str_digits q) as [Hd Ht].
  assert (Hspan : span ascii_digit (N_str q ++ [46%N; d1; d2])
                  = (N_str q, [46%N; d1; d2]))
    by (apply span_app; [exact Hd | reflexivity]).
  unfold is_two_decimal. destruct neg; simpl sign_str; simpl app.
  - cbv iota beta. rewrite N.eqb_refl, Hspan, Ht, H1, H2. reflexivity.
  - destruct (N_str q) as [|c s] eqn:E; [discriminate|].
    simpl in Hd. apply andb_true_iff in Hd as [Hc _].
    assert (Hne : (c =? 45)%N = false)
      by (apply N.eqb_neq; intros ->; discriminate).
    change ((c :: s) ++ [46%N; d1; d2]) with (c :: (s ++ [46%N; d1; d2])).
    cbv iota beta. rewrite Hne.
    change (c :: s ++ [46%N; d1; d2]) with ((c :: s) ++ [46%N; d1; d2]).
    rewrite Hspan. simpl. rewrite H1, H2. reflexivity.
Qed.

Lemma ascii_digit_offset (x : N) : (x < 10)%N -> ascii_digit (48 + x) = true.
Proof.
  intros H. unfold ascii_digit. apply andb_true_iff.
  split; apply N.leb_le; lia.
Qed.

Lemma format_2f_finite (neg : bool) (m : N) (e : Z) :
  is_two_decimal (format_2f (Finite neg m e)) = true.
Proof.
  unfold format_2f. destruct (scale (m * 100) 1 (- e)) as [a b].
  apply two_decimal_shape; apply ascii_digit_offset.
  - apply N.Div0.div_lt_upper_bound. apply N.mod_upper_bound. lia.
  - apply N.mod_upper_bound. lia.
Qed.

Lemma format_2f_inf (neg : bool) :
  format_2f (Inf neg) = sign_str neg ++ u "inf"
  /\ is_two_decimal (format_2f (Inf neg)) = false.
Proof. destruct neg; split; reflexivity. Qed.

(* ================================================================= *)
(** ** Where binary64 overflows *)

Lemma round_half_even_bounds (a b : N) :
  (0 < b)%N ->
  (2 * (round_half_even a b * b) <= 2 * a + b)%N
  /\ (2 * a <= 2 * (round_half_even a b * b) + b)%N.
Proof.
  intros Hb. unfold round_half_even.
  pose proof (N.div_mod a b ltac:(lia)) as Hdm.
  pose proof (N.mod_upper_bound a b ltac:(lia)) as Hr.
  set (q := (a / b)%N) in *. set (r := (a mod b)%N) in *.
  destruct (N.compare_spec (2 * r) b) as [E|E|E];
    [destruct (N.even q)| |]; nia.
Qed.

(** [floor_log2] against a power of two. *)
Lemma floor_log2_lt (n d t : N) :
  (0 < n)%N -> (0 < d)%N ->
  (floor_log2 n d < Z.of_N t)%Z <-> (n < d * 2 ^ t)%N.
Proof.
  intros Hn Hd.
  destruct (N.log2_spec n Hn) as [Hn1 Hn2].
  destruct (N.log2_spec d Hd) as [Hd1 Hd2].
  set (ln := N.log2 n) in *. set (ld := N.log2 d) in *.
  rewrite N.pow_succ_r' in Hn2, Hd2.
  assert (Ht : (0 < 2 ^ t)%N) by (apply N.neq_0_lt_0, N.pow_nonzero; lia).
  unfold floor_log2. fold ln ld.
  set (l := (Z.of_N ln - Z.of_N ld)%Z).
  unfold scale. destruct (Z.leb_spec 0 l) as [Hl|Hl].
  - set (c := Z.to_N l).
    assert (Hc : ln = (ld + c)%N) by (unfold c, l in *; lia).
    assert (Hlc : l = Z.of_N c) by (unfold c; lia).
    rewrite Hc, N.pow_add_r in Hn1, Hn2.
    destruct (N.leb_spec (d * 2 ^ c) n) as [Hb|Hb]; split; intros H.
    + assert (Hct : (N.succ c <= t)%N) by lia.
      apply (N.pow_le_mono_r 2) in Hct; [|lia].
      rewrite N.pow_succ_r' in Hct. nia.
    + assert (Hp : (2 ^ c < 2 ^ t)%N) by nia.
      apply N.pow_lt_mono_r_iff in Hp; lia.
    + assert (Hct : (c <= t)%N) by lia.
      apply (N.pow_le_mono_r 2) in Hct; [|lia]. nia.
    + assert (Hct : (c <= t)%N); [|lia].
      destruct (N.le_gt_cases c t) as [Hle|Hgt]; [exact Hle|exfalso].
      assert (Hs : (N.succ t <= c)%N) by lia.
      apply (N.pow_le_mono_r 2) in Hs; [|lia].
      rewrite N.pow_succ_r' in Hs. nia.
  - assert (Hlt : (N.succ ln <= ld)%N) by (unfold l in Hl; lia).
    apply (N.pow_le_mono_r 2) in Hlt; [|lia].
    rewrite N.pow_succ_r' in Hlt.
    split; intros _.
    + nia.
    + destruct (_ <=? _)%N; lia.
Qed.

(** Rounding reaches an even bound exactly from half below it on. *)
Lemma round_half_even_ge (a b M : N) :
  (0 < b)%N -> (0 < M)%N -> N.even M = true ->
  (M <= round_half_even a b)%N <-> ((2 * M - 1) * b <= 2 * a)%N.
Proof.
  intros Hb HM Hev. apply N.even_spec in Hev as [M' ->].
  unfold round_half_even.
  pose proof (N.div_mod a b ltac:(lia)) as Hdm.
  pose proof (N.mod_upper_bound a b ltac:(lia)) as Hr.
  set (q := (a / b)%N) in *. set (r := (a mod b)%N) in *.
  replace (2 * (2 * M') - 1)%N with (4 * M' - 1)%N by lia.
  destruct (N.compare_spec (2 * r) b) as [E|E|E].
  - destruct (N.even q) eqn:Eq.
    + apply N.even_spec in Eq as [q' Eq']. rewrite Eq' in *.
      split; intros H; nia.
    + split; intros H; nia.
  - split; intros H; nia.
  - split; intros H; nia.
Qed.

Lemma overflow_twice_eq :
  overflow_twice = ((2 ^ 54 - 1) * 2 ^ 971)%N
  /\ (2 ^ 1024 = 2 ^ 53 * 2 ^ 971)%N.
Proof. split; reflexivity. Qed.

(** [float] gives a finite value exactly below [2^1024 - 2^970]. *)
Lemma nearest_double_range (neg : bool) (n d : N) :
  (0 < d)%N ->
  if in_range n d then exists m e, nearest_double neg n d = Finite neg m e
  else nearest_double neg n d = Inf neg.
Proof.
  intros Hd. destruct overflow_twice_eq as [HT H1024].
  unfold in_range. rewrite HT.
  set (P := (2 ^ 971)%N) in *.
  assert (HP : (0 < P)%N) by (apply N.neq_0_lt_0, N.pow_nonzero; lia).
  assert (H54 : (2 ^ 54 = 2 * 2 ^ 53)%N) by reflexivity.
  assert (H53 : (2 ^ 53 = 2 * 2 ^ 52)%N) by reflexivity.
  assert (H52 : (0 < 2 ^ 52)%N) by reflexivity.
  unfold nearest_double. destruct (N.eqb_spec n 0) as [->|Hn0].
  { destruct (N.ltb_spec (2 * 0) (d * ((2 ^ 54 - 1) * P))); [eauto|].
    set (Q := (2 ^ 52)%N) in *. nia. }
  assert (Hn : (0 < n)%N) by lia.
  set (fl := floor_log2 n d).
  set (e := Z.max (fl - 52) (-1074)).
  unfold scale. destruct (Z.leb_spec 0 e) as [He|He]; cbn [andb].
  - set (k := Z.to_N e).
    assert (Hfl : fl = (Z.of_N k + 52)%Z) by (unfold k, e in *; lia).
    assert (Hlo : (d * 2 ^ (k + 52) <= n)%N).
    { destruct (N.le_gt_cases (d * 2 ^ (k + 52)) n) as [H|H]; [exact H|].
      apply (floor_log2_lt (k + 52) Hn Hd) in H. fold fl in H. lia. }
    assert (Hhi : (n < d * 2 ^ (k + 53))%N).
    { apply (floor_log2_lt (k + 53) Hn Hd). fold fl. lia. }
    rewrite N.pow_add_r in Hlo, Hhi.
    set (K := (2 ^ k)%N) in *.
    assert (HK : (0 < K)%N) by (apply N.neq_0_lt_0, N.pow_nonzero; lia).
    rewrite H1024.
    destruct (@round_half_even_bounds n (d * K)) as [B1 B2]; [nia|].
    set (m := round_half_even n (d * K)) in *.
    set (Q := (2 ^ 52)%N) in *. set (R := (2 ^ 53)%N) in *.
    set (S' := (2 ^ 54)%N) in *.
    assert (Hm1 : (Q <= m)%N) by nia.
    assert (Hm2 : (m <= R)%N) by nia.
    destruct (N.lt_trichotomy k 971) as [Hk|[Hk|Hk]].
    + assert (Hs : (N.succ k <= 971)%N) by lia.
      apply (N.pow_le_mono_r 2) in Hs; [|lia].
      rewrite N.pow_succ_r' in Hs. fold K P in Hs.
      destruct (N.leb_spec (R * P) (m * K)) as [Hov|Hov]; [exfalso; nia|].
      destruct (N.ltb_spec (2 * n) (d * ((S' - 1) * P))); [eauto|].
      exfalso. nia.
    + assert (EK : K = P) by (unfold K, P; rewrite Hk; reflexivity).
      assert (Hge : (R <= m)%N <-> ((2 * R - 1) * (d * K) <= 2 * n)%N).
      { apply round_half_even_ge; [nia | reflexivity | reflexivity]. }
      rewrite EK in Hge, B1, B2, Hlo, Hhi |- *.
      destruct (N.leb_spec (R * P) (m * P)) as [Hov|Hov];
        destruct (N.ltb_spec (2 * n) (d * ((S' - 1) * P))) as [Hr|Hr];
        try reflexivity; try eauto; exfalso.
      * assert (Hm : (R <= m)%N) by nia. apply Hge in Hm. nia.
      * assert (Hm : (R <= m)%N) by (apply Hge; nia). nia.
    + assert (Hs : (N.succ 971 <= k)%N) by lia.
      apply (N.pow_le_mono_r 2) in Hs; [|lia].
      rewrite N.pow_succ_r' in Hs. fold K P in Hs.
      destruct (N.leb_spec (R * P) (m * K)) as [Hov|Hov]; [|exfalso; nia].
      destruct (N.ltb_spec (2 * n) (d * ((S' - 1) * P))); [exfalso; nia|].
      reflexivity.
  - assert (Hfl : (fl < Z.of_N 52)%Z) by (unfold e in He; lia).
    apply (floor_log2_lt 52 Hn Hd) in Hfl.
    destruct (N.ltb_spec (2 * n) (d * ((2 ^ 54 - 1) * P))); [eauto|].
    exfalso. set (Q := (2 ^ 52)%N) in *. 
    assert (1 <= P)%N by lia. nia.
Qed.

(* ================================================================= *)
(** ** Money normalization *)

Lemma money_examples (ud : N -> option N) :
  clean_money_keep2 ud
    [Str (u "1,234.5"); Str (u "$10"); Str (u ""); Str (u "N/A");
     Str (u "-0.1")]
  = [u "1234.50"; u "10.00"; u ""; u "N/A"; u "-0.10"].
Proof. vm_compute. reflexivity. Qed.

Lemma money_non_matches (ud : N -> option N) :
  anchored_match (_num_re ud) (u ".") = false
  /\ anchored_match (_num_re ud) (u "+") = false
  /\ anchored_match (_num_re ud) (u "-") = false
  /\ anchored_match (_num_re ud) (u "") = false
  /\ anchored_match (_num_re ud) (u "1e5") = false.
Proof. vm_compute. repeat split. Qed.

Lemma fmt_numeric (ud : N -> option N) (v : cell) :
  spec_numeric ud (money_text v) = true ->
  exists neg n k,
    parse_decimal ud (money_text v) = Some (neg, n, k)
    /\ py_float ud (money_text v)
       = Some (nearest_double neg n (10 ^ N.of_nat k))
    /\ fmt ud (money_text v)
       = format_2f (nearest_double neg n (10 ^ N.of_nat k)).
Proof.
  intros H.
  assert (Hs : forall c, In c (money_text v) -> isspace c = false).
  { intros c Hc.
    apply (proj1 (Forall_forall _ _) (money_text_chars v)) in Hc. tauto. }
  pose proof H as Hf. rewrite spec_numeric_form in Hf.
  destruct (parse_decimal_form _ _ Hf) as (n & k & Hp).
  exists (fst (split_sign (money_text v))), n, k.
  assert (Hpf : py_float ud (money_text v)
                = Some (nearest_double (fst (split_sign (money_text v))) n
                                       (10 ^ N.of_nat k))).
  { unfold py_float. rewrite (strip_id _ Hs), Hp. reflexivity. }
  split; [exact Hp|]. split; [exact Hpf|].
  unfold fmt. rewrite (anchored_match_id _ _ Hs), fullmatch_num_re, H, Hpf.
  reflexivity.
Qed.

Lemma fmt_passthrough (ud : N -> option N) (v : cell) :
  spec_numeric ud (money_text v) = false ->
  fmt ud (money_text v) = money_text v.
Proof.
  intros H.
  assert (Hs : forall c, In c (money_text v) -> isspace c = false).
  { intros c Hc.
    apply (proj1 (Forall_forall _ _) (money_text_chars v)) in Hc. tauto. }
  unfold fmt. rewrite (anchored_match_id _ _ Hs), fullmatch_num_re, H.
  reflexivity.
Qed.

Lemma anchored_numeric (ud : N -> option N) (v : cell) :
  anchored_match (_num_re ud) (money_text v)
  = spec_numeric ud (money_text v).
Proof.
  rewrite anchored_match_id; [apply fullmatch_num_re|].
  intros c Hc.
  apply (proj1 (Forall_forall _ _) (money_text_chars v)) in Hc. tauto.
Qed.

Lemma pow10_pos (k : nat) : (0 < 10 ^ N.of_nat k)%N.
Proof. apply N.neq_0_lt_0, N.pow_nonzero. discriminate. Qed.

(** X18.  Money normalization, as the code has it.  It removes commas,
    dollar signs and white space from the normalized text.  What is left
    matches [_num_re] exactly when, after an optional sign, it holds only
    digits and decimal points, at most one point and at least one digit.  A
    matching text is parsed as a binary64 float and printed with two
    decimals: the result is a fixed two-decimal-place text whenever the
    value is in the range of binary64, that is below [2^1024 - 2^970].  A
    text that does not match passes through unchanged.  The five sample
    values map as stated, and a lone point or sign does not match. *)
Theorem money_normalization (ud : N -> option N) (v : cell) :
  money_text v
  = filter (fun c => negb ((c =? 44) || (c =? 36) || isspace c)%N)
           (to_str1 v)
  /\ anchored_match (_num_re ud) (money_text v)
     = spec_numeric ud (money_text v)
  /\ (spec_numeric ud (money_text v) = true ->
      exists neg n k,
        parse_decimal ud (money_text v) = Some (neg, n, k)
        /\ fmt ud (money_text v)
           = format_2f (nearest_double neg n (10 ^ N.of_nat k))
        /\ (in_range n (10 ^ N.of_nat k) = true ->
            is_two_decimal (fmt ud (money_text v)) = true))
  /\ (spec_numeric ud (money_text v) = false ->
      fmt ud (money_text v) = money_text v)
  /\ (forall s, clean_money_keep2 ud s
                = map (fun x => fmt ud (money_text x)) s)
  /\ clean_money_keep2 ud
       [Str (u "1,234.5"); Str (u "$10"); Str (u ""); Str (u "N/A");
        Str (u "-0.1")]
     = [u "1234.50"; u "10.00"; u ""; u "N/A"; u "-0.10"]
  /\ anchored_match (_num_re ud) (u ".") = false
  /\ anchored_match (_num_re ud) (u "+") = false
  /\ anchored_match (_num_re ud) (u "-") = false.
Proof.
  split; [apply money_text_filter|].
  split; [apply (anchored_numeric ud v)|].
  split.
  { intros H. destruct (fmt_numeric ud v H) as (neg & n & k & Hp & _ & Hf).
    exists neg, n, k. split; [exact Hp|]. split; [exact Hf|]. rewrite Hf.
    intros Hr.
    pose proof (@nearest_double_range neg n (10 ^ N.of_nat k)
                                      (pow10_pos k)) as Hnd.
    rewrite Hr in Hnd. destruct Hnd as (m & e & ->).
    apply format_2f_finite. }
  split; [apply fmt_passthrough|].
  split.
  { intros s. rewrite <- (map_id s) at 1. apply clean_money_map. }
  split; [apply money_examples|].
  destruct (money_non_matches ud) as (H1 & H2 & H3 & _). auto.
Qed.

(** C3.  Not every text that matches the numeric pattern becomes a
    two-decimal-place text: when the value read is [2^1024 - 2^970] or more,
    [float] gives an infinity without raising, so the [except] branch is not
    taken and the cell becomes "inf" or "-inf". *)
Theorem money_overflow_gives_inf (ud : N -> option N) (v : cell)
        (neg : bool) (n : N) (k : nat) :
  parse_decimal ud (money_text v) = Some (neg, n, k) ->
  in_range n (10 ^ N.of_nat k) = false ->
  anchored_match (_num_re ud) (money_text v) = true
  /\ clean_money_keep2 ud [v] = [sign_str neg ++ u "inf"]
  /\ is_two_decimal (fmt ud (money_text v)) = false.
Proof.
  intros Hp Hr.
  assert (Hn : spec_numeric ud (money_text v) = true).
  { rewrite spec_numeric_form.
    destruct (numeric_form ud (snd (split_sign (money_text v)))) eqn:E;
      [reflexivity|].
    rewrite (parse_decimal_none _ _ E) in Hp. discriminate. }
  split; [rewrite (anchored_numeric ud v); exact Hn|].
  destruct (fmt_numeric ud v Hn) as (neg' & n' & k' & Hp' & _ & Hf).
  rewrite Hp in Hp'. injection Hp' as <- <- <-.
  pose proof (@nearest_double_range neg n (10 ^ N.of_nat k) (pow10_pos k))
    as Hnd.
  rewrite Hr in Hnd. rewrite Hnd in Hf.
  destruct (format_2f_inf neg) as [Hi Hd].
  change (clean_money_keep2 ud [v]) with [fmt ud (money_text v)].
  rewrite Hf, Hi. split; [reflexivity|]. rewrite <- Hi. exact Hd.
Qed.

(** C3 at a cell of 309 nines: it matches the pattern and becomes "inf". *)
Lemma money_overflow_not_two_decimal :
  parse_decimal ascii_only (money_text nines309)
  = Some (false, (10 ^ 309 - 1)%N, 0)
  /\ in_range (10 ^ 309 - 1) (10 ^ N.of_nat 0) = false
  /\ anchored_match (_num_re ascii_only) (money_text nines309) = true
  /\ clean_money_keep2 ascii_only [nines309] = [u "inf"]
  /\ is_two_decimal (fmt ascii_only (money_text nines309)) = false.
Proof.
  assert (Hp : parse_decimal ascii_only (money_text nines309)
               = Some (false, (10 ^ 309 - 1)%N, 0))
    by (vm_compute; reflexivity).
  assert (Hr : in_range (10 ^ 309 - 1) (10 ^ N.of_nat 0) = false)
    by (vm_compute; reflexivity).
  split; [exact Hp|]. split; [exact Hr|].
  exact (@money_overflow_gives_inf ascii_only nines309 false
                                   (10 ^ 309 - 1)%N 0 Hp Hr).
Defined.

(* ================================================================= *)
(** ** Both scripts on one sheet *)

Lemma both_found (W : World) (df : DataFrame) (h : nat) :
  find_header_row df IN_HEADERS_EXPECT = Ok h ->
  exists hr last,
    nth_error (rows df) h = Some hr
    /\ normalize_row hr = IN_HEADERS_EXPECT
    /\ last_non_blank (rows df) last
    /\ h <= last < length (rows df)
    /\ ExcelTransform.transform W df
       = outcome (unicode_decimal W) space df hr h last
    /\ ExcleTransform.transform W df
       = outcome (unicode_decimal W) slash df hr h last.
Proof.
  intros Hh.
  destruct (@extract_eq (unicode_decimal W) df h Hh)
    as (hr & last & H1 & H2 & H3 & H4 & E).
  exists hr, last. repeat (split; [assumption|]).
  unfold ExcelTransform.transform, ExcleTransform.transform.
  rewrite E. unfold outcome. cbv zeta.
  destruct (list_index h_qty hr) as [q|e]; [|split; reflexivity].
  destruct (filter _ base_cols); [|split; reflexivity].
  destruct (q <? ncols df); [|split; reflexivity].
  destruct (q + 1 <? ncols df); [|split; reflexivity].
  cbn [bind]. rewrite price_block_space, price_block_slash.
  split; apply build_out_spec.
Qed.

Lemma both_not_found (W : World) (df : DataFrame) (e : exn) :
  find_header_row df IN_HEADERS_EXPECT = Raise e ->
  ExcelTransform.transform W df = Raise e
  /\ ExcleTransform.transform W df = Raise e.
Proof.
  intros H. unfold ExcelTransform.transform, ExcleTransform.transform, extract.
  rewrite H. split; reflexivity.
Qed.

(** What a successful run of either script has found and produced. *)
Lemma transform_ok_inv (W : World) (df : DataFrame) (out : OutFrame) :
  ExcelTransform.transform W df = Ok out
  \/ ExcleTransform.transform W df = Ok out ->
  exists h hr last q sep,
    find_header_row df IN_HEADERS_EXPECT = Ok h
    /\ nth_error (rows df) h = Some hr
    /\ normalize_row hr = IN_HEADERS_EXPECT
    /\ last_non_blank (rows df) last
    /\ h <= last < length (rows df)
    /\ list_index h_qty hr = Ok q /\ q + 1 < ncols df
    /\ labels_present hr = true
    /\ out = spec_out (unicode_decimal W) sep hr
                      (spec_data_block (rows df) h last)
    /\ (sep = space \/ sep = slash).
Proof.
  intros Hout.
  destruct (find_header_row df IN_HEADERS_EXPECT) as [h|e] eqn:Hh.
  - destruct (@both_found W df h Hh) as (hr & last & H1 & H2 & H3 & H4 & E1 & E2).
    rewrite E1, E2 in Hout.
    assert (Hsep : exists sep, outcome (unicode_decimal W) sep df hr h last
                               = Ok out /\ (sep = space \/ sep = slash)).
    { destruct Hout as [Ho|Ho]; [exists space | exists slash]; auto. }
    destruct Hsep as (sep & Ho & Hsep).
    apply outcome_inv in Ho as (-> & Hl & q & Hq & Hlt).
    exists h, hr, last, q, sep. auto 12.
  - destruct (@both_not_found W df e Hh) as [E1 E2].
    rewrite E1, E2 in Hout. destruct Hout; discriminate.
Qed.

Lemma spec_out_len (ud : N -> option N) (sep : pystr) (hr : list cell)
      (block : list (list cell)) :
  out_len (spec_out ud sep hr block) = length block.
Proof. unfold spec_out, out_len. apply length_map. Qed.

Lemma block_row (df : DataFrame) (h last i : nat) :
  last < length (rows df) -> i < last - h - 1 ->
  exists r, nth_error (rows df) (h + 1 + i) = Some r
            /\ nth_error (spec_data_block (rows df) h last) i = Some r.
Proof.
  intros Hl Hi. destruct (nth_error (rows df) (h + 1 + i)) as [r|] eqn:E.
  - exists r. split; [reflexivity|]. rewrite spec_data_block_nth; assumption.
  - apply nth_error_None in E. lia.
Qed.

(* ================================================================= *)
(** ** The claims on the data block and the records *)

(** C2.  When the header row is found at [h], the data block is the rows
    [h + 1] through [last - 1], where [last] is the last row with a cell that
    is not missing; the output has [last - h - 1] records, none when that is
    not positive; and a rectangular sheet whose header cells hold the column
    names as written gives an output, not an error, however few rows it
    has. *)
Theorem data_block_rows (W : World) (df : DataFrame) (h : nat) :
  find_header_row df IN_HEADERS_EXPECT = Ok h ->
  exists hr last,
    nth_error (rows df) h = Some hr
    /\ last_non_blank (rows df) last
    /\ h <= last < length (rows df)
    /\ (forall x, extract (unicode_decimal W) df = Ok x ->
                  data (in_data x) = spec_data_block (rows df) h last)
    /\ length (spec_data_block (rows df) h last)
       = Z.to_nat (Z.of_nat last - Z.of_nat h - 1)
    /\ (forall i, i < last - h - 1 ->
                  nth_error (spec_data_block (rows df) h last) i
                  = nth_error (rows df) (h + 1 + i))
    /\ (forall out,
           ExcelTransform.transform W df = Ok out
           \/ ExcleTransform.transform W df = Ok out ->
           out_len out = Z.to_nat (Z.of_nat last - Z.of_nat h - 1))
    /\ (rectangular df -> labels_present hr = true ->
        exists out1 out2,
          ExcelTransform.transform W df = Ok out1
          /\ ExcleTransform.transform W df = Ok out2).
Proof.
  intros Hh.
  destruct (@extract_eq (unicode_decimal W) df h Hh)
    as (hr & last & H1 & H2 & H3 & H4 & E).
  destruct (@both_found W df h Hh)
    as (hr' & last' & H1' & _ & H3' & _ & E1 & E2).
  assert (hr' = hr) by congruence. subst hr'.
  assert (last' = last) by (eapply last_non_blank_unique; eassumption).
  subst last'.
  exists hr, last. repeat (split; [assumption|]).
  split.
  { intros x Hx. rewrite E in Hx. cbv zeta in Hx.
    destruct (list_index h_qty hr) as [q|e]; [|discriminate].
    destruct (filter _ base_cols); [|discriminate].
    destruct (q <? ncols df); [|discriminate].
    destruct (q + 1 <? ncols df); [|discriminate].
    injection Hx as <-. reflexivity. }
  split; [rewrite spec_data_block_length; lia|].
  split; [intros i Hi; apply spec_data_block_nth; [lia | exact Hi]|].
  split.
  { intros out Hout. rewrite E1, E2 in Hout.
    assert (Hlen : out_len out = length (spec_data_block (rows df) h last)).
    { destruct Hout as [Ho|Ho]; apply outcome_inv in Ho as (-> & _);
        apply spec_out_len. }
    rewrite Hlen, spec_data_block_length. lia. }
  intros Hrect Hl. rewrite E1, E2.
  rewrite !(@outcome_ok _ _ df hr h last Hrect H1 H2 Hl). eauto.
Qed.

(** C4.  The two scripts fail on the same sheets with the same exception;
    where they succeed their outputs have the same columns and the same
    number of records, agree on every column but 单价/总价/币制, and there
    differ only in what stands between unit price and total price: a blank
    in one, " / " in the other; the currency follows a blank in both. *)
Theorem price_block_variants (W : World) (df : DataFrame) :
  (forall e, ExcelTransform.transform W df = Raise e
             <-> ExcleTransform.transform W df = Raise e)
  /\ (forall out1,
         ExcelTransform.transform W df = Ok out1 ->
         exists out2 hr block,
           ExcleTransform.transform W df = Ok out2
           /\ map fst out1 = OUT_HEADERS /\ map fst out2 = OUT_HEADERS
           /\ out_len out1 = length block /\ out_len out2 = length block
           /\ (forall l, l <> o_price ->
                         out_lookup out1 l = out_lookup out2 l)
           /\ out_lookup out1 o_price
              = Some (map (fun r =>
                             spec_money (unicode_decimal W) hr h_unit_price r
                             ++ u " "
                             ++ spec_money (unicode_decimal W) hr
                                           h_total_price r
                             ++ u " " ++ spec_currency hr r) block)
           /\ out_lookup out2 o_price
              = Some (map (fun r =>
                             spec_money (unicode_decimal W) hr h_unit_price r
                             ++ u " / "
                             ++ spec_money (unicode_decimal W) hr
                                           h_total_price r
                             ++ u " " ++ spec_currency hr r) block)).
Proof.
  destruct (find_header_row df IN_HEADERS_EXPECT) as [h|e] eqn:Hh.
  - destruct (@both_found W df h Hh) as (hr & last & _ & _ & _ & _ & E1 & E2).
    rewrite E1, E2. unfold outcome. cbv zeta.
    destruct (list_index h_qty hr) as [q|e];
      [|split; [tauto | discriminate]].
    destruct (filter _ base_cols);
      [|split; [tauto | discriminate]].
    destruct (q <? ncols df); [|split; [tauto | discriminate]].
    destruct (q + 1 <? ncols df); [|split; [tauto | discriminate]].
    split; [intros e; split; discriminate|].
    intros out1 Ho. injection Ho as <-.
    exists (spec_out (unicode_decimal W) slash hr
                     (spec_data_block (rows df) h last)),
      hr, (spec_data_block (rows df) h last).
    split; [reflexivity|]. split; [reflexivity|]. split; [reflexivity|].
    split; [apply spec_out_len|]. split; [apply spec_out_len|].
    split; [|split; reflexivity].
    intros l Hl. unfold spec_out. cbn [out_lookup].
    replace (pystr_eqb o_price l) with false; [reflexivity|].
    symmetry. destruct (pystr_eqb o_price l) eqn:El; [|reflexivity].
    apply pystr_eqb_eq in El. congruence.
  - destruct (@both_not_found W df e Hh) as [E1 E2]. rewrite E1, E2.
    split; [tauto | discriminate].
Qed.


(** C6.  The currency that ends the price block of a record is the
    normalized text of its 币制 cell, but 美元 when that text is exactly
    USD; the test is on the whole text and on case. *)
Theorem currency_relabel (W : World) (df : DataFrame) (out : OutFrame) :
  ExcelTransform.transform W df = Ok out
  \/ ExcleTransform.transform W df = Ok out ->
  exists h hr last,
    find_header_row df IN_HEADERS_EXPECT = Ok h
    /\ nth_error (rows df) h = Some hr
    /\ last_non_blank (rows df) last
    /\ nth (colpos hr h_currency) hr NaN = Str h_currency
    /\ (forall x, extract (unicode_decimal W) df = Ok x ->
                  currency x
                  = map (fun r => spec_relabel (cell_text hr h_currency r))
                        (spec_data_block (rows df) h last))
    /\ (forall i, i < last - h - 1 ->
          exists r prices cur,
            nth_error (rows df) (h + 1 + i) = Some r
            /\ field out o_price i = Some (prices ++ u " " ++ cur)
            /\ (cell_text hr h_currency r = u "USD" -> cur = u "美元")
            /\ (cell_text hr h_currency r <> u "USD" ->
                cur = cell_text hr h_currency r))
    /\ relabel_currency [u "USD"; u "usd"; u "USD1"; u "US"]
       = [u "美元"; u "usd"; u "USD1"; u "US"].
Proof.
  intros Hout.
  destruct (transform_ok_inv W df Hout)
    as (h & hr & last & q & sep & Hh & Hr & Hn & Hl & Hrange & Hq & Hlt
        & Hlab & -> & Hsep).
  exists h, hr, last. repeat (split; [assumption|]).
  split.
  { destruct (@positions_single hr h_currency Hn) as (_ & _ & H3);
      [split; reflexivity | | exact H3].
    apply positions_in. unfold labels_present in Hlab.
    rewrite forallb_forall in Hlab.
    specialize (Hlab h_currency ltac:(simpl; tauto)).
    apply existsb_exists in Hlab as (c & Hc & Ec).
    apply cell_eq_str_true in Ec. subst c. exact Hc. }
  split.
  { intros x Hx.
    destruct (@extract_eq (unicode_decimal W) df h Hh)
      as (hr' & last' & H1' & _ & H3' & _ & E).
    assert (hr' = hr) by congruence. subst hr'.
    assert (last' = last) by (eapply last_non_blank_unique; eassumption).
    subst last'. rewrite E in Hx. cbv zeta in Hx.
    destruct (list_index h_qty hr); [|discriminate].
    destruct (filter _ base_cols); [|discriminate].
    destruct (_ <? ncols df); [|discriminate].
    destruct (_ <? ncols df); [|discriminate].
    injection Hx as <-. reflexivity. }
  split; [|reflexivity].
  intros i Hi. destruct (@block_row df h last i) as (r & Hr1 & Hr2);
    [lia | exact Hi |].
  exists r,
    (spec_money (unicode_decimal W) hr h_unit_price r ++ sep
     ++ spec_money (unicode_decimal W) hr h_total_price r),
    (spec_currency hr r).
  split; [exact Hr1|]. split.
  - change (field (spec_out (unicode_decimal W) sep hr
                            (spec_data_block (rows df) h last)) o_price i)
      with (nth_error (map (spec_price (unicode_decimal W) sep hr)
                           (spec_data_block (rows df) h last)) i).
    rewrite nth_error_map, Hr2. simpl option_map. unfold spec_price.
    rewrite <- !app_assoc. reflexivity.
  - unfold spec_currency, spec_relabel. split.
    + intros ->. reflexivity.
    + intros Hne. destruct (pystr_eqb _ USD) eqn:E; [|reflexivity].
      apply pystr_eqb_eq in E. contradiction.
Qed.

(** C8.  Every record of an output has 照章 in its 征免 field. *)
Theorem exempt_constant (W : World) (df : DataFrame) (out : OutFrame) :
  ExcelTransform.transform W df = Ok out
  \/ ExcleTransform.transform W df = Ok out ->
  out_lookup out (u "征免") = Some (repeat (u "照章") (out_len out))
  /\ forall i, i < out_len out -> field out (u "征免") i = Some (u "照章").
Proof.
  intros Hout.
  destruct (transform_ok_inv W df Hout)
    as (h & hr & last & q & sep & _ & _ & _ & _ & _ & _ & _ & _ & -> & _).
  rewrite spec_out_len. split; [reflexivity|].
  intros i Hi.
  change (field (spec_out (unicode_decimal W) sep hr
                          (spec_data_block (rows df) h last)) (u "征免") i)
    with (nth_error (repeat zhaozhang
                       (length (spec_data_block (rows df) h last))) i).
  apply nth_error_repeat. exact Hi.
Qed.

(** C9.  On a rectangular sheet whose header row is found, if a header cell
    holds 数量及单位 then the column to its right exists: the cells right of
    it hold the eight headers that follow, so at least eight columns lie to
    its right, and neither script raises an [IndexError]. *)
Theorem unit_col_in_range (W : World) (df : DataFrame) (h q : nat) :
  rectangular df ->
  find_header_row df IN_HEADERS_EXPECT = Ok h ->
  list_index h_qty (nth h (rows df) []) = Ok q ->
  q + 1 < ncols df
  /\ q + 1 + 8 <= ncols df
  /\ normalize_row (skipn (q + 1) (nth h (rows df) []))
     = skipn 5 IN_HEADERS_EXPECT
  /\ (forall c, ExcelTransform.transform W df <> Raise (IndexError_iloc c))
  /\ (forall c, ExcleTransform.transform W df <> Raise (IndexError_iloc c)).
Proof.
  intros Hrect Hh Hq.
  destruct (@both_found W df h Hh) as (hr & last & H1 & H2 & _ & _ & E1 & E2).
  rewrite (nth_error_nth _ _ [] H1) in *.
  destruct (@right_of_qty hr q H2 Hq) as [Hskip Hlen].
  assert (Hw : length hr = ncols df).
  { apply (proj1 (Forall_forall _ _) Hrect). apply nth_error_In with h.
    exact H1. }
  split; [lia|]. split; [lia|]. split; [exact Hskip|].
  rewrite E1, E2. unfold outcome. cbv zeta. rewrite Hq.
  destruct (filter _ base_cols); [|split; intros c; discriminate].
  destruct (Nat.ltb_spec q (ncols df)); [|lia].
  destruct (Nat.ltb_spec (q + 1) (ncols df)); [|lia].
  split; intros c; discriminate.
Qed.

(* ================================================================= *)
(** ** The scan over the files *)

Lemma excel_visit_line (W : World) (st : ScanState) (f : Path) :
  skipped f = false ->
  fst (ExcelTransform.visit W st f)
  = fst st ++ [spec_status W (ExcelTransform.transform W) f].
Proof.
  intros Hs. unfold ExcelTransform.visit, ExcelTransform.process_file,
               spec_status.
  rewrite Hs.
  destruct (in_all <- read_excel_any W f ;; ExcelTransform.transform W in_all)
    as [out|e]; [|reflexivity].
  destruct (write_error W (save_path f) out); reflexivity.
Qed.

Lemma excel_visit_fold (W : World) (entries : list Path) :
  forall st,
    fst (fold_left (ExcelTransform.visit W) entries st)
    = fst st ++ map (spec_status W (ExcelTransform.transform W))
                    (candidates entries).
Proof.
  induction entries as [|f entries IH]; intros st; simpl.
  - rewrite app_nil_r. reflexivity.
  - rewrite IH. destruct (skipped f) eqn:Hs; simpl.
    + unfold ExcelTransform.visit. rewrite Hs. reflexivity.
    + rewrite (@excel_visit_line W st f Hs), <- app_assoc. reflexivity.
Qed.

Lemma candidates_app (a b : list Path) :
  candidates (a ++ b) = candidates a ++ candidates b.
Proof. apply filter_app. Qed.

Lemma excel_scan_fold (W : World) (dirs : list (pystr * list Path)) :
  forall st,
    fst (snd (fold_left (ExcelTransform.scan_dir W) dirs st))
    = fst (snd st) ++ map (spec_status W (ExcelTransform.transform W))
                          (candidates (flat_map snd dirs)).
Proof.
  induction dirs as [|d dirs IH]; intros st; cbn [fold_left flat_map].
  - cbn [candidates filter map]. rewrite app_nil_r. reflexivity.
  - rewrite IH. unfold ExcelTransform.scan_dir. cbn [fst snd].
    rewrite excel_visit_fold, candidates_app, map_app, app_assoc.
    reflexivity.
Qed.

Lemma excle_visit_line (W : World) (st : ScanState) (f : Path) :
  skipped f = false ->
  fst (ExcleTransform.visit W st f)
  = fst st ++ [spec_status W (ExcleTransform.transform W) f].
Proof.
  intros Hs. unfold ExcleTransform.visit, spec_status. rewrite Hs.
  destruct (in_all <- read_excel_any W f ;; ExcleTransform.transform W in_all)
    as [out|e]; [|reflexivity].
  destruct (write_error W (save_path f) out); reflexivity.
Qed.

Lemma excle_visit_fold (W : World) (entries : list Path) :
  forall st,
    fst (fold_left (ExcleTransform.visit W) entries st)
    = fst st ++ map (spec_status W (ExcleTransform.transform W))
                    (candidates entries).
Proof.
  induction entries as [|f entries IH]; intros st; simpl.
  - rewrite app_nil_r. reflexivity.
  - rewrite IH. destruct (skipped f) eqn:Hs; simpl.
    + unfold ExcleTransform.visit. rewrite Hs. reflexivity.
    + rewrite (@excle_visit_line W st f Hs), <- app_assoc. reflexivity.
Qed.

Lemma no_header_status (W : World)
      (transform : DataFrame -> result OutFrame) (f : Path) (df : DataFrame)
      (e : exn) :
  read_excel_any W f = Ok df -> transform df = Raise e ->
  spec_status W transform f = failure_line (exn_str W) f e.
Proof.
  intros Hr Ht. unfold spec_status. rewrite Hr. cbn [bind]. rewrite Ht.
  reflexivity.
Qed.

(** C7.  Each file that the scan does not skip gives one status line, in
    order, whatever happened to the files before it: the results are the
    status lines of the candidates, and what is printed joins them.  A file
    whose processing raises gives the line "✗ name 失败: message" and leaves
    the written files as they were; a sheet in which no row matches the
    headers is such a file, with the [KeyError] of [find_header_row]. *)
Theorem per_file_errors_reported (W : World) :
  (forall dirs,
      fst (snd (fold_left (ExcelTransform.scan_dir W) dirs ([], ([], []))))
      = map (spec_status W (ExcelTransform.transform W))
            (candidates (flat_map snd dirs)))
  /\ (forall dirs,
         candidates (flat_map snd dirs) <> [] ->
         fst (ExcelTransform.main W dirs)
         = [join_lines (map (spec_status W (ExcelTransform.transform W))
                            (candidates (flat_map snd dirs)))])
  /\ (forall entries,
         fst (ExcleTransform.main W entries)
         = [join_lines (map (spec_status W (ExcleTransform.transform W))
                            (candidates entries))])
  /\ (forall f w e,
         fst (ExcelTransform.process_file W f w) = Raise e ->
         snd (ExcelTransform.process_file W f w) = w
         /\ ExcelTransform.visit W ([], w) f
            = (if skipped f then [] else [failure_line (exn_str W) f e], w))
  /\ (forall f e,
         failure_line (exn_str W) f e
         = u "✗ " ++ name f ++ u " 失败: " ++ exn_str W e)
  /\ (forall f df,
         read_excel_any W f = Ok df ->
         (forall r, In r (rows df) ->
                    spec_header_values r <> IN_HEADERS_EXPECT) ->
         spec_status W (ExcelTransform.transform W) f
         = failure_line (exn_str W) f (KeyError_header IN_HEADERS_EXPECT)
         /\ spec_status W (ExcleTransform.transform W) f
            = failure_line (exn_str W) f (KeyError_header IN_HEADERS_EXPECT)).
Proof.
  split; [intros dirs; apply (excel_scan_fold W dirs ([], ([], [])))|].
  split.
  { intros dirs Hne. unfold ExcelTransform.main.
    pose proof (excel_scan_fold W dirs ([], ([], []))) as H. simpl in H.
    destruct (fold_left (ExcelTransform.scan_dir W) dirs ([], ([], [])))
      as [scanned [results w]]. simpl in H. subst results.
    destruct (map _ (candidates (flat_map snd dirs))) eqn:E; [|reflexivity].
    apply map_eq_nil in E. contradiction. }
  split.
  { intros entries. unfold ExcleTransform.main.
    pose proof (excle_visit_fold W entries ([], [])) as H. simpl in H.
    destruct (fold_left (ExcleTransform.visit W) entries ([], []))
      as [results w]. simpl in H. subst results. reflexivity. }
  split.
  { intros f w e. unfold ExcelTransform.visit, ExcelTransform.process_file.
    cbn [snd fst].
    destruct (in_all <- read_excel_any W f ;; ExcelTransform.transform W in_all)
      as [out|e0].
    - destruct (write_error W (save_path f) out); cbn [fst snd];
        [|discriminate].
      intros H; injection H as ->. split; [reflexivity|].
      destruct (skipped f); reflexivity.
    - cbn [fst snd]. intros H; injection H as ->. split; [reflexivity|].
      destruct (skipped f); reflexivity. }
  split; [reflexivity|].
  intros f df Hr Hno.
  assert (Hf : find_header_row df IN_HEADERS_EXPECT
               = Raise (KeyError_header IN_HEADERS_EXPECT)).
  { apply find_header_from_raise. split; [reflexivity|].
    intros r Hin. rewrite normalize_row_spec. auto. }
  destruct (@both_not_found W df _ Hf) as [E1 E2].
  split; eapply no_header_status; eassumption.
Qed.

(* ================================================================= *)
(** ** Header cells that match only after normalization *)

Lemma padded_item_raises (W : World) :
  ExcelTransform.transform W padded_item_sheet
  = Raise (KeyError_columns [h_item])
  /\ ExcleTransform.transform W padded_item_sheet
     = Raise (KeyError_columns [h_item]).
Proof. split; vm_compute; reflexivity. Qed.

Lemma padded_qty_raises (W : World) :
  ExcelTransform.transform W padded_qty_sheet = Raise (ValueError_index h_qty)
  /\ ExcleTransform.transform W padded_qty_sheet
     = Raise (ValueError_index h_qty).
Proof. split; vm_compute; reflexivity. Qed.

(** C10.  There are sheets whose header row is found, because its cells are
    compared after normalization, and on which both scripts then raise,
    because the columns are looked up by the cells as written: with a blank
    before 项号 the selection of the base columns raises [KeyError], with a
    blank after 数量及单位 [list.index] raises [ValueError].  Such a file
    gets a failure line and nothing is written for it. *)
Theorem raw_header_lookup_raises :
  exists df_item df_qty,
    rectangular df_item /\ rectangular df_qty
    /\ find_header_row df_item IN_HEADERS_EXPECT = Ok 0
    /\ find_header_row df_qty IN_HEADERS_EXPECT = Ok 0
    /\ nth 0 (nth 0 (rows df_item) []) NaN = Str (u " 项号")
    /\ nth 4 (nth 0 (rows df_qty) []) NaN = Str (u "数量及单位 ")
    /\ forall W,
         ExcelTransform.transform W df_item = Raise (KeyError_columns [h_item])
         /\ ExcleTransform.transform W df_item
            = Raise (KeyError_columns [h_item])
         /\ ExcelTransform.transform W df_qty = Raise (ValueError_index h_qty)
         /\ ExcleTransform.transform W df_qty = Raise (ValueError_index h_qty)
         /\ forall f st,
              skipped f = false ->
              (read_excel_any W f = Ok df_item ->
               ExcelTransform.visit W st f
               = (fst st ++ [failure_line (exn_str W) f
                                          (KeyError_columns [h_item])],
                  snd st)
               /\ ExcleTransform.visit W st f
                  = (fst st ++ [failure_line (exn_str W) f
                                             (KeyError_columns [h_item])],
                     snd st))
              /\ (read_excel_any W f = Ok df_qty ->
                  ExcelTransform.visit W st f
                  = (fst st ++ [failure_line (exn_str W) f
                                             (ValueError_index h_qty)],
                     snd st)
                  /\ ExcleTransform.visit W st f
                     = (fst st ++ [failure_line (exn_str W) f
                                                (ValueError_index h_qty)],
                        snd st)).
Proof.
  exists padded_item_sheet, padded_qty_sheet.
  split; [repeat constructor|]. split; [repeat constructor|].
  split; [vm_compute; reflexivity|]. split; [vm_compute; reflexivity|].
  split; [reflexivity|]. split; [reflexivity|].
  intros W. destruct (padded_item_raises W) as [I1 I2].
  destruct (padded_qty_raises W) as [Q1 Q2].
  repeat (split; [assumption|]).
  intros f st Hs.
  unfold ExcelTransform.visit, ExcelTransform.process_file,
    ExcleTransform.visit.
  rewrite Hs. split; intros Hr; rewrite Hr; cbn [bind].
  - rewrite I1, I2. split; reflexivity.
  - rewrite Q1, Q2. split; reflexivity.
Qed.

(* ================================================================= *)
(** ** The theorems at the sample sheet *)

Lemma sample_found : find_header_row sample_sheet IN_HEADERS_EXPECT = Ok 5.
Proof. vm_compute. reflexivity. Defined.

Lemma sample_transformed :
  ExcelTransform.transform sample_world sample_sheet = Ok sample_out.
Proof. vm_compute. reflexivity. Defined.

Lemma sample_rectangular : rectangular sample_sheet.
Proof. repeat constructor. Defined.

(** C2 at the sample sheet: the header is at 5, and the output has as many
    records as there are rows between it and the last non-blank row. *)
Lemma data_block_rows_sample :
  find_header_row sample_sheet IN_HEADERS_EXPECT = Ok 5
  /\ exists hr last,
       nth_error (rows sample_sheet) 5 = Some hr
       /\ last_non_blank (rows sample_sheet) last
       /\ 5 <= last < length (rows sample_sheet)
       /\ out_len sample_out = Z.to_nat (Z.of_nat last - Z.of_nat 5 - 1).
Proof.
  split; [exact sample_found|].
  destruct (@data_block_rows sample_world sample_sheet 5 sample_found)
    as (hr & last & H1 & H2 & H3 & _ & _ & _ & H7 & _).
  exists hr, last. repeat (split; [assumption|]).
  apply H7. left. exact sample_transformed.
Defined.


(** C6 at the sample sheet: the header row is found and holds 币制. *)
Lemma currency_relabel_sample :
  ExcelTransform.transform sample_world sample_sheet = Ok sample_out
  /\ exists h hr last,
       find_header_row sample_sheet IN_HEADERS_EXPECT = Ok h
       /\ nth_error (rows sample_sheet) h = Some hr
       /\ last_non_blank (rows sample_sheet) last
       /\ nth (colpos hr h_currency) hr NaN = Str h_currency.
Proof.
  split; [exact sample_transformed|].
  destruct (@currency_relabel sample_world sample_sheet sample_out
                              (or_introl sample_transformed))
    as (h & hr & last & H1 & H2 & H3 & H4 & _).
  exists h, hr, last. auto.
Defined.

(** C8 at the sample sheet. *)
Lemma exempt_constant_sample :
  ExcelTransform.transform sample_world sample_sheet = Ok sample_out
  /\ out_lookup sample_out (u "征免")
     = Some (repeat (u "照章") (out_len sample_out))
  /\ forall i, i < out_len sample_out ->
               field sample_out (u "征免") i = Some (u "照章").
Proof.
  split; [exact sample_transformed|].
  apply (@exempt_constant sample_world sample_sheet sample_out).
  left. exact sample_transformed.
Defined.

(** C9 at the sample sheet: 数量及单位 is in column 4 of 14. *)
Lemma unit_col_in_range_sample :
  rectangular sample_sheet
  /\ find_header_row sample_sheet IN_HEADERS_EXPECT = Ok 5
  /\ list_index h_qty (nth 5 (rows sample_sheet) []) = Ok 4
  /\ 4 + 1 < ncols sample_sheet
  /\ 4 + 1 + 8 <= ncols sample_sheet
  /\ normalize_row (skipn (4 + 1) (nth 5 (rows sample_sheet) []))
     = skipn 5 IN_HEADERS_EXPECT
  /\ (forall c, ExcelTransform.transform sample_world sample_sheet
                <> Raise (IndexError_iloc c))
  /\ (forall c, ExcleTransform.transform sample_world sample_sheet
                <> Raise (IndexError_iloc c)).
Proof.
  split; [exact sample_rectangular|]. split; [exact sample_found|].
  split; [vm_compute; reflexivity|].
  apply (@unit_col_in_range sample_world sample_sheet 5 4).
  - exact sample_rectangular.
  - exact sample_found.
  - vm_compute. reflexivity.
Defined.

(* ================================================================= *)
(** ** The directories to scan *)

Lemma fold_keep_dir (H : Host) (l : list pystr) :
  forall uq seen,
    fst (fold_left (keep_dir H) l (uq, seen)) = uq ++ kept H l seen.
Proof.
  induction l as [|d l IH]; intros uq seen; simpl.
  - rewrite app_nil_r. reflexivity.
  - unfold keep_dir at 2. cbn [fst snd].
    destruct (path_exists H d); simpl.
    + destruct (in_seen d seen); simpl.
      * apply IH.
      * rewrite IH, <- app_assoc. reflexivity.
    + apply IH.
Qed.

Lemma filter_filter_and {A} (f g : A -> bool) (l : list A) :
  filter f (filter g l) = filter (fun x => f x && g x) l.
Proof.
  induction l as [|x l IH]; simpl; [reflexivity|].
  destruct (g x); simpl.
  - rewrite andb_true_r. destruct (f x); rewrite IH; reflexivity.
  - rewrite andb_false_r. exact IH.
Qed.

Lemma kept_spec_uniq (H : Host) (l : list pystr) :
  forall seen,
    kept H l seen
    = filter (fun x => negb (in_seen x seen))
             (spec_uniq (filter (path_exists H) l)).
Proof.
  induction l as [|d l IH]; intros seen; simpl; [reflexivity|].
  destruct (path_exists H d); simpl; [|apply IH].
  destruct (in_seen d seen) eqn:Es; simpl.
  - rewrite IH, filter_filter_and. apply filter_ext. intros x.
    destruct (pystr_eqb x d) eqn:E; simpl; [|symmetry; apply andb_true_r].
    apply pystr_eqb_eq in E. subst x. rewrite Es. reflexivity.
  - f_equal. rewrite IH, filter_filter_and. apply filter_ext. intros x.
    unfold in_seen. simpl. rewrite negb_orb, andb_comm. reflexivity.
Qed.

Lemma spec_uniq_in (l : list pystr) (x : pystr) :
  In x (spec_uniq l) <-> In x l.
Proof.
  induction l as [|d l IH]; simpl; [tauto|].
  rewrite filter_In, IH. split.
  - intros [E|[Hx _]]; auto.
  - intros [E|Hx]; [auto|].
    destruct (pystr_eqb x d) eqn:E.
    + apply pystr_eqb_eq in E. auto.
    + right. auto.
Qed.

Lemma spec_uniq_nodup (l : list pystr) : NoDup (spec_uniq l).
Proof.
  induction l as [|d l IH]; simpl; constructor.
  - rewrite filter_In. intros [_ E]. rewrite pystr_eqb_refl in E.
    discriminate.
  - apply NoDup_filter. exact IH.
Qed.

Lemma spec_uniq_length (l : list pystr) : length (spec_uniq l) <= length l.
Proof.
  induction l as [|d l IH]; simpl; [lia|].
  pose proof (filter_length_le (fun x => negb (pystr_eqb x d)) (spec_uniq l)).
  lia.
Qed.

(** X1.  [candidate_dirs] returns the listed directories that exist, each
    once, in the order of their first occurrence: no directory comes twice,
    none is missing, at most three come out. *)
Theorem candidate_dirs_first_occurrences (H : Host) :
  candidate_dirs H = spec_uniq (filter (path_exists H) (dirs_listed H))
  /\ NoDup (candidate_dirs H)
  /\ (forall d, In d (candidate_dirs H)
                <-> In d (dirs_listed H) /\ path_exists H d = true)
  /\ length (candidate_dirs H) <= 3.
Proof.
  assert (E : candidate_dirs H
              = spec_uniq (filter (path_exists H) (dirs_listed H))).
  { unfold candidate_dirs. rewrite fold_keep_dir, kept_spec_uniq. simpl.
    apply filter_id. reflexivity. }
  split; [exact E|]. rewrite E.
  split; [apply spec_uniq_nodup|].
  split; [intros d; rewrite spec_uniq_in; apply filter_In|].
  pose proof (spec_uniq_length (filter (path_exists H) (dirs_listed H))).
  pose proof (filter_length_le (path_exists H) (dirs_listed H)).
  assert (length (dirs_listed H) <= 3); [|lia].
  unfold dirs_listed. destruct (argv H) as [|a0 [|a1 t]]; simpl; lia.
Qed.

(* ================================================================= *)
(** ** Trimmed texts *)

Lemma lstrip_app_nonspace (a b : pystr) (c : N) :
  isspace c = false -> lstrip (a ++ c :: b) = lstrip a ++ c :: b.
Proof.
  intros Hc. induction a as [|x a IH]; simpl.
  - rewrite Hc. reflexivity.
  - destruct (isspace x); [exact IH | reflexivity].
Qed.

Lemma rstrip_cons (c : N) (t : pystr) :
  isspace c = false -> rstrip (c :: t) = c :: rstrip t.
Proof.
  intros Hc. unfold rstrip. simpl rev.
  rewrite (@lstrip_app_nonspace (rev t) [] c Hc), rev_app_distr. reflexivity.
Qed.

Lemma rstrip_last (s : pystr) :
  match rev (rstrip s) with [] => True | c :: _ => isspace c = false end.
Proof.
  unfold rstrip. rewrite rev_involutive.
  destruct (lstrip_head (rev s)) as [-> | (c & t & -> & Hc)]; [exact I|].
  exact Hc.
Qed.

Lemma strip_trimmed (s : pystr) : trimmed (strip s).
Proof.
  unfold trimmed, strip. split; [|apply rstrip_last].
  destruct (lstrip_head s) as [-> | (c & t & -> & Hc)]; [exact I|].
  rewrite (@rstrip_cons c t Hc). exact Hc.
Qed.

Lemma strip_fixed (s : pystr) : trimmed s -> strip s = s.
Proof.
  intros [Hh Hl]. unfold strip, rstrip.
  rewrite (@lstrip_id s Hh), (@lstrip_id (rev s) Hl). apply rev_involutive.
Qed.

Lemma strip_idem (s : pystr) : strip (strip s) = strip s.
Proof. apply strip_fixed, strip_trimmed. Qed.

(* ================================================================= *)
(** ** [to_str] and [normalize_row] keep their results clean *)

(** X3.  [to_str] gives one text for each value; every text is trimmed, a
    missing value gives the empty text, and [to_str] changes nothing when it
    is run on its own result. *)
Theorem to_str_trimmed (s : Series) :
  length (to_str s) = length s
  /\ Forall trimmed (to_str s)
  /\ (forall i v, nth_error s i = Some v -> isna v = true ->
                  nth_error (to_str s) i = Some [])
  /\ to_str (map Str (to_str s)) = to_str s.
Proof.
  unfold to_str. split; [apply length_map|]. split.
  { apply Forall_forall. intros t Ht. apply in_map_iff in Ht as (v & <- & _).
    apply strip_trimmed. }
  split.
  { intros i v Hi Hv. rewrite nth_error_map, Hi. simpl. unfold to_str1.
    rewrite Hv. reflexivity. }
  rewrite !map_map. apply map_ext. intros v.
  unfold to_str1 at 1. simpl isna. cbv iota. simpl py_str.
  unfold to_str1. apply strip_idem.
Qed.

Lemma normalize_cell_value (v : cell) :
  normalize_cell v <> [] ->
  isna v = false
  /\ normalize_cell v = strip (py_str v)
  /\ startswith (lower (normalize_cell v)) unnamed = false.
Proof.
  unfold normalize_cell. destruct (isna v) eqn:Hv; [congruence|].
  destruct (strip (py_str v)) as [|c t] eqn:E; [congruence|].
  destruct (startswith (lower (c :: t)) unnamed) eqn:Hu; [congruence|].
  auto.
Qed.

Lemma normalize_cell_fixed (s : pystr) :
  truthy s = true -> trimmed s -> startswith (lower s) unnamed = false ->
  normalize_cell (Str s) = s.
Proof.
  intros Ht Hs Hu. unfold normalize_cell. simpl isna. cbv iota.
  simpl py_str. rewrite (@strip_fixed s Hs).
  destruct s as [|c t]; [discriminate|]. rewrite Hu. reflexivity.
Qed.

Lemma truthy_iff (s : pystr) : truthy s = true <-> s <> [].
Proof. destruct s; simpl; split; congruence. Qed.

(** X2.  Every value [normalize_row] returns is the trimmed text of a cell
    of the row that is not missing; it is not empty and does not begin with
    "unnamed" in any case.  There are no more values than cells, and
    normalizing the values again changes nothing. *)
Theorem normalize_row_values (values : list cell) :
  Forall (fun s => s <> [] /\ trimmed s
                   /\ startswith (lower s) unnamed = false
                   /\ exists v, In v values /\ isna v = false
                                /\ s = strip (py_str v))
         (normalize_row values)
  /\ length (normalize_row values) <= length values
  /\ normalize_row (map Str (normalize_row values)) = normalize_row values.
Proof.
  assert (HF : Forall (fun s => s <> [] /\ trimmed s
                   /\ startswith (lower s) unnamed = false
                   /\ exists v, In v values /\ isna v = false
                                /\ s = strip (py_str v))
         (normalize_row values)).
  { apply Forall_forall. intros s Hs. rewrite normalize_row_filter in Hs.
    apply filter_In in Hs as [Hs Ht]. apply in_map_iff in Hs as (v & <- & Hv).
    apply truthy_iff in Ht.
    destruct (@normalize_cell_value v Ht) as (Hn & E & Hu).
    split; [exact Ht|]. split; [rewrite E; apply strip_trimmed|].
    split; [exact Hu|]. exists v. auto. }
  split; [exact HF|]. split; [apply normalize_row_length|].
  induction HF as [|s l (Hne & Htr & Hu & _) _ IH]; [reflexivity|].
  simpl. apply truthy_iff in Hne.
  rewrite (@normalize_cell_fixed s Hne Htr Hu), Hne, IH. reflexivity.
Qed.

(* ================================================================= *)
(** ** When the scripts succeed and how they fail *)

Lemma positions_nil_iff (l : pystr) (hr : list cell) :
  forall k, positions k l hr = []
            <-> existsb (fun c => cell_eq_str c l) hr = false.
Proof.
  induction hr as [|c hr IH]; intros k; simpl; [tauto|].
  destruct (cell_eq_str c l); simpl; [split; discriminate | apply IH].
Qed.

Lemma absent_existsb (hr : list cell) (block : list (list cell))
      (l : pystr) :
  absent (mkLF hr block) l = negb (existsb (fun c => cell_eq_str c l) hr).
Proof.
  unfold absent. cbn [columns].
  destruct (existsb (fun c => cell_eq_str c l) hr) eqn:E.
  - destruct (positions 0 l hr) eqn:P; [|reflexivity].
    apply positions_nil_iff in P. congruence.
  - apply positions_nil_iff with (k := 0) in E. rewrite E. reflexivity.
Qed.

Lemma filter_absent_missing (hr : list cell) (block : list (list cell)) :
  filter (absent (mkLF hr block)) base_cols = missing_cols hr.
Proof. apply filter_ext. intros l. apply absent_existsb. Qed.

Lemma excel_ok_inv (W : World) (df : DataFrame) (out : OutFrame) :
  ExcelTransform.transform W df = Ok out ->
  exists h hr last,
    find_header_row df IN_HEADERS_EXPECT = Ok h
    /\ nth_error (rows df) h = Some hr
    /\ last_non_blank (rows df) last
    /\ h <= last < length (rows df)
    /\ out = spec_out (unicode_decimal W) space hr
                      (spec_data_block (rows df) h last).
Proof.
  intros Hout.
  destruct (find_header_row df IN_HEADERS_EXPECT) as [h|e] eqn:Hh.
  - destruct (@both_found W df h Hh) as (hr & last & H1 & H2 & H3 & H4 & E1 & _).
    rewrite E1 in Hout. apply outcome_inv in Hout as (-> & _).
    exists h, hr, last. auto.
  - destruct (@both_not_found W df e Hh) as [E1 _]. congruence.
Qed.

Lemma excle_ok_inv (W : World) (df : DataFrame) (out : OutFrame) :
  ExcleTransform.transform W df = Ok out ->
  exists h hr last,
    find_header_row df IN_HEADERS_EXPECT = Ok h
    /\ nth_error (rows df) h = Some hr
    /\ last_non_blank (rows df) last
    /\ h <= last < length (rows df)
    /\ out = spec_out (unicode_decimal W) slash hr
                      (spec_data_block (rows df) h last).
Proof.
  intros Hout.
  destruct (find_header_row df IN_HEADERS_EXPECT) as [h|e] eqn:Hh.
  - destruct (@both_found W df h Hh) as (hr & last & H1 & H2 & H3 & H4 & _ & E2).
    rewrite E2 in Hout. apply outcome_inv in Hout as (-> & _).
    exists h, hr, last. auto.
  - destruct (@both_not_found W df e Hh) as [_ E2]. congruence.
Qed.

(** X4.  On a rectangular sheet each script succeeds exactly when the header
    row is found and its cells hold, as they are written, 数量及单位 and the
    ten base column names. *)
Theorem transform_succeeds_iff (W : World) (df : DataFrame) :
  rectangular df ->
  ((exists out, ExcelTransform.transform W df = Ok out)
   <-> exists h hr, find_header_row df IN_HEADERS_EXPECT = Ok h
                    /\ nth_error (rows df) h = Some hr
                    /\ labels_present hr = true)
  /\ ((exists out, ExcleTransform.transform W df = Ok out)
      <-> exists h hr, find_header_row df IN_HEADERS_EXPECT = Ok h
                       /\ nth_error (rows df) h = Some hr
                       /\ labels_present hr = true).
Proof.
  intros Hrect.
  assert (Hback : forall h hr,
             find_header_row df IN_HEADERS_EXPECT = Ok h ->
             nth_error (rows df) h = Some hr -> labels_present hr = true ->
             (exists out, ExcelTransform.transform W df = Ok out)
             /\ (exists out, ExcleTransform.transform W df = Ok out)).
  { intros h hr Hh Hr Hl.
    destruct (@both_found W df h Hh) as (hr' & last & H1 & H2 & _ & _ & E1 & E2).
    assert (hr' = hr) by congruence. subst hr'.
    rewrite E1, E2, !(@outcome_ok _ _ df hr h last Hrect H1 H2 Hl). eauto. }
  split; split.
  - intros (out & Ho).
    destruct (@transform_ok_inv W df out (or_introl Ho))
      as (h & hr & last & q & sep & Hh & Hr & _ & _ & _ & _ & _ & Hl & _).
    exists h, hr. auto.
  - intros (h & hr & Hh & Hr & Hl). apply (Hback h hr Hh Hr Hl).
  - intros (out & Ho).
    destruct (@transform_ok_inv W df out (or_intror Ho))
      as (h & hr & last & q & sep & Hh & Hr & _ & _ & _ & _ & _ & Hl & _).
    exists h, hr. auto.
  - intros (h & hr & Hh & Hr & Hl). apply (Hback h hr Hh Hr Hl).
Qed.

(** X5.  On a rectangular sheet a script raises one of three exceptions and
    no other: the [KeyError] of [find_header_row] when no row matches; the
    [ValueError] of [list.index] when the header row is found and no cell of
    it holds 数量及单位 as written; the [KeyError] of the column selection,
    with the base columns that no header cell holds as written, when
    数量及单位 is there and one of them is not. *)
Theorem transform_errors (W : World) (df : DataFrame) (e : exn) :
  rectangular df ->
  ExcelTransform.transform W df = Raise e
  \/ ExcleTransform.transform W df = Raise e ->
  (e = KeyError_header IN_HEADERS_EXPECT
   /\ forall r, In r (rows df) -> spec_header_values r <> IN_HEADERS_EXPECT)
  \/ (exists h hr,
         find_header_row df IN_HEADERS_EXPECT = Ok h
         /\ nth_error (rows df) h = Some hr
         /\ e = ValueError_index h_qty
         /\ existsb (fun c => cell_eq_str c h_qty) hr = false)
  \/ (exists h hr,
         find_header_row df IN_HEADERS_EXPECT = Ok h
         /\ nth_error (rows df) h = Some hr
         /\ e = KeyError_columns (missing_cols hr)
         /\ missing_cols hr <> []
         /\ existsb (fun c => cell_eq_str c h_qty) hr = true).
Proof.
  intros Hrect He.
  destruct (find_header_row df IN_HEADERS_EXPECT) as [h|e0] eqn:Hh.
  - right.
    destruct (@both_found W df h Hh) as (hr & last & H1 & H2 & _ & _ & E1 & E2).
    rewrite E1, E2 in He. unfold outcome in He. cbv zeta in He.
    rewrite filter_absent_missing in He.
    assert (Hw : length hr = ncols df).
    { apply (proj1 (Forall_forall _ _) Hrect). apply nth_error_In with h.
      exact H1. }
    destruct (list_index h_qty hr) as [q|e1] eqn:Hq.
    + right. exists h, hr. split; [reflexivity|]. split; [exact H1|].
      destruct (@right_of_qty hr q H2 Hq) as [_ Hlen].
      assert (Hq' : existsb (fun c => cell_eq_str c h_qty) hr = true).
      { apply list_index_colpos in Hq as [_ Hp].
        destruct (existsb (fun c => cell_eq_str c h_qty) hr) eqn:Ex;
          [reflexivity|].
        apply positions_nil_iff with (k := 0) in Ex. contradiction. }
      destruct (missing_cols hr) as [|m ms] eqn:Hm.
      * destruct (Nat.ltb_spec q (ncols df)); [|lia].
        destruct (Nat.ltb_spec (q + 1) (ncols df)); [|lia].
        destruct He; discriminate.
      * assert (e = KeyError_columns (m :: ms))
          by (destruct He; congruence).
        subst e. split; [reflexivity|]. split; [discriminate | exact Hq'].
    + left. exists h, hr. split; [reflexivity|]. split; [exact H1|].
      unfold list_index in Hq. apply list_index_from_raise in Hq as [-> Hn].
      split; [destruct He; congruence|].
      destruct (existsb (fun c => cell_eq_str c h_qty) hr) eqn:Ex;
        [|reflexivity].
      apply existsb_exists in Ex as (c & Hc & Ec).
      apply cell_eq_str_true in Ec. subst c. contradiction.
  - left. destruct (@both_not_found W df e0 Hh) as [E1 E2].
    assert (e = e0) by (destruct He; congruence). subst e0.
    unfold find_header_row in Hh. apply find_header_from_raise in Hh as [-> Hn].
    split; [reflexivity|]. intros r Hr. rewrite <- normalize_row_spec. auto.
Qed.

(* ================================================================= *)
(** ** The records of an output *)

Lemma field_in_frame (f : OutFrame) (n : nat) :
  Forall (fun c => length (snd c) = n) f ->
  forall l i, In l (map fst f) -> i < n ->
              exists s, field f l i = Some s.
Proof.
  intros Hf l i. unfold field. induction Hf as [|[k col] f Hc _ IH]; simpl.
  - intros [].
  - intros Hin Hi. destruct (pystr_eqb k l) eqn:E.
    + simpl in Hc. destruct (nth_error col i) as [s|] eqn:En; [eauto|].
      apply nth_error_None in En. lia.
    + apply IH; [|exact Hi]. destruct Hin as [->|Hin]; [|exact Hin].
      rewrite pystr_eqb_refl in E. discriminate.
Qed.

Lemma spec_out_columns (ud : N -> option N) (sep : pystr) (hr : list cell)
      (block : list (list cell)) :
  map fst (spec_out ud sep hr block) = OUT_HEADERS
  /\ Forall (fun c => length (snd c) = length block)
            (spec_out ud sep hr block).
Proof.
  split; [reflexivity|]. unfold spec_out.
  repeat constructor; cbn [snd]; try apply length_map. apply repeat_length.
Qed.

(** X6.  An output has the nine output columns, in the order of
    [OUT_HEADERS]; every column has one entry for each record, so every
    record has all nine fields. *)
Theorem output_frame_shape (W : World) (df : DataFrame) (out : OutFrame) :
  ExcelTransform.transform W df = Ok out
  \/ ExcleTransform.transform W df = Ok out ->
  map fst out = OUT_HEADERS
  /\ Forall (fun c => length (snd c) = out_len out) out
  /\ forall l i, In l OUT_HEADERS -> i < out_len out ->
                 exists s, field out l i = Some s.
Proof.
  intros Hout.
  destruct (transform_ok_inv W df Hout)
    as (h & hr & last & q & sep & _ & _ & _ & _ & _ & _ & _ & _ & -> & _).
  destruct (spec_out_columns (unicode_decimal W) sep hr
                             (spec_data_block (rows df) h last)) as [Hk Hc].
  rewrite spec_out_len. split; [exact Hk|]. split; [exact Hc|].
  intros l i Hl Hi. apply (@field_in_frame _ _ Hc); [rewrite Hk; exact Hl | exact Hi].
Qed.

(** The header cell of a column that the scripts look up by name. *)
Lemma label_cell (hr : list cell) (l : pystr) :
  normalize_row hr = IN_HEADERS_EXPECT -> labels_present hr = true ->
  In l (h_qty :: base_cols) ->
  positions 0 l hr = [colpos hr l] /\ nth (colpos hr l) hr NaN = Str l.
Proof.
  intros Hn Hlab Hl.
  assert (Hc : clean l).
  { destruct Hl as [<-|Hl]; [exact h_qty_clean|].
    apply (proj1 (Forall_forall _ _) base_cols_clean). exact Hl. }
  destruct (@positions_single hr l Hn Hc) as (H1 & _ & H3); [|auto].
  apply positions_in. unfold labels_present in Hlab.
  rewrite forallb_forall in Hlab. specialize (Hlab l Hl).
  apply existsb_exists in Hlab as (c & Hc' & Ec).
  apply cell_eq_str_true in Ec. subst c. exact Hc'.
Qed.

(** X7.  Five output columns copy an input column under a new name: 项号,
    商品编号 from 商品编码, 原产国(地区) from 原产国, 最终目的国(地区)
    from 最终目的国, and 境内货源地.  In every record each holds the
    normalized text of the cell under the header cell that holds the input
    name. *)
Theorem copied_columns_text (W : World) (df : DataFrame) (out : OutFrame) :
  ExcelTransform.transform W df = Ok out
  \/ ExcleTransform.transform W df = Ok out ->
  exists h hr last,
    find_header_row df IN_HEADERS_EXPECT = Ok h
    /\ nth_error (rows df) h = Some hr
    /\ last_non_blank (rows df) last
    /\ out_len out = last - h - 1
    /\ forall o src, In (o, src) copied_columns ->
         nth (colpos hr src) hr NaN = Str src
         /\ forall i, i < last - h - 1 ->
              exists r, nth_error (rows df) (h + 1 + i) = Some r
                        /\ field out o i
                           = Some (to_str1 (nth (colpos hr src) r NaN)).
Proof.
  intros Hout.
  destruct (transform_ok_inv W df Hout)
    as (h & hr & last & q & sep & Hh & Hr & Hn & Hl & Hrange & Hq & Hlt
        & Hlab & -> & _).
  exists h, hr, last. repeat (split; [assumption|]).
  split; [rewrite spec_out_len; apply spec_data_block_length|].
  intros o src Hin.
  assert (Hsrc : In src (h_qty :: base_cols)).
  { simpl in Hin. simpl.
    repeat (destruct Hin as [Hin|Hin];
            [injection Hin as <- <-; tauto|]). destruct Hin. }
  split; [apply (@label_cell hr src Hn Hlab Hsrc)|].
  intros i Hi. destruct (@block_row df h last i) as (r & Hr1 & Hr2);
    [lia | exact Hi |].
  exists r. split; [exact Hr1|].
  assert (Hf : field (spec_out (unicode_decimal W) sep hr
                               (spec_data_block (rows df) h last)) o i
               = nth_error (map (cell_text hr src)
                                (spec_data_block (rows df) h last)) i).
  { simpl in Hin.
    repeat (destruct Hin as [Hin|Hin];
            [injection Hin as <- <-; reflexivity|]). destruct Hin. }
  rewrite Hf, nth_error_map, Hr2. reflexivity.
Qed.

(** X8.  In every record 商品名称及规格型号 is the normalized text of the
    商品名称 cell, one blank, and the normalized text of the
    用途规格型号等 cell; the blank is there also when either text is
    empty. *)
Theorem name_model_concat (W : World) (df : DataFrame) (out : OutFrame) :
  ExcelTransform.transform W df = Ok out
  \/ ExcleTransform.transform W df = Ok out ->
  exists h hr last,
    find_header_row df IN_HEADERS_EXPECT = Ok h
    /\ nth_error (rows df) h = Some hr
    /\ last_non_blank (rows df) last
    /\ nth (colpos hr h_name) hr NaN = Str h_name
    /\ nth (colpos hr h_spec) hr NaN = Str h_spec
    /\ forall i, i < last - h - 1 ->
         exists r, nth_error (rows df) (h + 1 + i) = Some r
                   /\ field out o_name_model i
                      = Some (to_str1 (nth (colpos hr h_name) r NaN)
                              ++ u " "
                              ++ to_str1 (nth (colpos hr h_spec) r NaN)).
Proof.
  intros Hout.
  destruct (transform_ok_inv W df Hout)
    as (h & hr & last & q & sep & Hh & Hr & Hn & Hl & Hrange & Hq & Hlt
        & Hlab & -> & _).
  exists h, hr, last. repeat (split; [assumption|]).
  split; [apply (@label_cell hr _ Hn Hlab); simpl; tauto|].
  split; [apply (@label_cell hr _ Hn Hlab); simpl; tauto|].
  intros i Hi. destruct (@block_row df h last i) as (r & Hr1 & Hr2);
    [lia | exact Hi |].
  exists r. split; [exact Hr1|].
  change (field (spec_out (unicode_decimal W) sep hr
                          (spec_data_block (rows df) h last)) o_name_model i)
    with (nth_error (map (spec_name_model hr)
                         (spec_data_block (rows df) h last)) i).
  rewrite nth_error_map, Hr2. reflexivity.
Qed.

Lemma blank_nth (r : list cell) :
  non_blank r = false -> forall p, nth p r NaN = NaN.
Proof.
  unfold non_blank. induction r as [|v r IH]; simpl; intros H p.
  - destruct p; reflexivity.
  - apply orb_false_iff in H as [Hv Hr]. destruct p as [|p].
    + destruct v; try discriminate. reflexivity.
    + apply IH. exact Hr.
Qed.

Lemma fmt_empty (ud : N -> option N) : fmt ud (money_text NaN) = [].
Proof. reflexivity. Qed.

(** X9.  A data row whose cells are all missing is not dropped: it gives a
    record whose copied fields and 数量及单位 are empty, whose
    商品名称及规格型号 is one blank, whose price block is the separators
    alone (two blanks in [ExcelTransform.py], " /  " in
    [ExcleTransform.py]), and whose 征免 is 照章. *)
Theorem blank_row_record (W : World) (df : DataFrame) (out : OutFrame) :
  ExcelTransform.transform W df = Ok out
  \/ ExcleTransform.transform W df = Ok out ->
  exists h last,
    find_header_row df IN_HEADERS_EXPECT = Ok h
    /\ last_non_blank (rows df) last
    /\ out_len out = last - h - 1
    /\ forall i r,
         i < last - h - 1 -> nth_error (rows df) (h + 1 + i) = Some r ->
         non_blank r = false ->
         (forall o src, In (o, src) copied_columns ->
                        field out o i = Some [])
         /\ field out h_qty i = Some []
         /\ field out o_name_model i = Some (u " ")
         /\ (ExcelTransform.transform W df = Ok out ->
             field out o_price i = Some (u "  "))
         /\ (ExcleTransform.transform W df = Ok out ->
             field out o_price i = Some (u " /  "))
         /\ field out o_exempt i = Some zhaozhang.
Proof.
  intros Hout.
  destruct (transform_ok_inv W df Hout)
    as (h & hr & last & q & sep & Hh & Hr & Hn & Hl & Hrange & Hq & Hlt
        & Hlab & E & _).
  exists h, last. repeat (split; [assumption|]).
  split; [rewrite E, spec_out_len; apply spec_data_block_length|].
  intros i r Hi Hri Hb.
  assert (Hr2 : nth_error (spec_data_block (rows df) h last) i = Some r).
  { rewrite spec_data_block_nth; [exact Hri | lia | exact Hi]. }
  pose proof (@blank_nth r Hb) as Hnan.
  assert (Hct : forall l, cell_text hr l r = [])
    by (intros l; unfold cell_text; rewrite Hnan; reflexivity).
  assert (Hprice : forall sp,
             spec_price (unicode_decimal W) sp hr r = sp ++ u " ").
  { intros sp. unfold spec_price, spec_money, spec_currency.
    rewrite !Hnan, Hct, !fmt_empty. reflexivity. }
  split.
  { intros o src Hin. rewrite E.
    assert (Hf : field (spec_out (unicode_decimal W) sep hr
                               (spec_data_block (rows df) h last)) o i
                 = nth_error (map (cell_text hr src)
                                  (spec_data_block (rows df) h last)) i).
    { simpl in Hin.
      repeat (destruct Hin as [Hin|Hin];
              [injection Hin as <- <-; reflexivity|]). destruct Hin. }
    rewrite Hf, nth_error_map, Hr2. simpl. rewrite Hct. reflexivity. }
  split.
  { rewrite E.
    change (field (spec_out (unicode_decimal W) sep hr
                            (spec_data_block (rows df) h last)) h_qty i)
      with (nth_error (map (spec_qty_unit hr)
                           (spec_data_block (rows df) h last)) i).
    rewrite nth_error_map, Hr2. simpl. unfold spec_qty_unit.
    rewrite !Hnan. reflexivity. }
  split.
  { rewrite E.
    change (field (spec_out (unicode_decimal W) sep hr
                            (spec_data_block (rows df) h last))
                  o_name_model i)
      with (nth_error (map (spec_name_model hr)
                           (spec_data_block (rows df) h last)) i).
    rewrite nth_error_map, Hr2. simpl. unfold spec_name_model.
    rewrite !Hct. reflexivity. }
  assert (Hp : forall sp out',
             out' = spec_out (unicode_decimal W) sp hr
                             (spec_data_block (rows df) h last) ->
             field out' o_price i = Some (sp ++ u " ")).
  { intros sp out' ->.
    change (field (spec_out (unicode_decimal W) sp hr
                            (spec_data_block (rows df) h last)) o_price i)
      with (nth_error (map (spec_price (unicode_decimal W) sp hr)
                           (spec_data_block (rows df) h last)) i).
    rewrite nth_error_map, Hr2. simpl. rewrite Hprice. reflexivity. }
  split.
  { intros Ho. apply excel_ok_inv in Ho
      as (h' & hr' & last' & Hh' & Hr' & Hl' & _ & E').
    assert (h' = h) by congruence. subst h'.
    assert (hr' = hr) by congruence. subst hr'.
    assert (last' = last) by (eapply last_non_blank_unique; eassumption).
    subst last'. apply (Hp space out E'). }
  split.
  { intros Ho. apply excle_ok_inv in Ho
      as (h' & hr' & last' & Hh' & Hr' & Hl' & _ & E').
    assert (h' = h) by congruence. subst h'.
    assert (hr' = hr) by congruence. subst hr'.
    assert (last' = last) by (eapply last_non_blank_unique; eassumption).
    subst last'. apply (Hp slash out E'). }
  rewrite E.
  change (field (spec_out (unicode_decimal W) sep hr
                          (spec_data_block (rows df) h last)) o_exempt i)
    with (nth_error (repeat zhaozhang
                       (length (spec_data_block (rows df) h last))) i).
  apply nth_error_repeat. rewrite spec_data_block_length. exact Hi.
Qed.

(* ================================================================= *)
(** ** The column right of 数量及单位 *)

(** X10.  When the header cell right of 数量及单位 is the one that holds
    境内货源地, so that the sheet has no column of its own for the unit,
    the 数量及单位 field of every record is the normalized text of its
    quantity cell followed by its 境内货源地 field.  The quantity column is
    the one whose header cell holds 数量及单位. *)
Theorem unit_is_next_column (W : World) (df : DataFrame) (out : OutFrame) :
  ExcelTransform.transform W df = Ok out
  \/ ExcleTransform.transform W df = Ok out ->
  exists h hr last q,
    find_header_row df IN_HEADERS_EXPECT = Ok h
    /\ nth_error (rows df) h = Some hr
    /\ last_non_blank (rows df) last
    /\ out_len out = last - h - 1
    /\ list_index h_qty hr = Ok q
    /\ nth_error hr q = Some (Str h_qty)
    /\ (forall j, nth_error hr j = Some (Str h_qty) -> j = q)
    /\ (nth_error hr (q + 1) = Some (Str h_source) ->
        forall i, i < last - h - 1 ->
          exists r s,
            nth_error (rows df) (h + 1 + i) = Some r
            /\ s = to_str1 (nth (q + 1) r NaN)
            /\ field out h_source i = Some s
            /\ field out h_qty i = Some (to_str1 (nth q r NaN) ++ s)).
Proof.
  intros Hout.
  destruct (transform_ok_inv W df Hout)
    as (h & hr & last & q & sep & Hh & Hr & Hn & Hl & Hrange & Hq & Hlt
        & Hlab & -> & _).
  destruct (@qty_column_named hr q Hn Hq) as [Hnamed Honly].
  exists h, hr, last, q. repeat (split; [assumption|]).
  split; [rewrite spec_out_len; apply spec_data_block_length|].
  repeat (split; [assumption|]).
  intros Hnext i Hi.
  destruct (@block_row df h last i) as (r & Hr1 & Hr2); [lia | exact Hi |].
  assert (Hpos : colpos hr h_source = q + 1).
  { destruct (@label_cell hr h_source Hn Hlab) as [Hp _]; [simpl; tauto|].
    pose proof (@positions_of_cell h_source hr 0 (q + 1) Hnext) as Hin.
    rewrite Hp in Hin. destruct Hin as [Hin|[]]. simpl in Hin. lia. }
  exists r, (to_str1 (nth (q + 1) r NaN)).
  split; [exact Hr1|]. split; [reflexivity|]. split.
  - change (field (spec_out (unicode_decimal W) sep hr
                            (spec_data_block (rows df) h last)) h_source i)
      with (nth_error (map (cell_text hr h_source)
                           (spec_data_block (rows df) h last)) i).
    rewrite nth_error_map, Hr2. simpl. unfold cell_text. rewrite Hpos.
    reflexivity.
  - change (field (spec_out (unicode_decimal W) sep hr
                            (spec_data_block (rows df) h last)) h_qty i)
      with (nth_error (map (spec_qty_unit hr)
                           (spec_data_block (rows df) h last)) i).
    rewrite nth_error_map, Hr2. simpl. unfold spec_qty_unit.
    apply list_index_colpos in Hq as [<- _]. reflexivity.
Qed.

(* ================================================================= *)
(** ** The shape of a matched header row *)

Lemma filter_eqb_truthy (l : pystr) (xs : list pystr) :
  truthy l = true ->
  filter (fun x => pystr_eqb x l) (filter truthy xs)
  = filter (fun x => pystr_eqb x l) xs.
Proof.
  intros Hl. induction xs as [|x xs IH]; simpl; [reflexivity|].
  destruct (truthy x) eqn:Tx; simpl.
  - rewrite IH. reflexivity.
  - destruct (pystr_eqb x l) eqn:E; [|exact IH].
    apply pystr_eqb_eq in E. congruence.
Qed.

Lemma filter_map_length {A B} (f : A -> B) (p : B -> bool) (l : list A) :
  length (filter p (map f l)) = length (filter (fun x => p (f x)) l).
Proof.
  induction l as [|x l IH]; simpl; [reflexivity|].
  destruct (p (f x)); simpl; rewrite IH; reflexivity.
Qed.

Lemma expected_count (l : pystr) :
  In l IN_HEADERS_EXPECT ->
  length (filter (fun x => pystr_eqb x l) IN_HEADERS_EXPECT) = 1.
Proof.
  intros Hl. pose proof (nodup_count l expected_nodup) as Hle.
  assert (Hin : In l (filter (fun x => pystr_eqb x l) IN_HEADERS_EXPECT))
    by (apply filter_In; split; [exact Hl | apply pystr_eqb_refl]).
  destruct (filter (fun x => pystr_eqb x l) IN_HEADERS_EXPECT);
    [destruct Hin | simpl in *; lia].
Qed.

(** X11.  A row that [find_header_row] returns lies in the sheet, has
    thirteen cells or more, has exactly thirteen cells that are not filler,
    and each expected header is the normalized value of exactly one of its
    cells: a row that repeats a header does not match. *)
Theorem header_row_shape (df : DataFrame) (h : nat) :
  find_header_row df IN_HEADERS_EXPECT = Ok h ->
  exists hr,
    nth_error (rows df) h = Some hr
    /\ h < length (rows df)
    /\ 13 <= length hr
    /\ length (filter (fun v => truthy (normalize_cell v)) hr) = 13
    /\ forall l, In l IN_HEADERS_EXPECT ->
         length (filter (fun v => pystr_eqb (normalize_cell v) l) hr) = 1.
Proof.
  intros Hh. destruct (@header_found df h Hh) as (hr & Hr & _ & Hn & _).
  exists hr. split; [exact Hr|].
  split; [apply nth_error_Some; congruence|].
  pose proof (normalize_row_length hr) as Hlen. rewrite Hn in Hlen.
  split; [exact Hlen|].
  rewrite normalize_row_filter in Hn. split.
  - rewrite <- filter_map_length with (f := normalize_cell) (p := truthy).
    rewrite Hn. reflexivity.
  - intros l Hl.
    rewrite <- filter_map_length
      with (f := normalize_cell) (p := fun x => pystr_eqb x l).
    rewrite <- filter_eqb_truthy, Hn; [apply expected_count; exact Hl|].
    apply (proj1 (Forall_forall _ _) expected_clean). exact Hl.
Qed.

(* ================================================================= *)
(** ** Rounding to the nearest integer *)

Lemma round_half_even_near (a b h : N) :
  (0 < b)%N -> (2 * a < 2 * (h * b) + b)%N -> (2 * (h * b) < 2 * a + b)%N ->
  round_half_even a b = h.
Proof.
  intros Hb H1 H2. destruct (round_half_even_bounds a Hb) as [B1 B2].
  set (m := round_half_even a b) in *.
  assert (m < h + 1)%N by nia. assert (h < m + 1)%N by nia. lia.
Qed.

(* ================================================================= *)
(** ** Values below [2^46] *)

Lemma floor_log2_small (n d : N) :
  (0 < n)%N -> (0 < d)%N -> (n < d * 2 ^ 46)%N ->
  (floor_log2 n d <= 45)%Z.
Proof.
  intros Hn Hd Hlt.
  assert (Hl : (N.log2 n <= N.log2 d + 46)%N).
  { rewrite N.add_comm, <- N.log2_mul_pow2 by lia.
    apply N.log2_le_mono. lia. }
  unfold floor_log2.
  set (l := (Z.of_N (N.log2 n) - Z.of_N (N.log2 d))%Z).
  assert (Hl46 : (l <= 46)%Z) by (unfold l; lia).
  destruct (Z.eq_dec l 46) as [E|E].
  - rewrite E.
    assert (Hs : scale n d 46 = (n, (d * 2 ^ 46)%N)) by reflexivity.
    rewrite Hs. destruct (N.leb_spec (d * 2 ^ 46) n); lia.
  - destruct (scale n d l) as [a b]. destruct (b <=? a)%N; lia.
Qed.

(** Below [2^46] the exponent of the nearest binary64 is [-7] or less. *)
Lemma nearest_double_small (neg : bool) (n d : N) :
  (0 < n)%N -> (0 < d)%N -> (n < d * 2 ^ 46)%N ->
  exists k, (7 <= k)%N
            /\ nearest_double neg n d
               = Finite neg (round_half_even (n * 2 ^ k) d) (- Z.of_N k).
Proof.
  intros Hn Hd Hlt. pose proof (floor_log2_small Hn Hd Hlt) as Hfl.
  unfold nearest_double.
  destruct (N.eqb_spec n 0); [lia|].
  set (e := Z.max (floor_log2 n d - 52) (-1074)).
  assert (He : (e <= -7)%Z) by (unfold e; lia).
  exists (Z.to_N (- e)). split; [lia|].
  unfold scale. destruct (Z.leb_spec 0 e); [lia|].
  rewrite andb_false_l. f_equal. lia.
Qed.

Lemma format_2f_small (neg : bool) (m k : N) :
  format_2f (Finite neg m (- Z.of_N k))
  = two_decimal_text neg (round_half_even (m * 100) (2 ^ k)).
Proof.
  unfold format_2f, two_decimal_text, scale.
  rewrite Z.opp_involutive.
  destruct (Z.leb_spec 0 (Z.of_N k)); [|lia].
  rewrite N2Z.id, N.mul_1_l. reflexivity.
Qed.

(** The hundredths printed for [n / d] below [2^46]. *)
Lemma hundredths_small (neg : bool) (n d : N) :
  (0 < d)%N -> (n < d * 2 ^ 46)%N ->
  exists h,
    format_2f (nearest_double neg n d) = two_decimal_text neg h
    /\ (forall x, (x * d = 100 * n)%N -> h = x)
    /\ ((n < d * 2 ^ 45)%N -> (h <= 100 * 2 ^ 45)%N).
Proof.
  intros Hd Hlt. destruct (N.eq_dec n 0) as [->|Hn0].
  - exists 0%N. split; [reflexivity|]. split; [intros x Hx; nia | lia].
  - destruct (@nearest_double_small neg n d) as (k & Hk & ->); [lia..|].
    rewrite format_2f_small.
    set (m := round_half_even (n * 2 ^ k) d).
    exists (round_half_even (m * 100) (2 ^ k)).
    split; [reflexivity|].
    destruct (round_half_even_bounds (n * 2 ^ k) Hd) as [B1 B2].
    fold m in B1, B2.
    assert (Hp : (128 <= 2 ^ k)%N).
    { change 128%N with (2 ^ 7)%N. apply N.pow_le_mono_r; lia. }
    set (p := (2 ^ k)%N) in *.
    assert (Hp0 : (0 < p)%N) by lia.
    split.
    + intros x Hx. apply round_half_even_near; [exact Hp0 | |].
      * apply (N.mul_lt_mono_pos_r d); [exact Hd|]. nia.
      * apply (N.mul_lt_mono_pos_r d); [exact Hd|]. nia.
    + intros Hlt45.
      destruct (round_half_even_bounds (m * 100) Hp0) as [C1 _].
      set (h := round_half_even (m * 100) p) in *.
      assert (H2 : (2 * (h * p) * d < (200 * 2 ^ 45 + 2) * p * d)%N) by nia.
      assert (H3 : (2 * h < 200 * 2 ^ 45 + 2)%N).
      { apply (N.mul_lt_mono_pos_r (p * d)); [nia|]. nia. }
      lia.
Qed.

(* ================================================================= *)
(** ** Digits read back *)

Section Digits.

Variable ud : N -> option N.

Lemma decimal_offset (x : N) : (x < 10)%N -> decimal ud (48 + x) = Some x.
Proof.
  intros Hx. unfold decimal.
  destruct (N.ltb_spec (48 + x) 128); [|lia].
  destruct (N.leb_spec 48 (48 + x)); [|lia].
  destruct (N.leb_spec (48 + x) 57); [|lia].
  cbn [andb]. f_equal. lia.
Qed.

Lemma isdecimal_ascii_digit (c : N) :
  ascii_digit c = true -> isdecimal ud c = true.
Proof.
  unfold ascii_digit. intros H. apply andb_true_iff in H as [H1 H2].
  apply N.leb_le in H1, H2.
  replace c with (48 + (c - 48))%N by lia. unfold isdecimal.
  rewrite decimal_offset by lia. reflexivity.
Qed.

Lemma digits_val_app (a b : pystr) :
  forall acc, digits_val ud acc (a ++ b)
              = digits_val ud (digits_val ud acc a) b.
Proof. induction a as [|c a IH]; intros acc; simpl; [reflexivity | apply IH]. Qed.

Lemma digits_val_cons (acc x : N) (s : pystr) :
  (x < 10)%N ->
  digits_val ud acc ((48 + x)%N :: s) = digits_val ud (10 * acc + x) s.
Proof.
  intros Hx. cbn [digits_val]. rewrite (decimal_offset Hx). reflexivity.
Qed.

Lemma digits_val_uint (d : Decimal.uint) :
  forall p, digits_val ud (N.pos p) (uint_str d)
            = N.pos (Pos.of_uint_acc d p).
Proof.
  induction d; intros p; cbn [uint_str Pos.of_uint_acc];
    [reflexivity| | | | | | | | | |];
    rewrite <- IHd;
    match goal with
    | |- digits_val ud _ (?c :: _) = _ =>
      replace c with (48 + (c - 48))%N by reflexivity
    end;
    rewrite digits_val_cons by (vm_compute; reflexivity);
    f_equal; lia.
Qed.

Lemma digits_val_of_uint (d : Decimal.uint) :
  digits_val ud 0 (uint_str d) = Pos.of_uint d.
Proof.
  induction d; cbn [uint_str Pos.of_uint]; [reflexivity| | | | | | | | | |];
    match goal with
    | |- digits_val ud _ (?c :: _) = _ =>
      replace c with (48 + (c - 48))%N by reflexivity
    end;
    rewrite digits_val_cons by (vm_compute; reflexivity);
    [exact IHd | rewrite <- digits_val_uint; reflexivity ..].
Qed.

Lemma digits_val_N_str (n : N) : digits_val ud 0 (N_str n) = n.
Proof.
  unfold N_str. rewrite digits_val_of_uint.
  exact (DecimalN.Unsigned.of_to n).
Qed.

Lemma N_str_isdecimal (n : N) : forallb (isdecimal ud) (N_str n) = true.
Proof.
  destruct (N_str_digits n) as [Hd _]. rewrite forallb_forall in *.
  intros c Hc. apply isdecimal_ascii_digit. auto.
Qed.

End Digits.

(* ================================================================= *)
(** ** Texts without commas, dollar signs and white space *)

Lemma money_text_fixed (t : pystr) :
  Forall kept_char t -> to_str1 (Str t) = t /\ money_text (Str t) = t.
Proof.
  intros Ht. rewrite Forall_forall in Ht.
  assert (E : to_str1 (Str t) = t).
  { unfold to_str1. simpl. apply strip_id. intros c Hc.
    apply (Ht c Hc). }
  split; [exact E|]. rewrite money_text_filter, E.
  apply filter_id. intros c Hc. destruct (Ht c Hc) as (H1 & H2 & H3).
  apply N.eqb_neq in H1, H2. rewrite H1, H2, H3. reflexivity.
Qed.

Section MoneyTexts.

Variable ud : N -> option N.

Lemma fmt_parsed (t : pystr) (neg : bool) (n : N) (k : nat) :
  (forall c, In c t -> isspace c = false) ->
  parse_decimal ud t = Some (neg, n, k) ->
  fmt ud t = format_2f (nearest_double neg n (10 ^ N.of_nat k)).
Proof.
  intros Hs Hp.
  assert (Hf : numeric_form ud (snd (split_sign t)) = true).
  { destruct (numeric_form ud (snd (split_sign t))) eqn:E; [reflexivity|].
    rewrite (parse_decimal_none _ _ E) in Hp. discriminate. }
  unfold fmt, py_float.
  rewrite (anchored_match_id _ _ Hs), fullmatch_num_re, spec_numeric_form, Hf.
  rewrite (strip_id _ Hs), Hp. reflexivity.
Qed.

Lemma ascii_digit_kept (c : N) : ascii_digit c = true -> kept_char c.
Proof.
  unfold ascii_digit, kept_char. intros H.
  apply andb_true_iff in H as [H1 H2]. apply N.leb_le in H1, H2.
  split; [lia|]. split; [lia|]. unfold isspace.
  repeat match goal with
         | |- context [(?a <=? ?b)%N] => destruct (N.leb_spec a b); try lia
         | |- context [(?a =? ?b)%N] => destruct (N.eqb_spec a b); try lia
         end; reflexivity.
Qed.

Lemma N_str_kept (n : N) : Forall kept_char (N_str n).
Proof.
  destruct (N_str_digits n) as [Hd _]. rewrite forallb_forall in Hd.
  apply Forall_forall. intros c Hc. apply ascii_digit_kept. auto.
Qed.

Lemma sign_str_kept (neg : bool) : Forall kept_char (sign_str neg).
Proof.
  destruct neg; simpl; repeat constructor; try discriminate.
Qed.

Lemma two_decimal_text_kept (neg : bool) (h : N) :
  Forall kept_char (two_decimal_text neg h).
Proof.
  unfold two_decimal_text.
  apply Forall_app; split; [apply sign_str_kept|].
  apply Forall_app; split; [apply N_str_kept|].
  constructor; [repeat split; discriminate|].
  constructor.
  { apply ascii_digit_kept, ascii_digit_offset.
    apply N.Div0.div_lt_upper_bound. apply N.mod_upper_bound. lia. }
  constructor; [|constructor].
  apply ascii_digit_kept, ascii_digit_offset. apply N.mod_upper_bound. lia.
Qed.

Lemma split_sign_digits (neg : bool) (n : N) (rest : pystr) :
  split_sign (sign_str neg ++ N_str n ++ rest) = (neg, N_str n ++ rest).
Proof.
  destruct neg; [reflexivity|]. simpl sign_str. simpl app.
  destruct (N_str_digits n) as [Hd Ht].
  destruct (N_str n) as [|c s]; [discriminate|].
  simpl in Hd. apply andb_true_iff in Hd as [Hc _].
  unfold ascii_digit in Hc. apply andb_true_iff in Hc as [H1 H2].
  apply N.leb_le in H1, H2. simpl.
  destruct (N.eqb_spec c 43); [lia|]. destruct (N.eqb_spec c 45); [lia|].
  reflexivity.
Qed.

Lemma parse_digits (neg : bool) (n : N) :
  parse_decimal ud (sign_str neg ++ N_str n) = Some (neg, n, 0).
Proof.
  unfold parse_decimal.
  rewrite <- (app_nil_r (N_str n)) at 1. rewrite split_sign_digits.
  rewrite (span_app _ (N_str n) [] (N_str_isdecimal ud n) I).
  destruct (N_str_digits n) as [_ Ht]. rewrite Ht, digits_val_N_str.
  reflexivity.
Qed.

Lemma parse_two_decimal_text (neg : bool) (h : N) :
  parse_decimal ud (two_decimal_text neg h) = Some (neg, h, 2).
Proof.
  unfold parse_decimal, two_decimal_text. rewrite split_sign_digits.
  set (x := ((h mod 100) / 10)%N). set (y := (h mod 10)%N).
  assert (Hx : (x < 10)%N).
  { apply N.Div0.div_lt_upper_bound. apply N.mod_upper_bound. lia. }
  assert (Hy : (y < 10)%N) by (apply N.mod_upper_bound; lia).
  rewrite (span_app _ (N_str (h / 100)) [46; 48 + x; 48 + y]%N
                    (N_str_isdecimal ud (h / 100)))
    by (apply isdecimal_ascii; reflexivity).
  rewrite N.eqb_refl.
  assert (Hf : forallb (isdecimal ud) [48 + x; 48 + y]%N = true).
  { cbn [forallb].
    rewrite !(isdecimal_ascii_digit ud) by (apply ascii_digit_offset; assumption).
    reflexivity. }
  rewrite Hf. destruct (N_str_digits (h / 100)) as [_ Ht]. rewrite Ht.
  cbn [andb orb]. rewrite digits_val_app, digits_val_N_str.
  rewrite !digits_val_cons by assumption. cbn [digits_val length].
  f_equal. f_equal. f_equal.
  pose proof (N.div_mod h 100 ltac:(lia)).
  pose proof (N.div_mod (h mod 100) 10 ltac:(lia)).
  pose proof (N.div_mod h 10 ltac:(lia)).
  pose proof (N.mod_upper_bound (h mod 100) 10 ltac:(lia)).
  unfold x, y in *. clear Hf Ht.
  generalize dependent (h / 100)%N. generalize dependent (h / 10)%N.
  generalize dependent ((h mod 100) mod 10)%N.
  generalize dependent (h mod 100 / 10)%N.
  generalize dependent (h mod 100)%N. generalize dependent (h mod 10)%N.
  intros. lia.
Qed.

(** Below [2^46] a two-decimal-place text is printed as it is. *)
Lemma fmt_two_decimal_text (neg : bool) (h : N) :
  (h < 100 * 2 ^ 46)%N ->
  fmt ud (two_decimal_text neg h) = two_decimal_text neg h.
Proof.
  intros Hh.
  rewrite (@fmt_parsed (two_decimal_text neg h) neg h 2).
  - destruct (@hundredths_small neg h (10 ^ N.of_nat 2))
      as (h' & -> & Hex & _); [reflexivity | exact Hh |].
    rewrite (Hex h); [reflexivity|]. change (10 ^ N.of_nat 2)%N with 100%N.
    lia.
  - intros c Hc.
    apply (proj1 (Forall_forall _ _) (two_decimal_text_kept neg h)) in Hc.
    apply Hc.
  - apply parse_two_decimal_text.
Qed.

End MoneyTexts.

(* ================================================================= *)
(** ** Money normalization below [2^46] *)

Lemma money_text_spaceless (v : cell) :
  forall c, In c (money_text v) -> isspace c = false.
Proof.
  intros c Hc.
  apply (proj1 (Forall_forall _ _) (money_text_chars v)) in Hc. tauto.
Qed.

Lemma pow10_cases (k : nat) :
  (k <= 2)%nat ->
  (10 ^ N.of_nat (2 - k) * 10 ^ N.of_nat k = 100)%N
  /\ (0 < 10 ^ N.of_nat k)%N.
Proof.
  intros Hk. destruct k as [|[|[|k]]]; [split; reflexivity ..|lia].
Qed.

Lemma fmt_exact (ud : N -> option N) (v : cell)
      (neg : bool) (n : N) (k : nat) :
  parse_decimal ud (money_text v) = Some (neg, n, k) ->
  (k <= 2)%nat ->
  (n < 10 ^ N.of_nat k * 2 ^ 46)%N ->
  fmt ud (money_text v) = two_decimal_text neg (n * 10 ^ N.of_nat (2 - k)).
Proof.
  intros Hp Hk Hn. destruct (pow10_cases Hk) as [H100 Hpos].
  rewrite (@fmt_parsed ud (money_text v) neg n k (money_text_spaceless v) Hp).
  destruct (@hundredths_small neg n (10 ^ N.of_nat k) Hpos Hn)
    as (h & -> & Hex & _).
  f_equal. apply Hex. rewrite <- N.mul_assoc, H100. lia.
Qed.

(** X12.  A numeric text with at most two decimals and a value below [2^46]
    is printed exactly: the hundredths of the output are the digits read,
    padded with zeros, so nothing is lost to the conversion through a
    float. *)
Theorem money_two_decimals_exact (ud : N -> option N) (v : cell)
        (neg : bool) (n : N) (k : nat) :
  parse_decimal ud (money_text v) = Some (neg, n, k) ->
  (k <= 2)%nat ->
  (n < 10 ^ N.of_nat k * 2 ^ 46)%N ->
  clean_money_keep2 ud [v]
  = [two_decimal_text neg (n * 10 ^ N.of_nat (2 - k))].
Proof.
  intros Hp Hk Hn.
  change (clean_money_keep2 ud [v]) with [fmt ud (money_text v)].
  f_equal. exact (fmt_exact ud v Hp Hk Hn).
Qed.

(** X12 at the text "$1,234.5". *)
Lemma money_two_decimals_exact_sample :
  parse_decimal ascii_only (money_text (Str (u "$1,234.5")))
  = Some (false, 12345%N, 1)
  /\ (12345 < 10 ^ N.of_nat 1 * 2 ^ 46)%N
  /\ clean_money_keep2 ascii_only [Str (u "$1,234.5")] = [u "1234.50"].
Proof.
  split; [vm_compute; reflexivity|]. split; [vm_compute; reflexivity|].
  apply (@money_two_decimals_exact ascii_only (Str (u "$1,234.5"))
                                   false 12345 1).
  - vm_compute. reflexivity.
  - lia.
  - vm_compute. reflexivity.
Defined.

Lemma Z_str_sign (z : Z) :
  Z_str z = sign_str (z <? 0)%Z ++ N_str (Z.abs_N z).
Proof. destruct z; reflexivity. Qed.

Lemma two_decimal_whole (neg : bool) (n : N) :
  two_decimal_text neg (n * 100) = sign_str neg ++ N_str n ++ u ".00".
Proof.
  unfold two_decimal_text.
  rewrite N.div_mul by discriminate.
  replace ((n * 100) mod 100)%N with 0%N
    by (symmetry; apply N.Div0.mod_mul).
  replace ((n * 100) mod 10)%N with 0%N.
  - reflexivity.
  - replace (n * 100)%N with (n * 10 * 10)%N by lia.
    symmetry. apply N.Div0.mod_mul.
Qed.

(** X13.  An integer cell below [2^46] in magnitude comes out as its
    decimal digits followed by ".00". *)
Theorem money_integer_cell (ud : N -> option N) (z : Z) :
  (Z.abs z < 2 ^ 46)%Z ->
  clean_money_keep2 ud [Int z] = [Z_str z ++ u ".00"].
Proof.
  intros Hz.
  assert (Hk : Forall kept_char (Z_str z)).
  { rewrite Z_str_sign. apply Forall_app.
    split; [apply sign_str_kept | apply N_str_kept]. }
  assert (Ht : money_text (Int z) = Z_str z).
  { change (money_text (Int z)) with (money_text (Str (Z_str z))).
    apply (money_text_fixed Hk). }
  change (clean_money_keep2 ud [Int z]) with [fmt ud (money_text (Int z))].
  f_equal.
  rewrite (@fmt_exact ud (Int z) (z <? 0)%Z (Z.abs_N z) 0).
  - change (10 ^ N.of_nat (2 - 0))%N with 100%N.
    rewrite two_decimal_whole, Z_str_sign, <- app_assoc. reflexivity.
  - rewrite Ht, Z_str_sign. apply parse_digits.
  - lia.
  - change (10 ^ N.of_nat 0)%N with 1%N. rewrite N.mul_1_l.
    change (2 ^ 46)%N with (Z.to_N (2 ^ 46)). lia.
Qed.

(** X13 at the integer -1200. *)
Lemma money_integer_cell_sample :
  (Z.abs (-1200) < 2 ^ 46)%Z
  /\ clean_money_keep2 ascii_only [Int (-1200)] = [u "-1200.00"].
Proof.
  split; [vm_compute; reflexivity|].
  apply (@money_integer_cell ascii_only (-1200)%Z). vm_compute. reflexivity.
Defined.

(** X14.  Money normalization is idempotent below [2^45]: feeding its
    output back as a text cell gives the same output, whether the text was
    numeric or not. *)
Theorem money_normalization_idempotent (ud : N -> option N) (v : cell) :
  (forall neg n k,
      parse_decimal ud (money_text v) = Some (neg, n, k) ->
      (n < 10 ^ N.of_nat k * 2 ^ 45)%N) ->
  clean_money_keep2 ud (map Str (clean_money_keep2 ud [v]))
  = clean_money_keep2 ud [v].
Proof.
  intros Hb.
  change (clean_money_keep2 ud [v]) with [fmt ud (money_text v)].
  change (clean_money_keep2 ud (map Str [fmt ud (money_text v)]))
    with [fmt ud (money_text (Str (fmt ud (money_text v))))].
  f_equal.
  destruct (spec_numeric ud (money_text v)) eqn:Hn.
  - destruct (fmt_numeric ud v Hn) as (neg & n & k & Hp & _ & Hf).
    specialize (Hb neg n k Hp).
    assert (Hpos : (0 < 10 ^ N.of_nat k)%N).
    { apply N.neq_0_lt_0, N.pow_nonzero. discriminate. }
    destruct (@hundredths_small neg n (10 ^ N.of_nat k) Hpos)
      as (h & Hh & _ & Hle); [lia|].
    specialize (Hle Hb). rewrite Hf, Hh.
    rewrite (proj2 (money_text_fixed (two_decimal_text_kept neg h))).
    apply fmt_two_decimal_text. lia.
  - rewrite (fmt_passthrough ud v Hn).
    assert (Hk : Forall kept_char (money_text v))
      by exact (money_text_chars v).
    rewrite (proj2 (money_text_fixed Hk)).
    apply (fmt_passthrough ud v Hn).
Qed.

(** X14 at the text "$1,234.5". *)
Lemma money_normalization_idempotent_sample :
  parse_decimal ascii_only (money_text (Str (u "$1,234.5")))
  = Some (false, 12345%N, 1)
  /\ (12345 < 10 ^ N.of_nat 1 * 2 ^ 45)%N
  /\ clean_money_keep2 ascii_only
    (map Str (clean_money_keep2 ascii_only [Str (u "$1,234.5")]))
  = clean_money_keep2 ascii_only [Str (u "$1,234.5")].
Proof.
  split; [vm_compute; reflexivity|]. split; [vm_compute; reflexivity|].
  apply (@money_normalization_idempotent ascii_only (Str (u "$1,234.5"))).
  intros neg n k Hp. vm_compute in Hp.
  injection Hp as _ <- <-. vm_compute. reflexivity.
Defined.

(* ================================================================= *)
(** ** What a scan writes *)

Lemma excel_visit_written (W : World) (st : ScanState) (f : Path) :
  skipped f = false ->
  snd (ExcelTransform.visit W st f)
  = spec_written W (ExcelTransform.transform W) f ++ snd st.
Proof.
  intros Hs. unfold ExcelTransform.visit, ExcelTransform.process_file,
               spec_written.
  rewrite Hs.
  destruct (in_all <- read_excel_any W f ;; ExcelTransform.transform W in_all)
    as [out|e]; [|reflexivity].
  destruct (write_error W (save_path f) out); reflexivity.
Qed.

Lemma excel_written_fold (W : World) (entries : list Path) :
  forall st,
    snd (fold_left (ExcelTransform.visit W) entries st)
    = rev (flat_map (spec_written W (ExcelTransform.transform W))
                    (candidates entries)) ++ snd st.
Proof.
  induction entries as [|f entries IH]; intros st; [reflexivity|].
  cbn [fold_left]. rewrite IH. unfold candidates. cbn [filter].
  destruct (skipped f) eqn:Hs; cbn [negb].
  - unfold ExcelTransform.visit. rewrite Hs. reflexivity.
  - cbn [flat_map]. rewrite (@excel_visit_written W st f Hs), rev_app_distr.
    rewrite <- app_assoc. f_equal.
    unfold spec_written.
    destruct (in_all <- read_excel_any W f ;;
              ExcelTransform.transform W in_all) as [out|e]; [|reflexivity].
    destruct (write_error W (save_path f) out); reflexivity.
Qed.

Lemma excel_scan_written (W : World) (dirs : list (pystr * list Path)) :
  forall st,
    snd (snd (fold_left (ExcelTransform.scan_dir W) dirs st))
    = rev (flat_map (spec_written W (ExcelTransform.transform W))
                    (candidates (flat_map snd dirs))) ++ snd (snd st).
Proof.
  induction dirs as [|d dirs IH]; intros st; [reflexivity|].
  cbn [fold_left flat_map]. rewrite IH. unfold ExcelTransform.scan_dir.
  cbn [fst snd]. rewrite excel_written_fold, candidates_app, flat_map_app.
  rewrite rev_app_distr, <- app_assoc. reflexivity.
Qed.

Lemma excel_scan_scanned (W : World) (dirs : list (pystr * list Path)) :
  forall st,
    fst (fold_left (ExcelTransform.scan_dir W) dirs st)
    = fst st ++ map fst dirs.
Proof.
  induction dirs as [|d dirs IH]; intros st; cbn [fold_left map].
  - symmetry. apply app_nil_r.
  - rewrite IH. unfold ExcelTransform.scan_dir. cbn [fst].
    rewrite <- app_assoc. reflexivity.
Qed.

Lemma excle_visit_written (W : World) (st : ScanState) (f : Path) :
  skipped f = false ->
  snd (ExcleTransform.visit W st f)
  = spec_written W (ExcleTransform.transform W) f ++ snd st.
Proof.
  intros Hs. unfold ExcleTransform.visit, spec_written. rewrite Hs.
  destruct (in_all <- read_excel_any W f ;; ExcleTransform.transform W in_all)
    as [out|e]; [|reflexivity].
  destruct (write_error W (save_path f) out); reflexivity.
Qed.

Lemma excle_written_fold (W : World) (entries : list Path) :
  forall st,
    snd (fold_left (ExcleTransform.visit W) entries st)
    = rev (flat_map (spec_written W (ExcleTransform.transform W))
                    (candidates entries)) ++ snd st.
Proof.
  induction entries as [|f entries IH]; intros st; [reflexivity|].
  cbn [fold_left]. rewrite IH. unfold candidates. cbn [filter].
  destruct (skipped f) eqn:Hs; cbn [negb].
  - unfold ExcleTransform.visit. rewrite Hs. reflexivity.
  - cbn [flat_map]. rewrite (@excle_visit_written W st f Hs), rev_app_distr.
    rewrite <- app_assoc. f_equal.
    unfold spec_written.
    destruct (in_all <- read_excel_any W f ;;
              ExcleTransform.transform W in_all) as [out|e]; [|reflexivity].
    destruct (write_error W (save_path f) out); reflexivity.
Qed.

Lemma excel_main_written (W : World) (dirs : list (pystr * list Path)) :
  snd (ExcelTransform.main W dirs)
  = rev (flat_map (spec_written W (ExcelTransform.transform W))
                  (candidates (flat_map snd dirs))).
Proof.
  unfold ExcelTransform.main.
  pose proof (@excel_scan_written W dirs ([], ([], []))) as Hw.
  destruct (fold_left (ExcelTransform.scan_dir W) dirs ([], ([], [])))
    as [scanned [results w]].
  cbn [fst snd] in Hw. rewrite app_nil_r in Hw.
  destruct results; exact Hw.
Qed.

Lemma excle_main_written (W : World) (entries : list Path) :
  snd (ExcleTransform.main W entries)
  = rev (flat_map (spec_written W (ExcleTransform.transform W))
                  (candidates entries)).
Proof.
  unfold ExcleTransform.main.
  pose proof (@excle_written_fold W entries ([], [])) as Hw.
  destruct (fold_left (ExcleTransform.visit W) entries ([], []))
    as [results w].
  cbn [snd] in Hw. rewrite app_nil_r in Hw. exact Hw.
Qed.

Lemma status_and_written (W : World)
      (transform : DataFrame -> result OutFrame) (f : Path) :
  (exists out, spec_written W transform f = [(save_path f, out)]
               /\ spec_status W transform f = ok_line f out)
  \/ (spec_written W transform f = []
      /\ exists e, spec_status W transform f = failure_line (exn_str W) f e).
Proof.
  unfold spec_written, spec_status.
  destruct (in_all <- read_excel_any W f ;; transform in_all) as [out|e].
  - destruct (write_error W (save_path f) out) as [e|].
    + right. split; [reflexivity | exists e; reflexivity].
    + left. exists out. split; reflexivity.
  - right. split; [reflexivity | exists e; reflexivity].
Qed.

Lemma ok_not_failure (ex : exn -> pystr) (f g : Path) (out : OutFrame)
      (e : exn) :
  ok_line f out <> failure_line ex g e.
Proof.
  unfold ok_line, failure_line.
  change (u "✓ ") with [10003%N; 32%N]. change (u "✗ ") with [10007%N; 32%N].
  cbn [app]. intros H. injection H as H _. discriminate.
Qed.

(** X15.  The files on disk after a run are the outputs of the candidates
    whose reading, transformation and writing all succeeded, latest first,
    in both scripts.  A candidate leaves a file exactly when its status line
    is the ✓ line, and no ✓ line is a failure line. *)
Theorem written_files (W : World) :
  (forall dirs,
      snd (ExcelTransform.main W dirs)
      = rev (flat_map (spec_written W (ExcelTransform.transform W))
                      (candidates (flat_map snd dirs))))
  /\ (forall entries,
         snd (ExcleTransform.main W entries)
         = rev (flat_map (spec_written W (ExcleTransform.transform W))
                         (candidates entries)))
  /\ (forall transform f,
         (exists out, spec_written W transform f = [(save_path f, out)]
                      /\ spec_status W transform f = ok_line f out)
         \/ (spec_written W transform f = []
             /\ exists e, spec_status W transform f
                          = failure_line (exn_str W) f e))
  /\ (forall f g out e, ok_line f out <> failure_line (exn_str W) g e).
Proof.
  split; [apply excel_main_written|]. split; [apply excle_main_written|].
  split; [apply status_and_written|]. intros. apply ok_not_failure.
Qed.

(* ================================================================= *)
(** ** Outputs are skipped by their names *)

Lemma startswith_app (p s : pystr) : startswith (p ++ s) p = true.
Proof.
  induction p as [|c p IH]; [destruct s; reflexivity|].
  cbn [app]. rewrite startswith_cons, N.eqb_refl. exact IH.
Qed.

Lemma endswith_app (s p : pystr) : endswith (s ++ p) p = true.
Proof. unfold endswith. rewrite rev_app_distr. apply startswith_app. Qed.

Lemma save_path_suffix (f : Path) :
  endswith (snd (save_path f)) transformed_suffix = true.
Proof. unfold save_path. cbn [snd]. apply endswith_app. Qed.

Lemma spec_written_in (W : World)
      (transform : DataFrame -> result OutFrame) (entries : list Path)
      (w : Dest * OutFrame) :
  In w (rev (flat_map (spec_written W transform) (candidates entries))) ->
  exists f, In f entries /\ skipped f = false /\ fst w = save_path f.
Proof.
  rewrite <- in_rev, in_flat_map. intros (f & Hf & Hw).
  unfold candidates in Hf. apply filter_In in Hf as [Hf Hs].
  apply negb_true_iff in Hs. exists f. split; [exact Hf|].
  split; [exact Hs|].
  destruct (status_and_written W transform f) as [(out & E & _)|[E _]];
    rewrite E in Hw.
  - destruct Hw as [<-|[]]. reflexivity.
  - destruct Hw.
Qed.

Lemma output_name_facts (entries : list Path) (d : Dest) :
  (exists f, In f entries /\ skipped f = false /\ d = save_path f) ->
  (exists f, In f entries /\ skipped f = false /\ d = save_path f)
  /\ endswith (snd d) transformed_suffix = true
  /\ (forall st dir, skipped (as_entry d st dir) = true)
  /\ (forall g, In g entries -> skipped g = false -> name g <> snd d).
Proof.
  intros Hex. split; [exact Hex|]. destruct Hex as (f & Hf & Hs & ->).
  pose proof (save_path_suffix f) as He.
  split; [exact He|]. split.
  - intros st dir. unfold skipped, as_entry. cbn [name is_dir fst snd].
    rewrite He. destruct dir; reflexivity.
  - intros g Hg Hsg En. unfold skipped in Hsg.
    apply orb_false_iff in Hsg as [Hsg _].
    apply orb_false_iff in Hsg as [_ Hsg].
    rewrite En, He in Hsg. discriminate.
Qed.

(** X16.  Outputs are told from inputs by their names, compared code point
    by code point.  Every file a run writes is [save_path] of an entry that
    was not skipped; its name ends with "_transformed.xlsx", so an entry
    listed under that very name is skipped by both loops, and no entry
    processed in the run bears that very name.  Letter case counts in the
    test: there are two entries of one directory, neither skipped, such that
    the output name of the first and the name of the second differ, and
    differ in case only. *)
Theorem outputs_skipped_by_name (W : World) (dirs : list (pystr * list Path))
        (entries : list Path) :
  Forall (fun w =>
            (exists f, In f (flat_map snd dirs) /\ skipped f = false
                       /\ fst w = save_path f)
            /\ endswith (snd (fst w)) transformed_suffix = true
            /\ (forall st dir, skipped (as_entry (fst w) st dir) = true)
            /\ (forall g, In g (flat_map snd dirs) -> skipped g = false ->
                          name g <> snd (fst w)))
         (snd (ExcelTransform.main W dirs))
  /\ Forall (fun w =>
               (exists f, In f entries /\ skipped f = false
                          /\ fst w = save_path f)
               /\ endswith (snd (fst w)) transformed_suffix = true
               /\ (forall st dir, skipped (as_entry (fst w) st dir) = true)
               /\ (forall g, In g entries -> skipped g = false ->
                             name g <> snd (fst w)))
            (snd (ExcleTransform.main W entries))
  /\ exists a b : Path,
       parent a = parent b
       /\ skipped a = false /\ skipped b = false
       /\ snd (save_path a) = u "a_transformed.xlsx"
       /\ name b = u "a_transformed.XLSX"
       /\ name b <> snd (save_path a)
       /\ lower (name b) = lower (snd (save_path a)).
Proof.
  split; [|split].
  - apply Forall_forall; intros w Hw; apply output_name_facts.
    rewrite excel_main_written in Hw. exact (spec_written_in _ _ _ _ Hw).
  - apply Forall_forall; intros w Hw; apply output_name_facts.
    rewrite excle_main_written in Hw. exact (spec_written_in _ _ _ _ Hw).
  - exists (mkPath (u "d") (u "a.xlsx") (u "a") false),
           (mkPath (u "d") (u "a_transformed.XLSX") (u "a_transformed") false).
    repeat (split; [vm_compute; reflexivity|]).
    split; [vm_compute; discriminate | vm_compute; reflexivity].
Qed.

(* ================================================================= *)
(** ** Nothing to process *)

(** X17.  When every entry of the listings is skipped, [ExcelTransform.py]
    prints the heading, one line " - dir" for each directory scanned, in
    order, and the usage, and [ExcleTransform.py] prints one empty line;
    neither writes a file. *)
Theorem nothing_found (W : World) (dirs : list (pystr * list Path))
        (entries : list Path) :
  candidates (flat_map snd dirs) = [] ->
  candidates entries = [] ->
  ExcelTransform.main W dirs
  = (u "未在以下目录找到可处理的 Excel："
       :: map (fun d => u " - " ++ d) (map fst dirs) ++ ExcelTransform.usage,
     [])
  /\ ExcleTransform.main W entries = ([[]], []).
Proof.
  intros Hd He. split.
  - pose proof (@excel_scan_fold W dirs ([], ([], []))) as Hr.
    pose proof (@excel_scan_written W dirs ([], ([], []))) as Hw.
    pose proof (@excel_scan_scanned W dirs ([], ([], []))) as Hs.
    unfold ExcelTransform.main.
    destruct (fold_left (ExcelTransform.scan_dir W) dirs ([], ([], [])))
      as [scanned [results w]].
    cbn [fst snd] in Hr, Hw, Hs. rewrite Hd in Hr, Hw.
    cbn in Hr, Hw, Hs. subst. reflexivity.
  - pose proof (@excle_visit_fold W entries ([], [])) as Hr.
    pose proof (@excle_written_fold W entries ([], [])) as Hw.
    unfold ExcleTransform.main.
    destruct (fold_left (ExcleTransform.visit W) entries ([], []))
      as [results w].
    cbn [fst snd] in Hr, Hw. rewrite He in Hr, Hw.
    cbn in Hr, Hw. subst. reflexivity.
Qed.

Lemma nothing_found_sample :
  candidates (flat_map snd [(u "d", tl sample_listing); (u "e", [])]) = []
  /\ candidates (tl sample_listing) = []
  /\ ExcelTransform.main reading_world
       [(u "d", tl sample_listing); (u "e", [])]
     = (u "未在以下目录找到可处理的 Excel："
          :: [u " - d"; u " - e"] ++ ExcelTransform.usage, [])
  /\ ExcleTransform.main reading_world (tl sample_listing) = ([[]], []).
Proof.
  split; [vm_compute; reflexivity|]. split; [vm_compute; reflexivity|].
  apply (@nothing_found reading_world
                        [(u "d", tl sample_listing); (u "e", [])]
                        (tl sample_listing));
    vm_compute; reflexivity.
Defined.

(* ================================================================= *)
(** ** The further properties at the sample sheets *)

Lemma plain_transformed :
  ExcelTransform.transform sample_world plain_sheet = Ok plain_out.
Proof. vm_compute. reflexivity. Defined.

Lemma gappy_transformed :
  ExcelTransform.transform sample_world gappy_sheet = Ok gappy_out.
Proof. vm_compute. reflexivity. Defined.

Lemma padded_item_rectangular : rectangular padded_item_sheet.
Proof. repeat constructor. Defined.

(** X4 at the sample sheet: it is transformed, and its header row holds the
    labels. *)
Lemma transform_succeeds_iff_sample :
  rectangular sample_sheet
  /\ (exists out, ExcelTransform.transform sample_world sample_sheet = Ok out)
  /\ exists h hr, find_header_row sample_sheet IN_HEADERS_EXPECT = Ok h
                  /\ nth_error (rows sample_sheet) h = Some hr
                  /\ labels_present hr = true.
Proof.
  split; [exact sample_rectangular|].
  destruct (@transform_succeeds_iff sample_world sample_sheet
                                    sample_rectangular) as [[H _] _].
  assert (Hex : exists out,
             ExcelTransform.transform sample_world sample_sheet = Ok out)
    by (exists sample_out; exact sample_transformed).
  split; [exact Hex | exact (H Hex)].
Defined.

(** X5 at the sheet with a blank before 项号: the third case, with that one
    column missing. *)
Lemma transform_errors_sample :
  rectangular padded_item_sheet
  /\ ExcelTransform.transform sample_world padded_item_sheet
     = Raise (KeyError_columns [h_item])
  /\ exists h hr,
       find_header_row padded_item_sheet IN_HEADERS_EXPECT = Ok h
       /\ nth_error (rows padded_item_sheet) h = Some hr
       /\ missing_cols hr = [h_item]
       /\ existsb (fun c => cell_eq_str c h_qty) hr = true.
Proof.
  assert (Hr : ExcelTransform.transform sample_world padded_item_sheet
               = Raise (KeyError_columns [h_item]))
    by (vm_compute; reflexivity).
  split; [exact padded_item_rectangular|]. split; [exact Hr|].
  destruct (@transform_errors sample_world padded_item_sheet
                              (KeyError_columns [h_item])
                              padded_item_rectangular (or_introl Hr))
    as [[He _]|[(h & hr & _ & _ & He & _)|(h & hr & H1 & H2 & He & _ & H4)]].
  - discriminate He.
  - discriminate He.
  - exists h, hr. injection He as He. rewrite <- He. auto.
Defined.

(** X6 at the sample sheet. *)
Lemma output_frame_shape_sample :
  ExcelTransform.transform sample_world sample_sheet = Ok sample_out
  /\ map fst sample_out = OUT_HEADERS
  /\ Forall (fun c => length (snd c) = out_len sample_out) sample_out
  /\ forall l i, In l OUT_HEADERS -> i < out_len sample_out ->
                 exists s, field sample_out l i = Some s.
Proof.
  split; [exact sample_transformed|].
  apply (@output_frame_shape sample_world sample_sheet sample_out).
  left. exact sample_transformed.
Defined.

(** X7 at the sample sheet. *)
Lemma copied_columns_text_sample :
  ExcelTransform.transform sample_world sample_sheet = Ok sample_out
  /\ exists h hr last,
       find_header_row sample_sheet IN_HEADERS_EXPECT = Ok h
       /\ nth_error (rows sample_sheet) h = Some hr
       /\ last_non_blank (rows sample_sheet) last
       /\ out_len sample_out = last - h - 1
       /\ forall o src, In (o, src) copied_columns ->
            nth (colpos hr src) hr NaN = Str src
            /\ forall i, i < last - h - 1 ->
                 exists r, nth_error (rows sample_sheet) (h + 1 + i) = Some r
                           /\ field sample_out o i
                              = Some (to_str1 (nth (colpos hr src) r NaN)).
Proof.
  split; [exact sample_transformed|].
  apply (@copied_columns_text sample_world sample_sheet sample_out).
  left. exact sample_transformed.
Defined.

(** X8 at the sample sheet. *)
Lemma name_model_concat_sample :
  ExcelTransform.transform sample_world sample_sheet = Ok sample_out
  /\ exists h hr last,
       find_header_row sample_sheet IN_HEADERS_EXPECT = Ok h
       /\ nth_error (rows sample_sheet) h = Some hr
       /\ last_non_blank (rows sample_sheet) last
       /\ nth (colpos hr h_name) hr NaN = Str h_name
       /\ nth (colpos hr h_spec) hr NaN = Str h_spec
       /\ forall i, i < last - h - 1 ->
            exists r, nth_error (rows sample_sheet) (h + 1 + i) = Some r
                      /\ field sample_out o_name_model i
                         = Some (to_str1 (nth (colpos hr h_name) r NaN)
                                 ++ u " "
                                 ++ to_str1 (nth (colpos hr h_spec) r NaN)).
Proof.
  split; [exact sample_transformed|].
  apply (@name_model_concat sample_world sample_sheet sample_out).
  left. exact sample_transformed.
Defined.

(** X9 at the sheet with a blank row in its block: the second record. *)
Lemma blank_row_record_sample :
  ExcelTransform.transform sample_world gappy_sheet = Ok gappy_out
  /\ out_len gappy_out = 3
  /\ field gappy_out h_item 1 = Some []
  /\ field gappy_out h_qty 1 = Some []
  /\ field gappy_out o_name_model 1 = Some (u " ")
  /\ field gappy_out o_price 1 = Some (u "  ")
  /\ field gappy_out o_exempt 1 = Some zhaozhang.
Proof.
  split; [exact gappy_transformed|]. split; [reflexivity|].
  destruct (@blank_row_record sample_world gappy_sheet gappy_out
                              (or_introl gappy_transformed))
    as (h & last & Hf & _ & Hlen & Hall).
  assert (Hh : h = 0) by (vm_compute in Hf; congruence).
  subst h. change (out_len gappy_out) with 3 in Hlen.
  destruct (Hall 1 blank_row) as (Hc & Hq & Hn & Hp & _ & He).
  - lia.
  - reflexivity.
  - reflexivity.
  - split; [apply (Hc h_item h_item); left; reflexivity|].
    split; [exact Hq|]. split; [exact Hn|].
    split; [exact (Hp gappy_transformed) | exact He].
Defined.

(** X10 at the sheet without a unit column: 数量及单位 is the fifth
    header cell, 境内货源地 the sixth, and the first record has its quantity
    followed by its source region. *)
Lemma unit_is_next_column_sample :
  ExcelTransform.transform sample_world plain_sheet = Ok plain_out
  /\ nth_error (map Str IN_HEADERS_EXPECT) 4 = Some (Str h_qty)
  /\ nth_error (map Str IN_HEADERS_EXPECT) (4 + 1) = Some (Str h_source)
  /\ field plain_out h_source 0 = Some (u "深圳")
  /\ field plain_out h_qty 0 = Some (u "3深圳").
Proof.
  split; [exact plain_transformed|]. split; [reflexivity|].
  split; [reflexivity|].
  destruct (@unit_is_next_column sample_world plain_sheet plain_out
                                 (or_introl plain_transformed))
    as (h & hr & last & q & Hf & Hhr & _ & Hlen & _ & _ & Honly & Hall).
  assert (Hh : h = 0) by (vm_compute in Hf; congruence).
  subst h.
  change (nth_error (rows plain_sheet) 0)
    with (Some (map Str IN_HEADERS_EXPECT)) in Hhr.
  injection Hhr as <-.
  assert (Hq4 : 4 = q) by (apply Honly; reflexivity).
  subst q. change (out_len plain_out) with 2 in Hlen.
  destruct (Hall eq_refl 0) as (r & s & Hr & Es & Hs & Hfield); [lia|].
  change (nth_error (rows plain_sheet) (0 + 1 + 0))
    with (Some (plain_row 1)) in Hr.
  injection Hr as <-. subst s. split; [exact Hs | exact Hfield].
Defined.

(** X11 at the sample sheet. *)
Lemma header_row_shape_sample :
  find_header_row sample_sheet IN_HEADERS_EXPECT = Ok 5
  /\ exists hr,
       nth_error (rows sample_sheet) 5 = Some hr
       /\ 5 < length (rows sample_sheet)
       /\ 13 <= length hr
       /\ length (filter (fun v => truthy (normalize_cell v)) hr) = 13
       /\ forall l, In l IN_HEADERS_EXPECT ->
            length (filter (fun v => pystr_eqb (normalize_cell v) l) hr) = 1.
Proof.
  split; [exact sample_found|].
  apply (@header_row_shape sample_sheet 5 sample_found).
Defined.

(** A run in the sample directory: one workbook is read and one file is
    written over the earlier output; the earlier output and the lock file
    are not read. *)
Lemma sample_run :
  ExcelTransform.main reading_world [(u "d", sample_listing)]
  = ([u "✓ a.xlsx -> a_transformed.xlsx (5 行)"],
     [((u "d", u "a_transformed.xlsx"), sample_out)]).
Proof. vm_compute. reflexivity. Qed.
